(** * Inspection checklist (App.tsx): row projection, visibility
    normalisation, per-date archive and numeric input filter.

    The development embeds the pure and storage-facing parts of
    [src/App.tsx] and proves the properties its specification states about
    them.

    A JavaScript string is modelled by the [string] of its UTF-8 bytes.
    Every character the code inspects ([N], [O], [.], [-] and the digits)
    is ASCII and every other character is made of bytes above 127, so
    deleting, splitting and prefix tests give the same result on bytes as
    on UTF-16 code units; where the code compares strings ([sort]) the
    bytes are decoded to code units first.  An object used as a dictionary
    is a finite map ([gmap]) of its own properties, an optional property a
    key that may be missing; for the archive, whose keys are the dates
    typed by the user, the properties inherited from [Object.prototype]
    are modelled as well.  Code that throws is written in a
    state-and-exception monad over the browser state. *)

From Stdlib Require Import Ascii.
From Stdlib Require String.
From stdpp Require Import gmap strings list fin_maps sorting.

(* ===================================================================== *)
(** ** JavaScript string primitives used by the source *)
(* ===================================================================== *)

Module JsString.

(** [s.replace(/[cls]/g, "")] for a class [cls] of single code units:
    every matching code unit is deleted. *)
Fixpoint remove_all (cls : ascii → bool) (s : string) : string :=
  match s with
  | EmptyString => EmptyString
  | String c rest =>
      if cls c then remove_all cls rest else String c (remove_all cls rest)
  end.

(** [s.split(sep)] for a one-character separator: always at least one
    part, [ "".split(".") ] being [ [""] ]. *)
Fixpoint split (sep : ascii) (s : string) : list string :=
  match s with
  | EmptyString => [EmptyString]
  | String c rest =>
      if Ascii.eqb c sep then EmptyString :: split sep rest
      else match split sep rest with
           | p :: ps => String c p :: ps
           | [] => [String c EmptyString]
           end
  end.

(** [parts.join("")]. *)
Definition join (parts : list string) : string :=
  foldr String.append EmptyString parts.

(** Number of occurrences of a code unit. *)
Fixpoint count (c : ascii) (s : string) : nat :=
  match s with
  | EmptyString => 0
  | String d rest => (if Ascii.eqb d c then 1 else 0) + count c rest
  end.

(** All code units of [s] satisfy [p]. *)
Fixpoint all (p : ascii → bool) (s : string) : bool :=
  match s with
  | EmptyString => true
  | String c rest => p c && all p rest
  end.

(** [x || ""] on a possibly missing string property. *)
Definition or_empty (x : option string) : string := default "" x.

End JsString.

(* ===================================================================== *)
(** ** Point label display: [displayPointLabel] *)
(* ===================================================================== *)

(** [label.replace(/^NO\./, "No.")]: the pattern is anchored and not
    global, so at most the three leading code units are rewritten. *)
Definition displayPointLabel (label : string) : string :=
  match label with
  | String "N" (String "O" (String "." rest)) => "No." +:+ rest
  | _ => label
  end.

(** [label] matches [/^NO\./]. *)
Definition starts_with_NO (label : string) : bool :=
  String.prefix "NO." label.

(* ===================================================================== *)
(** ** Numeric input filter: [NumberField]'s [sanitize] *)
(* ===================================================================== *)

Module NumberField.
Import JsString.

Definition is_digit (c : ascii) : bool :=
  (48 <=? nat_of_ascii c)%nat && (nat_of_ascii c <=? 57)%nat.
Definition is_dot (c : ascii) : bool := Ascii.eqb c ".".
Definition is_minus (c : ascii) : bool := Ascii.eqb c "-".

(** The class [[0-9.\-]]. *)
Definition allowed (c : ascii) : bool := is_digit c || is_dot c || is_minus c.

(** [v.replace(/(?!^)-/g, "")]: the lookahead rejects position 0 only,
    so every minus sign except one at index 0 is deleted. *)
Definition remove_inner_minus (v : string) : string :=
  match v with
  | EmptyString => EmptyString
  | String c rest => String c (remove_all is_minus rest)
  end.

(** [parts.shift() + "." + parts.join("")] when [parts.length > 2]. *)
Definition collapse_dots (v : string) : string :=
  let parts := split "." v in
  if (2 <? length parts)%nat then
    match parts with
    | first :: others => first +:+ "." +:+ join others
    | [] => v
    end
  else v.

Definition sanitize (allowNegative : bool) (raw : string) : string :=
  let v := remove_all (λ c, negb (allowed c)) raw in
  let v := if negb allowNegative then remove_all is_minus v
           else remove_inner_minus v in
  collapse_dots v.

(** The filter as the specification words it: strip everything but
    digits, points and minus signs; keep the first point only; keep a
    minus sign only in negative mode and only in leading position. *)
Fixpoint keep_first_dot (s : string) : string :=
  match s with
  | EmptyString => EmptyString
  | String c rest =>
      if is_dot c then String c (remove_all is_dot rest)
      else String c (keep_first_dot rest)
  end.

Definition leading_minus (s : string) : bool :=
  match s with
  | String c _ => is_minus c
  | EmptyString => false
  end.

Definition sanitize_spec (allowNegative : bool) (raw : string) : string :=
  let kept := remove_all (λ c, negb (allowed c)) raw in
  let sign := if allowNegative && leading_minus kept then "-" else "" in
  sign +:+ keep_first_dot (remove_all is_minus kept).

(** Position of every minus sign is 0. *)
Definition minus_only_leading (s : string) : bool :=
  match s with
  | EmptyString => true
  | String _ rest => Nat.eqb (count "-" rest) 0
  end.

End NumberField.


(* ===================================================================== *)
(** ** Data model *)
(* ===================================================================== *)

(** [SectionKey]: the keys of [SECTION_DEFS]. *)
Inductive SectionKey : Type :=
  | influent | aerobic_upper | aerobic_lower | effluent.

(** [FieldKey = keyof SectionForm]. *)
Inductive FieldKey : Type :=
  | odor | color | temp | turbidity | pH | DO
  | residualChlorine | headLoss | aeration | comment.

#[global] Instance SectionKey_eq_dec : EqDecision SectionKey.
Proof. solve_decision. Defined.

#[global] Instance FieldKey_eq_dec : EqDecision FieldKey.
Proof. solve_decision. Defined.

Definition SectionKey_index (k : SectionKey) : nat :=
  match k with
  | influent => 0 | aerobic_upper => 1 | aerobic_lower => 2 | effluent => 3
  end.

Definition SectionKey_of_index (n : nat) : option SectionKey :=
  match n with
  | 0 => Some influent | 1 => Some aerobic_upper
  | 2 => Some aerobic_lower | 3 => Some effluent
  | _ => None
  end.

#[global] Instance SectionKey_countable : Countable SectionKey.
Proof.
  apply (inj_countable SectionKey_index SectionKey_of_index).
  by intros [].
Defined.

Definition FieldKey_index (k : FieldKey) : nat :=
  match k with
  | odor => 0 | color => 1 | temp => 2 | turbidity => 3 | pH => 4
  | DO => 5 | residualChlorine => 6 | headLoss => 7 | aeration => 8
  | comment => 9
  end.

Definition FieldKey_of_index (n : nat) : option FieldKey :=
  match n with
  | 0 => Some odor | 1 => Some color | 2 => Some temp
  | 3 => Some turbidity | 4 => Some pH | 5 => Some DO
  | 6 => Some residualChlorine | 7 => Some headLoss
  | 8 => Some aeration | 9 => Some comment
  | _ => None
  end.

#[global] Instance FieldKey_countable : Countable FieldKey.
Proof.
  apply (inj_countable FieldKey_index FieldKey_of_index).
  by intros [].
Defined.

(** One entry of [SECTION_DEFS]. *)
Record SectionDef : Type := { key : SectionKey; label : string }.

Definition SECTION_DEFS : list SectionDef :=
  [ {| key := influent; label := "流入水" |};
    {| key := aerobic_upper; label := "好気性ろ床 上部" |};
    {| key := aerobic_lower; label := "好気性ろ床 下部・処理水" |};
    {| key := effluent; label := "放流水" |} ].

Definition POINT_SECTIONS : list SectionKey := [aerobic_upper; aerobic_lower].

Record HeaderForm : Type := {
  date : string;
  weekday : string;
  weather : string;
  airTemp : string;
  primarySettlingNo1 : string;
  primarySettlingNo2 : string;
  pacRemaining : string;
  elutionPH : string;
  elutionTemp : string;
  waterContent : string
}.

(** [SectionForm]: every property is optional, so a form is a finite map
    from field keys to strings. *)
Abbreviation SectionForm := (gmap FieldKey string).

Definition FIELD_LABEL (k : FieldKey) : string :=
  match k with
  | odor => "臭気"
  | color => "色相"
  | temp => "水温(℃)"
  | turbidity => "透視度"
  | pH => "pH"
  | DO => "DO(mg/L)"
  | residualChlorine => "残塩(mg/L)"
  | headLoss => "ろ抗高"
  | aeration => "送気量"
  | comment => "備考"
  end.

Definition FIELD_ORDER : list FieldKey :=
  [odor; color; temp; turbidity; pH; DO; residualChlorine; headLoss;
   aeration; comment].

Definition POINT_FIELD_ORDER : list FieldKey :=
  [odor; color; temp; turbidity; pH; DO; residualChlorine; headLoss;
   aeration].

(** [Partial<Record<FieldKey, boolean>>] and [VisibilityMap].  The loader
    accepts maps coming from older stored data, in which a stage or a
    field may be missing. *)
Abbreviation VisibilityEntry := (gmap FieldKey bool).
Abbreviation VisibilityMap := (gmap SectionKey (gmap FieldKey bool)).

(** [PointDataMap]: point label -> partial section form. *)
Abbreviation PointDataMap := (gmap string (gmap FieldKey string)).

(** [Record<SectionKey, SectionForm>]. *)
Record Sections : Type := {
  sec_influent : SectionForm;
  sec_aerobic_upper : SectionForm;
  sec_aerobic_lower : SectionForm;
  sec_effluent : SectionForm
}.

(** [sections[k]]. *)
Definition section_at (s : Sections) (k : SectionKey) : SectionForm :=
  match k with
  | influent => sec_influent s
  | aerobic_upper => sec_aerobic_upper s
  | aerobic_lower => sec_aerobic_lower s
  | effluent => sec_effluent s
  end.

Record FormState : Type := {
  header : HeaderForm;
  sections : Sections;
  points : list string;
  pointData : gmap SectionKey PointDataMap;
  visibility : VisibilityMap;
  extraNote : string
}.

Definition EMPTY_SECTION : SectionForm :=
  list_to_map (map (λ k, (k, "")) FIELD_ORDER).

Definition DEFAULT_POINTS : list string :=
  ["NO.1-1"; "NO.1-2"; "NO.2-1"; "NO.2-2"].

(* ===================================================================== *)
(** ** Visibility: [DEFAULT_VISIBILITY], [patchedVisibility] *)
(* ===================================================================== *)

(** An object literal listing all ten flags in field order. *)
Definition visibility_literal (flags : list bool) : VisibilityEntry :=
  list_to_map (zip FIELD_ORDER flags).

Definition DEFAULT_VISIBILITY : VisibilityMap :=
  list_to_map
    [ (influent,
       visibility_literal
         [true; true; true; true; true; true; false; false; false; false]);
      (aerobic_upper,
       visibility_literal
         [true; true; true; true; true; true; false; true; false; false]);
      (aerobic_lower,
       visibility_literal
         [true; true; true; true; true; true; false; false; true; false]);
      (effluent,
       visibility_literal
         [true; true; true; true; true; true; true; false; false; false]) ].

(** [{ ...base, ...over }]: properties of [over] win. *)
Definition spread {K V} `{Countable K} (base over : gmap K V) : gmap K V :=
  over ∪ base.

(** [vis?.[k] ?? {}]. *)
Definition stage_entry (vis : option VisibilityMap) (k : SectionKey)
  : VisibilityEntry :=
  default ∅ (vis ≫= (λ m, m !! k)).

(** [merged[k].odor = true; merged[k].color = true]. *)
Definition force_odor_color (merged : VisibilityMap) (k : SectionKey)
  : VisibilityMap :=
  alter (λ e, <[color := true]> (<[odor := true]> e)) k merged.

Definition patchedVisibility (vis : option VisibilityMap) : VisibilityMap :=
  let merged : VisibilityMap :=
    list_to_map
      (map (λ k, (k, spread (DEFAULT_VISIBILITY !!! k) (stage_entry vis k)))
           [influent; aerobic_upper; aerobic_lower; effluent]) in
  fold_left force_odor_color [aerobic_upper; aerobic_lower] merged.

(** The flag a field has when the input says nothing about it. *)
Definition default_flag (s : SectionKey) (k : FieldKey) : bool :=
  default true ((DEFAULT_VISIBILITY !!! s) !! k).

(** The two forced flags. *)
Definition forced_visible (s : SectionKey) (k : FieldKey) : bool :=
  bool_decide (s ∈ POINT_SECTIONS) && bool_decide (k ∈ [odor; color]).

(** The flag a visibility map holds for a field of a stage, if any. *)
Definition flag (m : VisibilityMap) (s : SectionKey) (k : FieldKey)
  : option bool :=
  m !! s ≫= (λ e, e !! k).

(** The flag the input gives to a field, if any. *)
Definition input_flag (vis : option VisibilityMap) (s : SectionKey)
    (k : FieldKey) : option bool :=
  stage_entry vis s !! k.

(** [isFieldVisible]: [vis?.[key] === false ? false : true]. *)
Definition isFieldVisible (vis : VisibilityEntry) (k : FieldKey) : bool :=
  match vis !! k with
  | Some false => false
  | _ => true
  end.

(* ===================================================================== *)
(** ** Row projection: [toSheetRows] *)
(* ===================================================================== *)

Abbreviation Row := (list string).

(** [rows.push(r)]. *)
Definition push (rows : list Row) (r : Row) : list Row := rows ++ [r].

(** [s || ""] on a string: the empty string is the only falsy string. *)
Definition or_blank (s : string) : string :=
  if String.eqb s "" then "" else s.

(** The template literal around a block title. *)
Definition title (lbl : string) : string := "【" +:+ lbl +:+ "】".

(** Body of the inner loop over [FIELD_ORDER]. *)
Definition push_field (s : SectionForm) (vis : VisibilityEntry)
    (rows : list Row) (k : FieldKey) : list Row :=
  if negb (isFieldVisible vis k) then rows
  else push rows [FIELD_LABEL k; JsString.or_empty (s !! k)].

(** Body of the loop over [f.points]. *)
Definition push_point (pd : PointDataMap) (visCols : list FieldKey)
    (rows : list Row) (lbl : string) : list Row :=
  let rec := default ∅ (pd !! lbl) in
  push rows (displayPointLabel lbl :: map (λ k, default "" (rec !! k)) visCols).

(** Body of the loop over [SECTION_DEFS]. *)
Definition push_section (f : FormState) (rows : list Row) (def : SectionDef)
  : list Row :=
  let rows := push rows [title (label def)] in
  let s := section_at (sections f) (key def) in
  let vis := default ∅ (visibility f !! key def) in
  let isAerobic :=
    bool_decide (key def = aerobic_upper)
    || bool_decide (key def = aerobic_lower) in
  let rows :=
    if negb isAerobic then fold_left (push_field s vis) FIELD_ORDER rows
    else rows in
  let rows :=
    if bool_decide (key def ∈ POINT_SECTIONS) then
      let visCols := filter (λ k, isFieldVisible vis k = true)
                            POINT_FIELD_ORDER in
      if (0 <? length visCols)%nat then
        let rows := push rows ("ポイント" :: map FIELD_LABEL visCols) in
        let pd := default ∅ (pointData f !! key def) in
        fold_left (push_point pd visCols) (points f) rows
      else rows
    else rows in
  push rows [""].

Definition toSheetRows (f : FormState) : list Row :=
  let rows : list Row := [] in
  let rows := push rows ["日付"; date (header f)] in
  let rows := push rows ["曜日"; weekday (header f)] in
  let rows := push rows ["天候"; weather (header f)] in
  let rows := push rows ["外気温(℃)"; airTemp (header f)] in
  let rows := push rows ["初沈界面 NO.1(m)"; primarySettlingNo1 (header f)] in
  let rows := push rows ["初沈界面 NO.2(m)"; primarySettlingNo2 (header f)] in
  let rows := push rows ["PAC残量(㎥)"; pacRemaining (header f)] in
  let rows := push rows ["脱離液 pH"; elutionPH (header f)] in
  let rows := push rows ["脱離液 水温(℃)"; elutionTemp (header f)] in
  let rows := push rows ["含水率(%)"; waterContent (header f)] in
  let rows := push rows [""] in
  let rows := fold_left (push_section f) SECTION_DEFS rows in
  let rows := push rows [title "自由記入 備考"] in
  let rows := push rows ["備考"; or_blank (extraNote f)] in
  let rows := push rows [""] in
  rows.

(** The fresh state of [makeInitialState], for a given current date. *)
Definition makeInitialState (today : string) : FormState :=
  {| header := {| date := today; weekday := ""; weather := ""; airTemp := "";
                  primarySettlingNo1 := ""; primarySettlingNo2 := "";
                  pacRemaining := ""; elutionPH := ""; elutionTemp := "";
                     waterContent := "" |};
     sections := {| sec_influent := EMPTY_SECTION;
                    sec_aerobic_upper := EMPTY_SECTION;
                    sec_aerobic_lower := EMPTY_SECTION;
                    sec_effluent := EMPTY_SECTION |};
     points := DEFAULT_POINTS;
     pointData := {[ aerobic_upper := ∅; aerobic_lower := ∅ ]};
     visibility := patchedVisibility (Some DEFAULT_VISIBILITY);
     extraNote := "" |}.

(** *** The layout of the sheet, block by block *)

Definition separator : Row := [""].

(** The test the source uses to recognise a blank row:
    [r.length === 1 && r[0] === ""]. *)
Definition is_separator (r : Row) : bool :=
  match r with
  | [c] => String.eqb c ""
  | _ => false
  end.

Definition header_rows (h : HeaderForm) : list Row :=
  [ ["日付"; date h];
    ["曜日"; weekday h];
    ["天候"; weather h];
    ["外気温(℃)"; airTemp h];
    ["初沈界面 NO.1(m)"; primarySettlingNo1 h];
    ["初沈界面 NO.2(m)"; primarySettlingNo2 h];
    ["PAC残量(㎥)"; pacRemaining h];
    ["脱離液 pH"; elutionPH h];
    ["脱離液 水温(℃)"; elutionTemp h];
    ["含水率(%)"; waterContent h] ].

(** Visibility flags of a stage as the projector reads them. *)
Definition stage_visibility (f : FormState) (k : SectionKey) : VisibilityEntry :=
  default ∅ (visibility f !! k).

(** Point columns of a stage: the point field order filtered by
    visibility ([comment] is not a point column). *)
Definition visible_columns (f : FormState) (k : SectionKey) : list FieldKey :=
  filter (λ c, isFieldVisible (stage_visibility f k) c = true)
         POINT_FIELD_ORDER.

(** The values stored for a point, looked up under the label as it is
    kept in [f.points]. *)
Definition point_record (f : FormState) (k : SectionKey) (lbl : string)
  : gmap FieldKey string :=
  default ∅ (default ∅ (pointData f !! k) !! lbl).

Definition point_row (f : FormState) (k : SectionKey) (lbl : string) : Row :=
  displayPointLabel lbl
    :: map (λ c, default "" (point_record f k lbl !! c)) (visible_columns f k).

Definition point_header (f : FormState) (k : SectionKey) : Row :=
  "ポイント" :: map FIELD_LABEL (visible_columns f k).

Definition point_table (f : FormState) (k : SectionKey) : list Row :=
  match visible_columns f k with
  | [] => []
  | _ :: _ => point_header f k :: map (point_row f k) (points f)
  end.

(** Direct label/value rows of a stage. *)
Definition field_rows (f : FormState) (k : SectionKey) : list Row :=
  map (λ c, [FIELD_LABEL c; JsString.or_empty (section_at (sections f) k !! c)])
      (filter (λ c, isFieldVisible (stage_visibility f k) c = true) FIELD_ORDER).

Definition stage_content (f : FormState) (k : SectionKey) : list Row :=
  if bool_decide (k ∈ POINT_SECTIONS) then point_table f k else field_rows f k.

Definition stage_block (f : FormState) (def : SectionDef) : list Row :=
  [title (label def)] :: stage_content f (key def) ++ [separator].

Definition note_block (f : FormState) : list Row :=
  [ [title "自由記入 備考"]; ["備考"; or_blank (extraNote f)]; separator ].

(** Label of a stage in [SECTION_DEFS]. *)
Definition stage_label (k : SectionKey) : string :=
  match k with
  | influent => "流入水"
  | aerobic_upper => "好気性ろ床 上部"
  | aerobic_lower => "好気性ろ床 下部・処理水"
  | effluent => "放流水"
  end.

(** The same form with other values in the direct section fields. *)
Definition with_sections (f : FormState) (s : Sections) : FormState :=
  {| header := header f; sections := s; points := points f;
     pointData := pointData f; visibility := visibility f;
     extraNote := extraNote f |}.

(** Rows up to, and without, the next blank row. *)
Fixpoint rows_until_separator (rows : list Row) : list Row :=
  match rows with
  | [] => []
  | r :: rest => if is_separator r then [] else r :: rows_until_separator rest
  end.

(** The rows strictly between the first row equal to [t] and the next
    blank row (the block the start-up self test of the source cuts out
    with [findIndex] and [slice]). *)
Fixpoint block_after (t : Row) (rows : list Row) : list Row :=
  match rows with
  | [] => []
  | r :: rest =>
      if bool_decide (r = t) then rows_until_separator rest
      else block_after t rest
  end.

(** The block of a stage inside a sheet. *)
Definition stage_rows_in (k : SectionKey) (rows : list Row) : list Row :=
  block_after [title (stage_label k)] rows.

(* ===================================================================== *)
(** ** Per-date archive: [readArchive], [writeArchive], [listArchiveDates] *)
(* ===================================================================== *)

(** [ArchiveMap = Record<string, FormState>]: the own properties of an
    archive object. *)
Abbreviation ArchiveMap := (gmap string FormState).

(** What [JSON.parse] hands to the archive code, which casts it to
    [ArchiveMap] without a check: a plain object whose own properties hold
    form states, or [null] (the text [null] parses), on which every
    property access throws.  Texts that parse to anything else (an array,
    a string, a number, a boolean, an object holding something other than
    form states) have no value here: what the handlers find on them
    depends on the members of further prototypes.  Every statement about
    a handler names the value of the slot it is about. *)
Inductive JsArchive : Type :=
  | JsObject (own : ArchiveMap)
  | JsNull.

(** Exceptions the browser can raise in the archive code. *)
Inductive exn : Type :=
  | SecurityError        (* the store cannot be accessed *)
  | QuotaExceededError   (* [setItem] beyond the quota *)
  | SyntaxError          (* [JSON.parse] on malformed text *)
  | TypeError.           (* a property of [null] is read or written *)

Inductive outcome (A : Type) : Type :=
  | Returned (a : A)
  | Thrown (e : exn).
Arguments Returned {A} a.
Arguments Thrown {A} e.

#[global] Instance exn_eq_dec : EqDecision exn.
Proof. solve_decision. Defined.

#[global] Instance outcome_eq_dec {A} `{EqDecision A} : EqDecision (outcome A).
Proof. solve_decision. Defined.

(** The part of the browser the archive code touches: [localStorage]
    (which may be inaccessible and has a bounded capacity) and the
    messages shown to the user with [alert]. *)
Record Browser : Type := {
  available : bool;
  items : gmap string string;
  quota : nat;
  alerts : list string
}.

(** Space taken by the stored items. *)
Definition used (m : gmap string string) : nat :=
  map_fold (λ k v n, String.length k + String.length v + n) 0 m.

(** Computations that read and write the browser state and may throw. *)
Definition M (A : Type) : Type := Browser → outcome A * Browser.

#[global] Instance M_ret : MRet M := λ A a st, (Returned a, st).
#[global] Instance M_bind : MBind M := λ A B k m st,
  match m st with
  | (Returned a, st') => k a st'
  | (Thrown e, st') => (Thrown e, st')
  end.

Definition throw {A} (e : exn) : M A := λ st, (Thrown e, st).

(** A call that does not touch the browser state. *)
Definition pure_call {A} (r : outcome A) : M A := λ st, (r, st).

(** [try { body } catch { handler }]. *)
Definition try_catch {A} (body : M A) (handler : exn → M A) : M A := λ st,
  match body st with
  | (Thrown e, st') => handler e st'
  | r => r
  end.

(** [localStorage.getItem(k)]. *)
Definition getItem (k : string) : M (option string) := λ st,
  if available st then (Returned (items st !! k), st)
  else throw SecurityError st.

(** [localStorage.setItem(k, v)]. *)
Definition setItem (k v : string) : M unit := λ st,
  if negb (available st) then throw SecurityError st
  else
    let items' := <[k := v]> (items st) in
    if (used items' <=? quota st)%nat then
      (Returned (), {| available := available st; items := items';
                       quota := quota st; alerts := alerts st |})
    else throw QuotaExceededError st.

(** [alert(msg)]. *)
Definition alert (msg : string) : M unit := λ st,
  (Returned (), {| available := available st; items := items st;
                   quota := quota st; alerts := alerts st ++ [msg] |}).

(** [JSON.stringify] and [JSON.parse] are the platform's; the archive code
    is written against any such pair.  [JSON.parse] throws on malformed
    text. *)
Record Json : Type := {
  JSON_stringify : JsArchive → string;
  JSON_parse : string → outcome JsArchive
}.

(** The law of the platform's pair on archive values: the text of a value
    is never empty and parses to a value deep-equal to it. *)
Definition JSON_round_trip (json : Json) : Prop :=
  ∀ v, JSON_stringify json v ≠ ""
       ∧ JSON_parse json (JSON_stringify json v) = Returned v.

Definition STORAGE_KEY_ARCHIVE : string := "inspection-checklist-v1:archive".

(** *** Property access on the parsed archive *)

(** The properties a plain object inherits from [Object.prototype].  All
    of them are functions, except [__proto__]: an accessor whose getter
    returns the prototype and whose setter replaces it. *)
Definition Object_prototype : list string :=
  [ "constructor"; "hasOwnProperty"; "isPrototypeOf";
    "propertyIsEnumerable"; "toLocaleString"; "toString"; "valueOf";
    "__proto__"; "__defineGetter__"; "__defineSetter__";
    "__lookupGetter__"; "__lookupSetter__" ].

(** What [a[k]] evaluates to when it is not [undefined]: a stored
    snapshot, or the member of [Object.prototype] of that name.  Both are
    objects, hence truthy. *)
Inductive JsValue : Type :=
  | Snapshot (f : FormState)
  | Inherited (name : string).

(** [a[k]] on a plain object: an own property first, then the prototype;
    [None] is [undefined]. *)
Definition get_property (a : ArchiveMap) (k : string) : option JsValue :=
  match a !! k with
  | Some f => Some (Snapshot f)
  | None =>
      if bool_decide (k ∈ Object_prototype) then Some (Inherited k) else None
  end.

(** [a[k] = form] on a plain object.  An own property is overwritten.
    Otherwise the assignment creates an own property, except for
    [__proto__]: there the inherited setter runs, which makes [form] the
    prototype of [a] and adds no property ([JSON.stringify], the only
    reader of [a] after the assignment, writes own properties only). *)
Definition set_property (a : ArchiveMap) (k : string) (form : FormState)
  : ArchiveMap :=
  if bool_decide (k = "__proto__") && bool_decide (a !! k = None) then a
  else <[k := form]> a.

(** [a[k]] on what [readArchive] returned. *)
Definition js_get (a : JsArchive) (k : string) : outcome (option JsValue) :=
  match a with
  | JsObject own => Returned (get_property own k)
  | JsNull => Thrown TypeError
  end.

(** [a[k] = form]. *)
Definition js_set (a : JsArchive) (k : string) (form : FormState)
  : outcome JsArchive :=
  match a with
  | JsObject own => Returned (JsObject (set_property own k form))
  | JsNull => Thrown TypeError
  end.

(** [delete a[k]]. *)
Definition js_delete (a : JsArchive) (k : string) : outcome JsArchive :=
  match a with
  | JsObject own => Returned (JsObject (delete k own))
  | JsNull => Thrown TypeError
  end.

(** The own keys of an object.  Their order in [Object.keys] does not
    matter here: the only caller sorts them. *)
Definition own_keys {V} (a : gmap string V) : list string :=
  (map_to_list a).*1.

(** [Object.keys(a)]. *)
Definition Object_keys (a : JsArchive) : outcome (list string) :=
  match a with
  | JsObject own => Returned (own_keys own)
  | JsNull => Thrown TypeError
  end.

(** *** The order of [sort] *)

(** The six payload bits of a continuation byte. *)
Definition low_bits (c : ascii) : N := (N_of_ascii c mod 64)%N.

(** The UTF-16 code units of a text given by its UTF-8 bytes: one unit for
    a character of one, two or three bytes, a surrogate pair for a
    character of four bytes.  (A byte that does not start a character of
    well-formed text is kept as a unit.) *)
Fixpoint code_units (s : string) : list N :=
  match s with
  | EmptyString => []
  | String c0 s1 =>
      let b0 := N_of_ascii c0 in
      if (b0 <? 192)%N then b0 :: code_units s1
      else if (b0 <? 224)%N then
        match s1 with
        | String c1 s2 =>
            ((b0 - 192) * 64 + low_bits c1)%N :: code_units s2
        | _ => b0 :: code_units s1
        end
      else if (b0 <? 240)%N then
        match s1 with
        | String c1 (String c2 s3) =>
            ((b0 - 224) * 4096 + low_bits c1 * 64 + low_bits c2)%N
            :: code_units s3
        | _ => b0 :: code_units s1
        end
      else
        match s1 with
        | String c1 (String c2 (String c3 s4)) =>
            let v := ((b0 - 240) * 262144 + low_bits c1 * 4096
                      + low_bits c2 * 64 + low_bits c3 - 65536)%N in
            (55296 + v / 1024)%N :: (56320 + v mod 1024)%N :: code_units s4
        | _ => b0 :: code_units s1
        end
  end.

(** Code units compared from the left, a proper prefix sorting first. *)
Fixpoint units_compare (xs ys : list N) : comparison :=
  match xs, ys with
  | [], [] => Eq
  | [], _ :: _ => Lt
  | _ :: _, [] => Gt
  | x :: xs', y :: ys' =>
      match (x ?= y)%N with
      | Eq => units_compare xs' ys'
      | c => c
      end
  end.

(** The default comparison of [Array.prototype.sort] on strings. *)
Definition js_compare (a b : string) : comparison :=
  units_compare (code_units a) (code_units b).

Definition js_lt (a b : string) : Prop := js_compare a b = Lt.
Definition js_le (a b : string) : Prop := js_compare a b ≠ Gt.

#[global] Instance comparison_eq_decision : EqDecision comparison.
Proof. solve_decision. Defined.

#[global] Instance js_le_dec (a b : string) : Decision (js_le a b).
Proof. unfold js_le. apply _. Defined.

(** [xs.sort()] on an array of strings. *)
Definition js_sort (xs : list string) : list string := merge_sort js_le xs.

(** The order of the bytes, which is the order of [sort] on ASCII text. *)
Definition str_lt (a b : string) : Prop := String.ltb a b = true.

Section Archive.

Variable json : Json.

Definition readArchive : M JsArchive :=
  try_catch
    (raw ← getItem STORAGE_KEY_ARCHIVE;
     match raw with
     | Some text =>
         if String.eqb text "" then mret (JsObject ∅)
         else pure_call (JSON_parse json text)
     | None => mret (JsObject ∅)
     end)
    (λ _, mret (JsObject ∅)).

Definition writeArchive (a : JsArchive) : M unit :=
  try_catch
    (setItem STORAGE_KEY_ARCHIVE (JSON_stringify json a))
    (λ _, mret ()).

Definition listArchiveDates : M (list string) :=
  a ← readArchive;
  keys ← pure_call (Object_keys a);
  mret (reverse (js_sort keys)).

(** The [onSave] handler of the history panel. *)
Definition onSave (form : FormState) : M unit :=
  a ← readArchive;
  a ← pure_call (js_set a (date (header form)) form);
  _ ← writeArchive a;
  alert "この日付の点検結果を保存しました".

(** The [onLoad] handler: the value it hands to [setForm], if any (every
    value [a[d]] can have here is truthy). *)
Definition onLoad (d : string) : M (option JsValue) :=
  a ← readArchive;
  snap ← pure_call (js_get a d);
  mret snap.

(** The [onDelete] handler. *)
Definition onDelete (d : string) : M unit :=
  a ← readArchive;
  found ← pure_call (js_get a d);
  match found with
  | Some _ =>
      a ← pure_call (js_delete a d);
      writeArchive a
  | None => mret ()
  end.

(** [save(s)] followed by [load(d)]. *)
Definition save_then_load (s : FormState) (d : string)
  : M (option JsValue) :=
  _ ← onSave s; onLoad d.

End Archive.

(** *** Dates in the form [YYYY-MM-DD] *)

Definition digit_value (c : ascii) : option nat :=
  if NumberField.is_digit c then Some (nat_of_ascii c - 48) else None.

(** Value of a run of decimal digits. *)
Fixpoint digits_value (acc : nat) (cs : list ascii) : option nat :=
  match cs with
  | [] => Some acc
  | c :: rest => v ← digit_value c; digits_value (10 * acc + v) rest
  end.

(** Year, month and day of a key written [YYYY-MM-DD]. *)
Definition parse_date (s : string) : option (nat * nat * nat) :=
  match s with
  | String y1 (String y2 (String y3 (String y4 (String s1
      (String m1 (String m2 (String s2
        (String d1 (String d2 EmptyString))))))))) =>
      if Ascii.eqb s1 "-" && Ascii.eqb s2 "-" then
        y ← digits_value 0 [y1; y2; y3; y4];
        m ← digits_value 0 [m1; m2];
        d ← digits_value 0 [d1; d2];
        Some (y, m, d)
      else None
  | _ => None
  end.

(** Calendar order on (year, month, day). *)
Definition earlier (a b : nat * nat * nat) : Prop :=
  let '(y, m, d) := a in
  let '(y', m', d') := b in
  y < y' ∨ (y = y' ∧ (m < m' ∨ (m = m' ∧ d < d'))).

(** [x] is a later date than [y], whenever both are dates. *)
Definition later_date (x y : string) : Prop :=
  ∀ dx dy, parse_date x = Some dx → parse_date y = Some dy → earlier dy dx.

(** The value [readArchive] returns in a browser state. *)
Definition archive_value (json : Json) (st : Browser) : JsArchive :=
  match fst (readArchive json st) with
  | Returned a => a
  | Thrown _ => JsObject ∅
  end.

(** The three failures of the store. *)
Definition store_unavailable (st : Browser) : Prop := available st = false.

Definition payload_malformed (json : Json) (st : Browser) : Prop :=
  ∃ text e, items st !! STORAGE_KEY_ARCHIVE = Some text
            ∧ JSON_parse json text = Thrown e.

Definition write_rejected (json : Json) (a : JsArchive) (st : Browser)
  : Prop :=
  quota st
  < used (<[STORAGE_KEY_ARCHIVE := JSON_stringify json a]> (items st)).

(** *** Sample data *)

#[global] Instance HeaderForm_eq_dec : EqDecision HeaderForm.
Proof. solve_decision. Defined.

#[global] Instance Sections_eq_dec : EqDecision Sections.
Proof. solve_decision. Defined.

#[global] Instance FormState_eq_dec : EqDecision FormState.
Proof. solve_decision. Defined.

#[global] Instance JsArchive_eq_dec : EqDecision JsArchive.
Proof. solve_decision. Defined.

#[global] Instance JsValue_eq_dec : EqDecision JsValue.
Proof. solve_decision. Defined.

(** A form for the day [d] with a free note, whose upper bed holds one
    reading under the stored label ["NO.1-2"] and one under the displayed
    label ["No.1-1"]. *)
Definition sample_form (d note : string) : FormState :=
  {| header := header (makeInitialState d);
     sections := sections (makeInitialState d);
     points := DEFAULT_POINTS;
     pointData :=
       {[ aerobic_upper :=
            {[ "No.1-1" := {[ odor := "微下水臭" ]};
               "NO.1-2" := {[ odor := "微 臭"; pH := "7.1" ]} ]};
          aerobic_lower := ∅ ]};
     visibility := visibility (makeInitialState d);
     extraNote := note |}.

(** Archive values can be numbered, one number per value. *)
#[global] Instance HeaderForm_countable : Countable HeaderForm.
Proof.
  apply (inj_countable'
    (λ h, (date h, weekday h, weather h, airTemp h, primarySettlingNo1 h,
           primarySettlingNo2 h, pacRemaining h, elutionPH h, elutionTemp h,
           waterContent h))
    (λ t, let '(a, b, c, d, e, f, g, h, i, j) := t in
          Build_HeaderForm a b c d e f g h i j)).
  by intros [].
Defined.

#[global] Instance Sections_countable : Countable Sections.
Proof.
  apply (inj_countable'
    (λ s, (sec_influent s, sec_aerobic_upper s, sec_aerobic_lower s,
           sec_effluent s))
    (λ t, let '(a, b, c, d) := t in Build_Sections a b c d)).
  by intros [].
Defined.

#[global] Instance FormState_countable : Countable FormState.
Proof.
  apply (inj_countable'
    (λ f, (header f, sections f, points f, pointData f, visibility f,
           extraNote f))
    (λ t, let '(a, b, c, d, e, f) := t in Build_FormState a b c d e f)).
  by intros [].
Defined.

#[global] Instance JsArchive_countable : Countable JsArchive.
Proof.
  apply (inj_countable'
    (λ v, match v with JsObject own => Some own | JsNull => None end)
    (λ o, match o with Some own => JsObject own | None => JsNull end)).
  by intros [].
Defined.

(** A number written in binary, lowest bit first, and read back. *)
Fixpoint bits_of_pos (p : positive) : string :=
  match p with
  | xH => ""
  | xO q => String "0" (bits_of_pos q)
  | xI q => String "1" (bits_of_pos q)
  end.

Fixpoint pos_of_bits (s : string) : option positive :=
  match s with
  | EmptyString => Some xH
  | String c rest =>
      q ← pos_of_bits rest;
      if Ascii.eqb c "0" then Some (xO q)
      else if Ascii.eqb c "1" then Some (xI q)
      else None
  end.

(** A text a table may list: not empty and not starting with [#]. *)
Definition listed_text (text : string) : bool :=
  match text with
  | EmptyString => false
  | String c _ => negb (Ascii.eqb c "#")
  end.

(** A serialiser with the listed texts for the listed values; a value that
    is not listed is written as [#] and its number, and any other text is
    malformed. *)
Definition table_json (table : list (string * JsArchive)) : Json :=
  {| JSON_stringify v :=
       match list_find (λ p, p.2 = v) table with
       | Some (_, (text, _)) => text
       | None => String "#" (bits_of_pos (encode v))
       end;
     JSON_parse text :=
       match list_find (λ p, p.1 = text) table with
       | Some (_, (_, v)) => Returned v
       | None =>
           match text with
           | String "#" bits =>
               match pos_of_bits bits ≫= decode with
               | Some v => Returned v
               | None => Thrown SyntaxError
               end
           | _ => Thrown SyntaxError
           end
       end |}.

Definition sample_archive : ArchiveMap :=
  {[ "2024-05-01" := sample_form "2024-05-01" "";
     "2023-12-31" := sample_form "2023-12-31" "year end";
     "2024-04-30" := sample_form "2024-04-30" "" ]}.

(** [sample_archive] after the form of 2024-05-01 is saved again. *)
Definition updated_archive : ArchiveMap :=
  <["2024-05-01" := sample_form "2024-05-01" "again"]> sample_archive.

Definition sample_table : list (string * JsArchive) :=
  [ ("{}", JsObject ∅);
    ("null", JsNull);
    ("{3 days}", JsObject sample_archive);
    ("{3 days, 2024-05-02}",
     JsObject
       (<["2024-05-02" := sample_form "2024-05-02" "new"]> sample_archive));
    ("{3 days, 2024-05-01 again}", JsObject updated_archive);
    ("{3 days, no date}",
     JsObject (<["" := sample_form "" "undated"]> sample_archive));
    ("{3 days, constructor}",
     JsObject
       (<["constructor" := sample_form "constructor" ""]> sample_archive)) ].

Definition sample_json : Json := table_json sample_table.

(** A working store holding [sample_archive]. *)
Definition sample_browser : Browser :=
  {| available := true;
     items := {[ STORAGE_KEY_ARCHIVE := "{3 days}" ]};
     quota := 5000;
     alerts := [] |}.

(** The same store, full. *)
Definition full_browser : Browser :=
  {| available := true;
     items := {[ STORAGE_KEY_ARCHIVE := "{3 days}" ]};
     quota := 39;
     alerts := [] |}.

(** A browser that refuses access to the store. *)
Definition blocked_browser : Browser :=
  {| available := false; items := ∅; quota := 5000; alerts := [] |}.

(** A store holding a text that is not JSON. *)
Definition corrupt_browser : Browser :=
  {| available := true;
     items := {[ STORAGE_KEY_ARCHIVE := "{oops" ]};
     quota := 5000;
     alerts := [] |}.

(** A store whose archive slot holds the text [null]. *)
Definition null_browser : Browser :=
  {| available := true;
     items := {[ STORAGE_KEY_ARCHIVE := "null" ]};
     quota := 5000;
     alerts := [] |}.

(* ===================================================================== *)
(** ** The preview table: [rowsToHtmlTable] *)
(* ===================================================================== *)

(** [s.replace(/c/g, text)] for a single code unit [c]. *)
Fixpoint replace_all_char (c : ascii) (text : string) (s : string) : string :=
  match s with
  | EmptyString => EmptyString
  | String d rest =>
      if Ascii.eqb d c then text +:+ replace_all_char c text rest
      else String d (replace_all_char c text rest)
  end.

(** [esc]: the three replacements, in the order of the source. *)
Definition esc (s : string) : string :=
  replace_all_char ">" "&gt;"
    (replace_all_char "<" "&lt;" (replace_all_char "&" "&amp;" s)).

(** The double quote of the attribute values. *)
Definition dquote : string := String (ascii_of_nat 34) EmptyString.

(** One [<td>]: the first cell of a row carries the bold style. *)
Definition html_cell (i : nat) (c : string) : string :=
  "<td"
  +:+ (if Nat.eqb i 0 then " style=" +:+ dquote +:+ "font-weight:bold" +:+ dquote
       else "")
  +:+ ">" +:+ esc c +:+ "</td>".

Definition html_row (r : Row) : string :=
  "<tr>" +:+ JsString.join (imap html_cell r) +:+ "</tr>".

Definition rowsToHtmlTable (rows : list Row) : string :=
  "<table class=" +:+ dquote +:+ "w-full border-collapse" +:+ dquote
  +:+ "><tbody>" +:+ JsString.join (map html_row rows)
  +:+ "</tbody></table>".

(** The opening tag of a cell. *)
Definition cell_open (i : nat) : string :=
  "<td"
  +:+ (if Nat.eqb i 0 then " style=" +:+ dquote +:+ "font-weight:bold" +:+ dquote
       else "")
  +:+ ">".

(** The text a cell's markup stands for: the three entities read back. *)
Fixpoint unesc (s : string) : string :=
  match s with
  | EmptyString => EmptyString
  | String "&" (String "a" (String "m" (String "p" (String ";" rest)))) =>
      String "&" (unesc rest)
  | String "&" (String "l" (String "t" (String ";" rest))) =>
      String "<" (unesc rest)
  | String "&" (String "g" (String "t" (String ";" rest))) =>
      String ">" (unesc rest)
  | String c rest => String c (unesc rest)
  end.

(** Substitution of one code unit by its entity. *)
Definition esc_char (c : ascii) : string :=
  if Ascii.eqb c "&" then "&amp;"
  else if Ascii.eqb c "<" then "&lt;"
  else if Ascii.eqb c ">" then "&gt;"
  else String c EmptyString.

(** The escaping in one pass. *)
Fixpoint esc_once (s : string) : string :=
  match s with
  | EmptyString => EmptyString
  | String c rest => esc_char c +:+ esc_once rest
  end.

(** Number of cells of a sheet. *)
Definition cell_count (rows : list Row) : nat :=
  foldr (λ r n, length r + n) 0 rows.

(* ===================================================================== *)
(** ** The [pattern] attribute of [NumberField] *)
(* ===================================================================== *)

(** [[0-9]*\.?[0-9]*] up to the end of the text. *)
Fixpoint digits_dot_digits (s : string) : bool :=
  match s with
  | EmptyString => true
  | String c rest =>
      if NumberField.is_digit c then digits_dot_digits rest
      else if NumberField.is_dot c then JsString.all NumberField.is_digit rest
      else false
  end.

(** What the filter keeps, in the unsigned part, of one typed
    character. *)
Definition kept_unsigned (c : ascii) : string :=
  JsString.remove_all NumberField.is_minus
    (JsString.remove_all (λ d, negb (NumberField.allowed d)) (String c "")).

(** The text is in the language of the pattern the input element is
    given: [^-?[0-9]*\.?[0-9]*$] with [allowNegative],
    [^[0-9]*\.?[0-9]*$] without. *)
Definition matches_pattern (allowNegative : bool) (s : string) : bool :=
  match s with
  | String c rest =>
      if allowNegative && NumberField.is_minus c then digits_dot_digits rest
      else digits_dot_digits s
  | EmptyString => true
  end.

(* ===================================================================== *)
(** ** Export: [exportExcel] *)
(* ===================================================================== *)

(** UTF-16 code units contributed by one byte of a UTF-8 text: one for an
    ASCII byte and for the lead byte of a two- or three-byte character,
    two for the lead byte of a four-byte character (a surrogate pair),
    none for a continuation byte. *)
Definition utf16_units (c : ascii) : nat :=
  let n := nat_of_ascii c in
  if (n <? 128)%nat then 1
  else if (n <? 192)%nat then 0
  else if (n <? 240)%nat then 1
  else 2.

(** [s.length]. *)
Fixpoint js_length (s : string) : nat :=
  match s with
  | EmptyString => 0
  | String c rest => utf16_units c + js_length rest
  end.

(** [(r[0] || "").length]. *)
Definition first_cell_length (r : Row) : nat :=
  js_length (JsString.or_empty (head r)).

(** [rows.reduce((acc, r) => Math.max(acc, (r[0] || "").length), 8)]. *)
Definition col0_width (rows : list Row) : nat :=
  fold_left (λ acc r, Nat.max acc (first_cell_length r)) rows 8.

(** What [exportExcel] hands to the spreadsheet library. *)
Record Workbook : Type := {
  sheet_name : string;
  sheet_rows : list Row;
  column_widths : list nat;
  file_name : string
}.

Definition exportExcel (form : FormState) : Workbook :=
  let rows := toSheetRows form in
  let col0 := col0_width rows in
  {| sheet_name := "点検表";
     sheet_rows := rows;
     column_widths := [col0; 20; 14; 14; 14; 14];
     file_name :=
       "inspection_"
       +:+ (if String.eqb (date (header form)) "" then "date"
            else date (header form))
       +:+ ".xlsx" |}.

(* ===================================================================== *)
(** ** Restoring and persisting the current form *)
(* ===================================================================== *)

Definition STORAGE_KEY : string := "inspection-checklist-v1".

(** A form as [JSON.parse] returns it from the current slot: older data
    may lack the four properties the loader supplies. *)
Record StoredForm : Type := {
  stored_header : HeaderForm;
  stored_sections : Sections;
  stored_points : option (list string);
  stored_pointData : option (gmap SectionKey PointDataMap);
  stored_visibility : option VisibilityMap;
  stored_extraNote : option string
}.

(** [JSON.stringify] and [JSON.parse] on the current slot. *)
Record FormJson : Type := {
  JSON_stringify_form : FormState → string;
  JSON_parse_form : string → outcome StoredForm
}.

(** The stored form with every property present. *)
Definition as_stored (f : FormState) : StoredForm :=
  {| stored_header := header f;
     stored_sections := sections f;
     stored_points := Some (points f);
     stored_pointData := Some (pointData f);
     stored_visibility := Some (visibility f);
     stored_extraNote := Some (extraNote f) |}.

(** The text written for [f] is read back as [f]. *)
Definition form_reads_back (fj : FormJson) (f : FormState) : Prop :=
  JSON_stringify_form fj f ≠ ""
  ∧ JSON_parse_form fj (JSON_stringify_form fj f) = Returned (as_stored f).

(** The object the initialiser builds from the parsed text. *)
Definition restore (parsed : StoredForm) : FormState :=
  {| header := stored_header parsed;
     sections := stored_sections parsed;
     points :=
       match stored_points parsed with
       | Some (p :: ps) => p :: ps
       | _ => DEFAULT_POINTS
       end;
     pointData :=
       default {[ aerobic_upper := ∅; aerobic_lower := ∅ ]}
               (stored_pointData parsed);
     visibility := patchedVisibility (stored_visibility parsed);
     extraNote := default "" (stored_extraNote parsed) |}.

Section CurrentSlot.

Variable fj : FormJson.
Variable json : Json.

(** The initialiser of the form state ([useState(() => ...)]): the read
    of the slot is outside the [try]. *)
Definition initialForm (today : string) : M FormState :=
  raw ← getItem STORAGE_KEY;
  match raw with
  | Some text =>
      if String.eqb text "" then mret (makeInitialState today)
      else
        try_catch
          (parsed ← pure_call (JSON_parse_form fj text);
           mret (restore parsed))
          (λ _, mret (makeInitialState today))
  | None => mret (makeInitialState today)
  end.

(** The persistence effect run after every change of the form: the write
    of the current slot is outside any [try]. *)
Definition persist (form : FormState) : M unit :=
  _ ← setItem STORAGE_KEY (JSON_stringify_form fj form);
  a ← readArchive json;
  a ← pure_call (js_set a (date (header form)) form);
  writeArchive json a.

End CurrentSlot.

(** A form whose visibility is normalised and which lists a point. *)
Definition normal_form (f : FormState) : Prop :=
  patchedVisibility (Some (visibility f)) = visibility f ∧ points f ≠ [].

(* ===================================================================== *)
(** ** Editing: the [set] helpers of the cards and their wiring *)
(* ===================================================================== *)

(** [PointSubsections]' [set(label, patch)]:
    [{ ...value, [label]: { ...(value[label] || {}), ...patch } }]. *)
Definition PointSubsections_set (value : PointDataMap) (lbl : string)
    (patch : gmap FieldKey string) : PointDataMap :=
  <[lbl := spread (default ∅ (value !! lbl)) patch]> value.

(** The [onChange] given to [PointSubsections]:
    [setForm(p => ({ ...p, pointData: { ...p.pointData, [key]: pd } }))]. *)
Definition set_pointData (k : SectionKey) (pd : PointDataMap) (p : FormState)
  : FormState :=
  {| header := header p; sections := sections p; points := points p;
     pointData := <[k := pd]> (pointData p);
     visibility := visibility p; extraNote := extraNote p |}.

(** An edit in the card of point [lbl] of stage [k], on the form as it is
    rendered ([value] is [form.pointData?.[key] || {}]). *)
Definition edit_point (f : FormState) (k : SectionKey) (lbl : string)
    (patch : gmap FieldKey string) : FormState :=
  set_pointData k
    (PointSubsections_set (default ∅ (pointData f !! k)) lbl patch) f.

(** [{ ...p.sections, [key]: s }]. *)
Definition sections_with (s : Sections) (k : SectionKey) (v : SectionForm)
  : Sections :=
  match k with
  | influent =>
      {| sec_influent := v; sec_aerobic_upper := sec_aerobic_upper s;
         sec_aerobic_lower := sec_aerobic_lower s;
         sec_effluent := sec_effluent s |}
  | aerobic_upper =>
      {| sec_influent := sec_influent s; sec_aerobic_upper := v;
         sec_aerobic_lower := sec_aerobic_lower s;
         sec_effluent := sec_effluent s |}
  | aerobic_lower =>
      {| sec_influent := sec_influent s;
         sec_aerobic_upper := sec_aerobic_upper s;
         sec_aerobic_lower := v; sec_effluent := sec_effluent s |}
  | effluent =>
      {| sec_influent := sec_influent s;
         sec_aerobic_upper := sec_aerobic_upper s;
         sec_aerobic_lower := sec_aerobic_lower s; sec_effluent := v |}
  end.

(** An edit in the card of stage [k]: [SectionCard]'s [set(patch)] is
    [onChange({ ...value, ...patch })], and the [onChange] given to the
    card stores the result under the stage. *)
Definition edit_section (f : FormState) (k : SectionKey)
    (patch : SectionForm) : FormState :=
  with_sections f
    (sections_with (sections f) k
                   (spread (section_at (sections f) k) patch)).

(** [visibleMap?.[k] !== false], the test of both cards. *)
Definition card_shows (visibleMap : option VisibilityEntry) (k : FieldKey)
  : bool :=
  negb (bool_decide (visibleMap ≫= (λ m, m !! k) = Some false)).

(** The fields for which [SectionCard] renders an input, in the order of
    the markup. *)
Definition SectionCard_inputs (sectionKey : SectionKey)
    (visibleMap : option VisibilityEntry) : list FieldKey :=
  let hideSectionInputs :=
    bool_decide (sectionKey = aerobic_upper)
    || bool_decide (sectionKey = aerobic_lower) in
  let anyVisible :=
    existsb (card_shows visibleMap)
      [odor; color; temp; turbidity; pH; DO; residualChlorine; headLoss;
       aeration; comment] in
  if negb hideSectionInputs && anyVisible then
    filter (λ k, card_shows visibleMap k = true)
      [odor; color; temp; turbidity; pH; DO; residualChlorine; headLoss;
       aeration; comment]
  else [].

(** The fields for which each point card of [PointSubsections] renders an
    input. *)
Definition PointSubsections_inputs (visibility : VisibilityEntry)
  : list FieldKey :=
  filter (λ k, card_shows (Some visibility) k = true)
    [odor; color; temp; turbidity; pH; DO; residualChlorine; headLoss;
     aeration].

(* ===================================================================== *)
(** ** The start-up self tests on the sheet *)
(* ===================================================================== *)

(** [rows.findIndex((r) => r[0] === t)]. *)
Definition find_first_cell (t : string) (rows : list Row) : option nat :=
  fst <$> list_find (λ r, head r = Some t) rows.

(** [hasOnlyPoints(label)] of the test
    "Aerobic sections have only point tables in sheet rows". *)
Definition hasOnlyPoints (rows : list Row) (lbl : string) : bool :=
  match find_first_cell (title lbl) rows with
  | None => true
  | Some start =>
      let block := rows_until_separator (drop (S start) rows) in
      match block with
      | [] => true
      | r :: _ => bool_decide (head r = Some "ポイント")
      end
  end.

Definition test_aerobic_only_points (rows : list Row) : bool :=
  hasOnlyPoints rows "好気性ろ床 上部"
  && hasOnlyPoints rows "好気性ろ床 下部・処理水".

(** The test "Free note appears in sheet rows". *)
Definition test_free_note (rows : list Row) : bool :=
  match find_first_cell "【自由記入 備考】" rows with
  | None => false
  | Some idx =>
      let r := default [] (rows !! S idx) in
      bool_decide (head r = Some "備考")
  end.

(** A form whose third point is labelled like the title of the lower
    bed. *)
Definition confusing_form : FormState :=
  {| header := header (makeInitialState "2024-05-01");
     sections := sections (makeInitialState "2024-05-01");
     points := ["NO.1-1"; "【好気性ろ床 下部・処理水】"; "NO.2-1"];
     pointData := ∅;
     visibility := visibility (makeInitialState "2024-05-01");
     extraNote := "" |}.

(** *** Sample data for the current slot *)

#[global] Instance StoredForm_eq_dec : EqDecision StoredForm.
Proof. solve_decision. Defined.

(** A serialiser of forms given by a finite table of texts. *)
Definition table_form_json (table : list (string * FormState)) : FormJson :=
  {| JSON_stringify_form f :=
       match list_find (λ p, p.2 = f) table with
       | Some (_, (text, _)) => text
       | None => "{}"
       end;
     JSON_parse_form text :=
       match list_find (λ p, p.1 = text) table with
       | Some (_, (_, f)) => Returned (as_stored f)
       | None => Thrown SyntaxError
       end |}.

Definition sample_form_json : FormJson :=
  table_form_json
    [ ("{form of 2024-05-01}", sample_form "2024-05-01" "");
      ("{form of 2024-05-01 again}", sample_form "2024-05-01" "again") ].

(** A store too small for the text of a form. *)
Definition tiny_browser : Browser :=
  {| available := true; items := ∅; quota := 10; alerts := [] |}.

(** An empty working store. *)
Definition empty_browser : Browser :=
  {| available := true; items := ∅; quota := 5000; alerts := [] |}.

(** A working store holding [sample_archive] and the form of
    2024-05-02. *)
Definition updated_browser : Browser :=
  {| available := true;
     items := {[ STORAGE_KEY_ARCHIVE := "{3 days, 2024-05-02}" ]};
     quota := 5000;
     alerts := [] |}.

(** The sample form with data the sheet does not show: a comment on the
    influent (a hidden field), a temperature typed into the upper bed
    itself, a reading for a point that is not listed and a residual
    chlorine reading (a hidden column) for a listed one. *)
Definition hidden_variant (d note : string) : FormState :=
  edit_point
    (edit_point
       (edit_section
          (edit_section (sample_form d note) influent {[ comment := "secret" ]})
          aerobic_upper {[ temp := "99" ]})
       aerobic_upper "NO.9-9" {[ odor := "微 臭" ]})
    aerobic_upper "NO.1-2" {[ residualChlorine := "0.3" ]}.

(* ===================================================================== *)
(** ** Proof tools *)
(* ===================================================================== *)

(** Case analysis on the eight bits of a code unit. *)
Ltac case_ascii a := destruct a as [[] [] [] [] [] [] [] []].

(** Settle a decidable statement about concrete data by evaluating its
    decision procedure. *)
Ltac decide_by_evaluation :=
  match goal with
  | |- ?P => apply (@bool_decide_unpack P _); vm_compute; exact I
  end.

(* ===================================================================== *)
(** * Properties *)
(* ===================================================================== *)

(** ** String primitives *)

Section StringFacts.
Import JsString.

Lemma append_String c (s t : string) : String c s +:+ t = String c (s +:+ t).
Proof. reflexivity. Qed.

Lemma append_empty_l (t : string) : "" +:+ t = t.
Proof. reflexivity. Qed.

Lemma append_empty_r (s : string) : s +:+ "" = s.
Proof.
  induction s as [|c s IH]; [done|].
  by rewrite append_String, IH.
Qed.

Lemma append_assoc_str (s t u : string) : (s +:+ t) +:+ u = s +:+ (t +:+ u).
Proof.
  induction s as [|c s IH]; [done|].
  by rewrite !append_String, IH.
Qed.

Lemma all_append p (s t : string) : all p (s +:+ t) = all p s && all p t.
Proof.
  induction s as [|c s IH]; [done|].
  rewrite append_String. simpl. by rewrite IH, andb_assoc.
Qed.

Lemma count_append c (s t : string) : count c (s +:+ t) = count c s + count c t.
Proof.
  induction s as [|d s IH]; [done|].
  rewrite append_String. simpl. rewrite IH. lia.
Qed.

Lemma remove_all_append cls (s t : string) :
  remove_all cls (s +:+ t) = remove_all cls s +:+ remove_all cls t.
Proof.
  induction s as [|c s IH]; [done|].
  rewrite append_String. simpl.
  destruct (cls c); [done|]. by rewrite append_String, IH.
Qed.

(** What survives a deletion is outside the deleted class. *)
Lemma all_remove_all cls (s : string) :
  all (λ c, negb (cls c)) (remove_all cls s) = true.
Proof.
  induction s as [|c s IH]; simpl; [done|].
  destruct (cls c) eqn:E; simpl; [done | by rewrite E].
Qed.

(** Deleting code units keeps every property of the remaining ones. *)
Lemma all_remove_all_mono p cls (s : string) :
  all p s = true → all p (remove_all cls s) = true.
Proof.
  induction s as [|c s IH]; simpl; [done|].
  intros [Hc Hs]%andb_true_iff.
  destruct (cls c); simpl; [auto | rewrite Hc; auto].
Qed.

Lemma count_remove_all_same c (s : string) :
  count c (remove_all (λ d, Ascii.eqb d c) s) = 0.
Proof.
  induction s as [|d s IH]; simpl; [done|].
  destruct (Ascii.eqb d c) eqn:E; simpl; [done | by rewrite E].
Qed.

Lemma count_remove_all_le c cls (s : string) :
  count c (remove_all cls s) ≤ count c s.
Proof.
  induction s as [|d s IH]; simpl; [done|].
  destruct (cls d); simpl; lia.
Qed.

(** Two deletions commute into one pass each. *)
Lemma remove_all_twice cls1 cls2 (s : string) :
  remove_all cls1 (remove_all cls2 s)
  = remove_all (λ c, cls2 c || cls1 c) s.
Proof.
  induction s as [|c s IH]; simpl; [done|].
  destruct (cls2 c); simpl; [done|].
  destruct (cls1 c); by rewrite IH.
Qed.

Lemma remove_all_ext cls1 cls2 (s : string) :
  (∀ c, cls1 c = cls2 c) → remove_all cls1 s = remove_all cls2 s.
Proof.
  intros E. induction s as [|c s IH]; simpl; [done|].
  by rewrite E, IH.
Qed.

End StringFacts.

(** ** The numeric input filter *)

Section SanitizeFacts.
Import JsString NumberField.

(** [split] cuts at every point: the parts hold no point, gluing them
    without the separators deletes the points, and keeping only the first
    separator keeps only the first point. *)
Lemma split_dot_spec (s : string) :
  ∃ p ps,
    split "." s = p :: ps
    ∧ remove_all is_dot s = join (p :: ps)
    ∧ s = p +:+ foldr (λ q acc, "." +:+ q +:+ acc) "" ps
    ∧ keep_first_dot s
      = match ps with [] => p | _ :: _ => p +:+ "." +:+ join ps end.
Proof.
  induction s as [|c s (p & ps & Hsplit & Hrm & Hs & Hk)].
  - exists "", []. by repeat split.
  - simpl. unfold is_dot in *. destruct (Ascii.eqb c ".") eqn:Hc.
    + apply Ascii.eqb_eq in Hc as ->.
      exists "", (p :: ps). rewrite Hsplit. repeat split.
      * by rewrite Hrm.
      * simpl. rewrite append_empty_l. cbn [foldr] in *.
        by rewrite <- Hs.
      * by rewrite Hrm.
    + exists (String c p), ps. rewrite Hsplit. repeat split.
      * rewrite Hrm. reflexivity.
      * rewrite append_String. by rewrite <- Hs.
      * rewrite Hk. by destruct ps.
Qed.

(** Joining after the first part is the source's way to keep one point. *)
Lemma collapse_dots_keep_first (v : string) :
  collapse_dots v = keep_first_dot v.
Proof.
  unfold collapse_dots.
  destruct (split_dot_spec v) as (p & ps & -> & _ & Hv & ->).
  destruct ps as [|q [|q' ps]]; simpl.
  - rewrite Hv. simpl. by rewrite append_empty_r.
  - rewrite Hv at 1. simpl. unfold join. simpl.
    by rewrite !append_empty_r.
  - reflexivity.
Qed.

Lemma keep_first_dot_all p (s : string) :
  all p s = true → all p (keep_first_dot s) = true.
Proof.
  induction s as [|c s IH]; simpl; [done|].
  intros [Hc Hs]%andb_true_iff.
  destruct (is_dot c); simpl; rewrite Hc; simpl;
    auto using all_remove_all_mono.
Qed.

Lemma keep_first_dot_one (s : string) : count "." (keep_first_dot s) ≤ 1.
Proof.
  induction s as [|c s IH]; simpl; [lia|].
  unfold is_dot in *. destruct (Ascii.eqb c ".") eqn:Hc; simpl; rewrite Hc.
  - rewrite (count_remove_all_same "." s). lia.
  - lia.
Qed.

Lemma keep_first_dot_count_other c (s : string) :
  is_dot c = false → count c (keep_first_dot s) = count c s.
Proof.
  intros Hc. induction s as [|d s IH]; simpl; [done|].
  destruct (is_dot d) eqn:Hd; simpl; [|by rewrite IH].
  f_equal. clear IH. induction s as [|e s IH]; simpl; [done|].
  destruct (is_dot e) eqn:He; simpl; [|by rewrite IH].
  unfold is_dot in *. apply Ascii.eqb_eq in He as ->.
  rewrite Ascii.eqb_sym, Hc. exact IH.
Qed.

(** Deleting points and deleting the later points leave the same digits. *)
Lemma keep_first_dot_digits (s : string) :
  remove_all (λ c, negb (is_digit c)) (keep_first_dot s)
  = remove_all (λ c, negb (is_digit c)) s.
Proof.
  induction s as [|c s IH]; simpl; [done|].
  destruct (is_dot c) eqn:Hc; simpl.
  - f_equal. destruct (negb (is_digit c)); [|f_equal];
      (rewrite remove_all_twice; apply remove_all_ext; intros d;
       unfold is_dot, is_digit; destruct (Ascii.eqb d ".") eqn:Hd; [|done];
       by apply Ascii.eqb_eq in Hd as ->).
  - by rewrite IH.
Qed.

Lemma remove_minus_digits (s : string) :
  remove_all (λ c, negb (is_digit c)) (remove_all is_minus s)
  = remove_all (λ c, negb (is_digit c)) s.
Proof.
  rewrite remove_all_twice. apply remove_all_ext. intros d.
  unfold is_minus, is_digit. destruct (Ascii.eqb d "-") eqn:Hd; [|done].
  by apply Ascii.eqb_eq in Hd as ->.
Qed.

Lemma remove_disallowed_digits (s : string) :
  remove_all (λ c, negb (is_digit c)) (remove_all (λ c, negb (allowed c)) s)
  = remove_all (λ c, negb (is_digit c)) s.
Proof.
  rewrite remove_all_twice. apply remove_all_ext. intros d.
  unfold allowed. by destruct (is_digit d), (is_dot d), (is_minus d).
Qed.

(** The source's three replacements compute the filter the
    specification describes. *)
Lemma sanitize_refines (allowNegative : bool) (raw : string) :
  sanitize allowNegative raw = sanitize_spec allowNegative raw.
Proof.
  unfold sanitize, sanitize_spec. rewrite collapse_dots_keep_first.
  destruct allowNegative; simpl; [|done].
  destruct (remove_all _ raw) as [|c kept]; [done|].
  simpl. destruct (is_minus c) eqn:Hc.
  - unfold is_minus in Hc. apply Ascii.eqb_eq in Hc as ->. reflexivity.
  - rewrite append_empty_l. reflexivity.
Qed.

End SanitizeFacts.

Section SanitizeTheorem.
Import JsString NumberField.

Lemma sanitize_spec_no_inner_minus (s : string) :
  count "-" (keep_first_dot (remove_all is_minus s)) = 0.
Proof.
  rewrite keep_first_dot_count_other by done.
  apply (count_remove_all_same "-").
Qed.

Lemma allowed_after_filter (raw : string) :
  all allowed (remove_all (λ c, negb (allowed c)) raw) = true.
Proof.
  rewrite <- (all_remove_all (λ c, negb (allowed c)) raw) at 1.
  generalize (remove_all (λ c, negb (allowed c)) raw). intros s.
  induction s as [|c s IH]; simpl; [done|].
  by rewrite negb_involutive, IH.
Qed.

(** C8. For every raw input, [sanitize] computes the filter the
    specification describes ([sanitize_spec]): its output holds only
    digits, points and minus signs; the digits of the input are all kept,
    in order; at most one point remains (the first one); without
    [allowNegative] no minus sign remains, with it a minus sign remains at
    most in leading position; and ["12.3.4abc"] becomes ["12.34"]. *)
Theorem sanitize_filters (allowNegative : bool) (raw : string) :
  let out := sanitize allowNegative raw in
  out = sanitize_spec allowNegative raw
  ∧ all allowed out = true
  ∧ remove_all (λ c, negb (is_digit c)) out
    = remove_all (λ c, negb (is_digit c)) raw
  ∧ count "." out ≤ 1
  ∧ (if allowNegative then minus_only_leading out = true
     else count "-" out = 0)
  ∧ sanitize false "12.3.4abc" = "12.34".
Proof.
  intros out. subst out. rewrite sanitize_refines. unfold sanitize_spec.
  set (kept := remove_all (λ c, negb (allowed c)) raw).
  set (body := keep_first_dot (remove_all is_minus kept)).
  assert (Hbody : all allowed body = true).
  { apply keep_first_dot_all, all_remove_all_mono, allowed_after_filter. }
  assert (Hminus : count "-" body = 0) by apply sanitize_spec_no_inner_minus.
  assert (Hdot : count "." body ≤ 1) by apply keep_first_dot_one.
  assert (Hdig : remove_all (λ c, negb (is_digit c)) body
                 = remove_all (λ c, negb (is_digit c)) raw).
  { unfold body, kept.
    by rewrite keep_first_dot_digits, remove_minus_digits,
      remove_disallowed_digits. }
  split; [done|].
  destruct (allowNegative && leading_minus kept) eqn:Hsign.
  - rewrite append_String, append_empty_l. simpl.
    apply andb_true_iff in Hsign as [-> _].
    rewrite Hbody, Hdig, Hminus. by split_and!.
  - rewrite append_empty_l, Hbody, Hdig. split_and!; try done.
    destruct allowNegative; [|done].
    destruct body as [|c rest]; [done|]. simpl in *.
    apply Nat.eqb_eq. lia.
Qed.

End SanitizeTheorem.

(** ** The point label display transform *)

(** C9. [displayPointLabel] rewrites a leading ["NO."] to ["No."] and
    leaves the rest of the label as it is, also when ["NO."] occurs again
    later; a label that does not start with ["NO."] (in this exact case) is
    returned unchanged. *)
Theorem displayPointLabel_anchored :
  (∀ rest, displayPointLabel ("NO." +:+ rest) = "No." +:+ rest)
  ∧ (∀ lbl, if starts_with_NO lbl
             then ∃ rest, lbl = "NO." +:+ rest
                          ∧ displayPointLabel lbl = "No." +:+ rest
             else displayPointLabel lbl = lbl)
  ∧ displayPointLabel "NO.1-1" = "No.1-1"
  ∧ displayPointLabel "XNO.1" = "XNO.1"
  ∧ displayPointLabel "no.1" = "no.1"
  ∧ displayPointLabel "NO.NO.1" = "No.NO.1".
Proof.
  split; [done|]. split; [|done].
  intros lbl. unfold starts_with_NO.
  destruct lbl as [|a [|b [|c rest]]]; [done|..].
  - by case_ascii a.
  - case_ascii a; try done. by case_ascii b.
  - case_ascii a; try done.
    case_ascii b; try done.
    case_ascii c; try done.
    destruct rest as [|d rest]; simpl; by eexists.
Qed.

(** ** Visibility normalisation *)

Section VisibilityFacts.

(** The stage entry of the normalised map: the input entry over the
    default entry, with the two forced flags for the point stages. *)
Lemma patchedVisibility_stage (vis : option VisibilityMap) (s : SectionKey) :
  patchedVisibility vis !! s
  = Some (let e := spread (DEFAULT_VISIBILITY !!! s) (stage_entry vis s) in
          if bool_decide (s ∈ POINT_SECTIONS)
          then <[color := true]> (<[odor := true]> e) else e).
Proof.
  unfold patchedVisibility, force_odor_color. cbn [map fold_left list_to_map foldr].
  destruct s; cbn [fst snd]; simplify_map_eq; reflexivity.
Qed.

(** Every default entry lists all ten fields. *)
Lemma DEFAULT_VISIBILITY_total (s : SectionKey) (k : FieldKey) :
  (DEFAULT_VISIBILITY !!! s) !! k = Some (default_flag s k).
Proof. by destruct s, k. Qed.

(** The flag of every field after normalisation. *)
Lemma normalised_flag (vis : option VisibilityMap)
    (s : SectionKey) (k : FieldKey) :
  flag (patchedVisibility vis) s k
  = Some (if forced_visible s k then true
          else default (default_flag s k) (input_flag vis s k)).
Proof.
  unfold flag, input_flag. rewrite patchedVisibility_stage. cbn [mbind option_bind].
  assert (Hspread : spread (DEFAULT_VISIBILITY !!! s) (stage_entry vis s) !! k
                    = Some (default (default_flag s k) (stage_entry vis s !! k))).
  { unfold spread. rewrite lookup_union, DEFAULT_VISIBILITY_total.
    by destruct (stage_entry vis s !! k). }
  unfold forced_visible.
  destruct (bool_decide (s ∈ POINT_SECTIONS)); cbn [andb]; [|done].
  destruct (decide (k = color)) as [->|Hc]; [by rewrite lookup_insert_eq|].
  rewrite lookup_insert_ne by done.
  destruct (decide (k = odor)) as [->|Ho]; [by rewrite lookup_insert_eq|].
  rewrite lookup_insert_ne by done.
  rewrite Hspread. by destruct k.
Qed.

(** Two maps with an entry for every stage and the same flags are equal. *)
Lemma visibility_map_eq (m1 m2 : VisibilityMap) :
  (∀ s, is_Some (m1 !! s)) → (∀ s, is_Some (m2 !! s)) →
  (∀ s k, flag m1 s k = flag m2 s k) → m1 = m2.
Proof.
  intros H1 H2 Hflag. apply map_eq. intros s.
  destruct (H1 s) as [e1 He1], (H2 s) as [e2 He2]. rewrite He1, He2.
  f_equal. apply map_eq. intros k.
  specialize (Hflag s k). unfold flag in Hflag.
  by rewrite He1, He2 in Hflag.
Qed.

Lemma input_flag_Some (m : VisibilityMap) (s : SectionKey) (k : FieldKey) :
  is_Some (m !! s) → input_flag (Some m) s k = flag m s k.
Proof.
  intros [e He]. unfold input_flag, stage_entry, flag. simpl. by rewrite He.
Qed.

End VisibilityFacts.

(** C3 (as the code has it). The normalised map has a flag for each of the
    4 stages x 10 fields.  The flag is [true] for odor and color of the two
    point stages; otherwise it is the flag the input gives, and, when the
    input gives none, the flag of [DEFAULT_VISIBILITY], which is [false]
    for residualChlorine, headLoss, aeration and comment except for
    headLoss of the upper bed, aeration of the lower bed and
    residualChlorine of the effluent. *)
Theorem patchedVisibility_flags (vis : option VisibilityMap)
    (s : SectionKey) (k : FieldKey) :
  flag (patchedVisibility vis) s k
  = Some (if forced_visible s k then true
          else match input_flag vis s k with
               | Some b => b
               | None => default_flag s k
               end)
  ∧ default_flag s k
    = match k with
      | residualChlorine => bool_decide (s = effluent)
      | headLoss => bool_decide (s = aerobic_upper)
      | aeration => bool_decide (s = aerobic_lower)
      | comment => false
      | _ => true
      end.
Proof.
  split.
  - rewrite normalised_flag. by destruct (input_flag vis s k).
  - by destruct s, k.
Qed.

(** C3, as stated, fails: with no input at all the residual chlorine flag
    of the influent is not set to [false] by the input, and it is [false]
    after normalisation. *)
Lemma patchedVisibility_absent_is_default :
  input_flag None influent residualChlorine = None
  ∧ flag (patchedVisibility None) influent residualChlorine = Some false.
Proof. split; reflexivity. Qed.

(** C4. Normalising a normalised map changes nothing, and odor and color
    of both point stages are visible after normalisation whatever the
    input says. *)
Theorem patchedVisibility_idempotent (vis : option VisibilityMap) :
  patchedVisibility (Some (patchedVisibility vis)) = patchedVisibility vis
  ∧ flag (patchedVisibility vis) aerobic_upper odor = Some true
  ∧ flag (patchedVisibility vis) aerobic_upper color = Some true
  ∧ flag (patchedVisibility vis) aerobic_lower odor = Some true
  ∧ flag (patchedVisibility vis) aerobic_lower color = Some true.
Proof.
  split; [|by rewrite !normalised_flag].
  apply visibility_map_eq.
  - intros s. rewrite patchedVisibility_stage. eauto.
  - intros s. rewrite patchedVisibility_stage. eauto.
  - intros s k. rewrite (normalised_flag (Some _)).
    rewrite input_flag_Some by (rewrite patchedVisibility_stage; eauto).
    rewrite normalised_flag.
    by destruct (forced_visible s k).
Qed.

(** ** The row projector *)

Section SheetFacts.

Lemma fold_push_field (s : SectionForm) (vis : VisibilityEntry)
    (ks : list FieldKey) (rows : list Row) :
  fold_left (push_field s vis) ks rows
  = rows ++ map (λ c, [FIELD_LABEL c; JsString.or_empty (s !! c)])
                (filter (λ c, isFieldVisible vis c = true) ks).
Proof.
  revert rows. induction ks as [|k ks IH]; intros rows; simpl.
  - by rewrite app_nil_r.
  - rewrite IH. unfold push_field, push. rewrite filter_cons.
    destruct (decide (isFieldVisible vis k = true)) as [Hk|Hk].
    + rewrite Hk. simpl. by rewrite <- app_assoc.
    + apply not_true_is_false in Hk. by rewrite Hk.
Qed.

Lemma fold_push_point (pd : PointDataMap) (cols : list FieldKey)
    (pts : list string) (rows : list Row) :
  fold_left (push_point pd cols) pts rows
  = rows ++ map (λ lbl, displayPointLabel lbl
                        :: map (λ k, default "" (default ∅ (pd !! lbl) !! k)) cols)
                pts.
Proof.
  revert rows. induction pts as [|p pts IH]; intros rows; simpl.
  - by rewrite app_nil_r.
  - rewrite IH. unfold push_point, push. by rewrite <- app_assoc.
Qed.

Lemma isAerobic_point_section (k : SectionKey) :
  bool_decide (k = aerobic_upper) || bool_decide (k = aerobic_lower)
  = bool_decide (k ∈ POINT_SECTIONS).
Proof. by destruct k. Qed.

(** One pass of the loop over [SECTION_DEFS] appends the block of the
    stage. *)
Lemma push_section_block (f : FormState) (rows : list Row) (def : SectionDef) :
  push_section f rows def = rows ++ stage_block f def.
Proof.
  unfold push_section, stage_block, stage_content.
  rewrite isAerobic_point_section. cbv zeta.
  fold (stage_visibility f (key def)). fold (visible_columns f (key def)).
  destruct (bool_decide (key def ∈ POINT_SECTIONS)) eqn:Hp; cbn [negb].
  - unfold point_table, point_header, point_row, point_record.
    destruct (visible_columns f (key def)) as [|c cols] eqn:Hcols.
    + unfold push, separator. cbn [length Nat.ltb Nat.leb app].
      by rewrite <- app_assoc.
    + cbn [length Nat.ltb Nat.leb]. rewrite fold_push_point.
      unfold push, separator. rewrite <- !app_assoc. reflexivity.
  - rewrite fold_push_field. unfold field_rows, push, separator.
    rewrite <- !app_assoc. reflexivity.
Qed.

(** Content rows have a label cell and at least one more cell, so none of
    them is a title row or a blank row. *)
Lemma stage_content_wide (f : FormState) (k : SectionKey) :
  Forall (λ r : Row, 2 ≤ length r) (stage_content f k).
Proof.
  unfold stage_content. destruct (bool_decide (k ∈ POINT_SECTIONS)).
  - unfold point_table, point_header, point_row.
    destruct (visible_columns f k) as [|c cols]; [constructor|].
    constructor; [simpl; lia|].
    apply Forall_forall. intros r [lbl [-> _]]%list_elem_of_fmap. simpl. lia.
  - unfold field_rows. apply Forall_forall.
    intros r [c [-> _]]%list_elem_of_fmap. simpl. lia.
Qed.

Lemma or_blank_id (s : string) : or_blank s = s.
Proof.
  unfold or_blank. destruct (String.eqb s "") eqn:E; [|done].
  by apply String.eqb_eq in E.
Qed.

Lemma toSheetRows_blocks (f : FormState) :
  toSheetRows f
  = header_rows (header f) ++ [separator]
    ++ concat (map (stage_block f) SECTION_DEFS) ++ note_block f.
Proof.
  unfold toSheetRows, SECTION_DEFS. cbn [fold_left].
  rewrite !push_section_block.
  unfold push, note_block, header_rows, separator.
  cbn [map concat app]. rewrite app_nil_r, <- !app_assoc. reflexivity.
Qed.

Lemma block_after_skip (t : Row) (pre rest : list Row) :
  Forall (λ r, r ≠ t) pre → block_after t (pre ++ rest) = block_after t rest.
Proof.
  induction 1 as [|r pre Hr _ IH]; simpl; [done|].
  by rewrite bool_decide_eq_false_2.
Qed.

Lemma block_after_here (t : Row) (rest : list Row) :
  block_after t (t :: rest) = rows_until_separator rest.
Proof. simpl. by rewrite bool_decide_eq_true_2. Qed.

Lemma rows_until_separator_block (content post : list Row) :
  Forall (λ r : Row, 2 ≤ length r) content →
  rows_until_separator (content ++ separator :: post) = content.
Proof.
  induction 1 as [|r content Hr _ IH]; simpl; [done|].
  rewrite IH. destruct r as [|c [|d r]]; simpl in *; [lia | lia | done].
Qed.

(** A block never holds the title row of another stage. *)
Lemma stage_block_other_title (f : FormState) (def : SectionDef) (c : string) :
  c ≠ title (label def) → c ≠ "" →
  Forall (λ r, r ≠ [c]) (stage_block f def).
Proof.
  intros Ht Hs. unfold stage_block. constructor; [congruence|].
  apply Forall_app. split.
  - eapply Forall_impl; [apply stage_content_wide|].
    intros r Hr ->. simpl in Hr. lia.
  - constructor; [|constructor]. unfold separator. congruence.
Qed.

Lemma header_rows_no_title (h : HeaderForm) (c : string) :
  Forall (λ r, r ≠ [c]) (header_rows h).
Proof. unfold header_rows. repeat constructor; discriminate. Qed.

(** The block of a stage, read back from the sheet, is its content. *)
Lemma stage_rows_in_content (f : FormState) (k : SectionKey) :
  stage_rows_in k (toSheetRows f) = stage_content f k.
Proof.
  unfold stage_rows_in. rewrite toSheetRows_blocks.
  rewrite block_after_skip by apply header_rows_no_title.
  assert (Hsep : ∀ c rest, c ≠ "" →
            block_after [c] ([separator] ++ rest) = block_after [c] rest).
  { intros c rest Hc. apply block_after_skip.
    constructor; [|constructor]. unfold separator. congruence. }
  assert (Hhere : ∀ def post,
            block_after [title (label def)] (stage_block f def ++ post)
            = stage_content f (key def)).
  { intros def post. unfold stage_block. cbn [app].
    rewrite block_after_here, <- app_assoc.
    apply rows_until_separator_block, stage_content_wide. }
  unfold SECTION_DEFS. cbn [map concat].
  destruct k; cbn [stage_label]; rewrite Hsep by done;
    repeat first
      [ rewrite <- app_assoc
      | apply (Hhere {| key := influent; label := "流入水" |})
      | apply (Hhere {| key := aerobic_upper; label := "好気性ろ床 上部" |})
      | apply (Hhere {| key := aerobic_lower;
                        label := "好気性ろ床 下部・処理水" |})
      | apply (Hhere {| key := effluent; label := "放流水" |})
      | rewrite block_after_skip
          by (apply stage_block_other_title; by compute) ].
Qed.

End SheetFacts.

(** C1. The sheet of every form state is: the ten header rows in their
    fixed order, a blank row; then, for each stage in declaration order, a
    single-cell title row, the content rows of the stage and one blank row;
    then the title row of the free note, the note row and a final blank
    row.  Content rows have at least two cells, so the blank row closing a
    block is the only one in it. *)
Theorem toSheetRows_layout (f : FormState) :
  toSheetRows f
  = [ ["日付"; date (header f)];
      ["曜日"; weekday (header f)];
      ["天候"; weather (header f)];
      ["外気温(℃)"; airTemp (header f)];
      ["初沈界面 NO.1(m)"; primarySettlingNo1 (header f)];
      ["初沈界面 NO.2(m)"; primarySettlingNo2 (header f)];
      ["PAC残量(㎥)"; pacRemaining (header f)];
      ["脱離液 pH"; elutionPH (header f)];
      ["脱離液 水温(℃)"; elutionTemp (header f)];
      ["含水率(%)"; waterContent (header f)];
      [""] ]
    ++ (["【流入水】"] :: stage_content f influent ++ [[""]])
    ++ (["【好気性ろ床 上部】"] :: stage_content f aerobic_upper ++ [[""]])
    ++ (["【好気性ろ床 下部・処理水】"]
          :: stage_content f aerobic_lower ++ [[""]])
    ++ (["【放流水】"] :: stage_content f effluent ++ [[""]])
    ++ [ ["【自由記入 備考】"]; ["備考"; extraNote f]; [""] ]
  ∧ (∀ k, Forall (λ r : Row, 2 ≤ length r) (stage_content f k))
  ∧ (∀ k, stage_rows_in k (toSheetRows f) = stage_content f k)
  ∧ toSheetRows f !! 0 = Some ["日付"; date (header f)]
  ∧ toSheetRows f !! 1 = Some ["曜日"; weekday (header f)].
Proof.
  split_and!.
  - rewrite toSheetRows_blocks.
    unfold header_rows, note_block, SECTION_DEFS, stage_block, separator.
    cbn [map concat key label]. rewrite or_blank_id, app_nil_r.
    rewrite <- !app_assoc. reflexivity.
  - apply stage_content_wide.
  - apply stage_rows_in_content.
  - by rewrite toSheetRows_blocks.
  - by rewrite toSheetRows_blocks.
Qed.

(** C2. In the sheet of every form state, the block of a point stage (the
    rows between its title row and the next blank row) is empty when no
    point column is visible; otherwise it is the row of ["ポイント"] and the
    labels of the visible point columns, followed by one row per entry of
    [points], in order, made of the displayed label and the values stored
    for that point in the visible columns (the empty string where nothing is
    stored).  [comment] is never a point column, and the block does not
    depend on the direct section fields. *)
Theorem point_stage_rows (f : FormState) (k : SectionKey) :
  k ∈ POINT_SECTIONS →
  let cols := visible_columns f k in
  stage_rows_in k (toSheetRows f)
  = match cols with
    | [] => []
    | _ :: _ =>
        ("ポイント" :: map FIELD_LABEL cols)
        :: map (λ lbl,
                  displayPointLabel lbl
                  :: map (λ c, default "" (point_record f k lbl !! c)) cols)
               (points f)
    end
  ∧ cols = filter (λ c, isFieldVisible (default ∅ (visibility f !! k)) c = true)
                  [odor; color; temp; turbidity; pH; DO; residualChlorine;
                   headLoss; aeration]
  ∧ (∀ s', stage_rows_in k (toSheetRows (with_sections f s'))
           = stage_rows_in k (toSheetRows f)).
Proof.
  intros Hk cols.
  assert (Hblock : ∀ g, stage_rows_in k (toSheetRows g) = point_table g k).
  { intros g. rewrite stage_rows_in_content. unfold stage_content.
    by rewrite bool_decide_eq_true_2. }
  split_and!.
  - rewrite Hblock. unfold point_table, point_header, point_row.
    fold cols. by destruct cols.
  - reflexivity.
  - intros s'. by rewrite !Hblock.
Qed.

(** The block of the upper bed in the sheet of a sample form. *)
Lemma point_stage_rows_witness :
  aerobic_upper ∈ POINT_SECTIONS
  ∧ stage_rows_in aerobic_upper (toSheetRows (sample_form "2024-05-01" ""))
    = [ ["ポイント"; "臭気"; "色相"; "水温(℃)"; "透視度"; "pH"; "DO(mg/L)";
         "ろ抗高"];
        ["No.1-1"; ""; ""; ""; ""; ""; ""; ""];
        ["No.1-2"; "微 臭"; ""; ""; ""; "7.1"; ""; ""];
        ["No.2-1"; ""; ""; ""; ""; ""; ""; ""];
        ["No.2-2"; ""; ""; ""; ""; ""; ""; ""] ].
Proof.
  assert (Hk : aerobic_upper ∈ POINT_SECTIONS) by (by left).
  split; [exact Hk|].
  destruct (point_stage_rows (sample_form "2024-05-01" "") aerobic_upper Hk)
    as (Hrows & _).
  rewrite Hrows. vm_compute. reflexivity.
Defined.

(** C10. The values of a point row are read from [pointData] under the
    label as [points] holds it, and only the first cell shows the
    transformed label: the row of a point whose original label has no entry
    in the stage's point data is blank in every visible column, whatever is
    stored under any other key (the transformed label included). *)
Theorem point_row_uses_original_label (f : FormState) (k : SectionKey)
    (i : nat) (lbl : string) :
  k ∈ POINT_SECTIONS →
  visible_columns f k ≠ [] →
  points f !! i = Some lbl →
  stage_rows_in k (toSheetRows f) !! S i
  = Some (displayPointLabel lbl
          :: map (λ c, default ""
                         (default ∅ (default ∅ (pointData f !! k) !! lbl) !! c))
                 (visible_columns f k))
  ∧ (default ∅ (pointData f !! k) !! lbl = None →
     stage_rows_in k (toSheetRows f) !! S i
     = Some (displayPointLabel lbl :: map (λ _, "") (visible_columns f k))).
Proof.
  intros Hk Hcols Hi.
  assert (Hrow : stage_rows_in k (toSheetRows f) !! S i
                 = Some (point_row f k lbl)).
  { rewrite stage_rows_in_content. unfold stage_content.
    rewrite bool_decide_eq_true_2 by done. unfold point_table.
    destruct (visible_columns f k); [done|].
    change (map (point_row f k) (points f) !! i
            = Some (point_row f k lbl)).
    change (map (point_row f k) (points f))
      with (point_row f k <$> points f).
    by rewrite list_lookup_fmap, Hi. }
  split; [exact Hrow|].
  intros Hnone. rewrite Hrow. unfold point_row, point_record.
  rewrite Hnone. reflexivity.
Qed.

(** The sample form stores a reading under ["No.1-1"] and none under
    ["NO.1-1"]: the row shown as ["No.1-1"] is blank. *)
Lemma point_row_uses_original_label_witness :
  let f := sample_form "2024-05-01" "" in
  aerobic_upper ∈ POINT_SECTIONS
  ∧ visible_columns f aerobic_upper ≠ []
  ∧ points f !! 0 = Some "NO.1-1"
  ∧ default ∅ (pointData f !! aerobic_upper) !! "NO.1-1" = None
  ∧ default ∅ (pointData f !! aerobic_upper) !! displayPointLabel "NO.1-1"
    = Some {[ odor := "微下水臭" ]}
  ∧ stage_rows_in aerobic_upper (toSheetRows f) !! 1
    = Some ["No.1-1"; ""; ""; ""; ""; ""; ""; ""].
Proof.
  intros f.
  assert (Hk : aerobic_upper ∈ POINT_SECTIONS) by (by left).
  assert (Hcols : visible_columns f aerobic_upper ≠ []) by (by vm_compute).
  assert (Hi : points f !! 0 = Some "NO.1-1") by reflexivity.
  assert (Hnone : default ∅ (pointData f !! aerobic_upper) !! "NO.1-1" = None)
    by (vm_compute; reflexivity).
  split_and!; [exact Hk | exact Hcols | exact Hi | exact Hnone
               | vm_compute; reflexivity |].
  destruct (point_row_uses_original_label f aerobic_upper 0 "NO.1-1"
              Hk Hcols Hi) as (_ & Hblank).
  rewrite (Hblank Hnone). vm_compute. reflexivity.
Defined.



(** ** The archive *)

Section ArchiveFacts.

Variable json : Json.

(** [readArchive] as a total function of the browser state. *)
Lemma readArchive_eq (st : Browser) :
  readArchive json st
  = (Returned
       (if available st then
          match items st !! STORAGE_KEY_ARCHIVE with
          | Some text =>
              if String.eqb text "" then JsObject ∅
              else match JSON_parse json text with
                   | Returned a => a
                   | Thrown _ => JsObject ∅
                   end
          | None => JsObject ∅
          end
        else JsObject ∅), st).
Proof.
  unfold readArchive, try_catch, mbind, M_bind, getItem, mret, M_ret.
  destruct (available st); [|done].
  destruct (items st !! STORAGE_KEY_ARCHIVE) as [text|]; [|done].
  destruct (String.eqb text ""); [done|].
  by destruct (JSON_parse json text).
Qed.

(** [writeArchive] as a total function of the browser state. *)
Lemma writeArchive_eq (a : JsArchive) (st : Browser) :
  writeArchive json a st
  = (Returned (),
     let items' := <[STORAGE_KEY_ARCHIVE := JSON_stringify json a]> (items st) in
     if available st && (used items' <=? quota st)
     then {| available := available st; items := items';
             quota := quota st; alerts := alerts st |}
     else st).
Proof.
  unfold writeArchive, try_catch, setItem, mret, M_ret. cbv zeta.
  destruct (available st); [|done]. simpl.
  by destruct (used _ <=? quota st).
Qed.

Lemma archive_value_eq (st : Browser) :
  readArchive json st = (Returned (archive_value json st), st).
Proof. unfold archive_value. by rewrite readArchive_eq. Qed.

(** What is read depends on the access to the store and on the archive
    slot only. *)
Lemma archive_value_ext (st st' : Browser) :
  available st' = available st →
  items st' !! STORAGE_KEY_ARCHIVE = items st !! STORAGE_KEY_ARCHIVE →
  archive_value json st' = archive_value json st.
Proof.
  intros Hav Hslot. unfold archive_value.
  by rewrite !readArchive_eq, Hav, Hslot.
Qed.

(** After an accepted write the value read back is what the parser makes
    of the written text. *)
Lemma archive_value_written (a : JsArchive) (st : Browser) :
  JSON_round_trip json →
  available st = true →
  used (<[STORAGE_KEY_ARCHIVE := JSON_stringify json a]> (items st)) ≤ quota st →
  archive_value json (snd (writeArchive json a st)) = a.
Proof.
  intros Hlaw Hav Hq. destruct (Hlaw a) as [Hne Hparse].
  rewrite writeArchive_eq. cbv zeta. cbn [snd].
  rewrite Hav, (proj2 (Nat.leb_le _ _) Hq). cbn [andb].
  unfold archive_value. rewrite readArchive_eq. cbn [fst available items].
  rewrite lookup_insert_eq.
  destruct (String.eqb _ "") eqn:E; [by apply String.eqb_eq in E|].
  by rewrite Hparse.
Qed.

(** [alert] leaves the archive as it is. *)
Lemma archive_value_alerts (st : Browser) (msgs : list string) :
  archive_value json {| available := available st; items := items st;
                        quota := quota st; alerts := msgs |}
  = archive_value json st.
Proof. by apply archive_value_ext. Qed.

Lemma onLoad_eq (d : string) (st : Browser) :
  onLoad json d st = (js_get (archive_value json st) d, st).
Proof.
  unfold onLoad, mbind, M_bind, pure_call. rewrite archive_value_eq.
  by destruct (js_get (archive_value json st) d).
Qed.

Lemma onSave_eq (s : FormState) (st : Browser) :
  onSave json s st
  = match js_set (archive_value json st) (date (header s)) s with
    | Returned a =>
        alert "この日付の点検結果を保存しました" (snd (writeArchive json a st))
    | Thrown e => (Thrown e, st)
    end.
Proof.
  unfold onSave, mbind, M_bind, pure_call. rewrite archive_value_eq.
  destruct (js_set (archive_value json st) (date (header s)) s); [|done].
  by rewrite writeArchive_eq.
Qed.

(** Assigning under any key but a fresh [__proto__] stores the form. *)
Lemma set_property_insert (a : ArchiveMap) (k : string) (f : FormState) :
  k ≠ "__proto__" → set_property a k f = <[k := f]> a.
Proof.
  intros Hk. unfold set_property.
  by rewrite (bool_decide_eq_false_2 _ Hk).
Qed.

Lemma get_property_own (a : ArchiveMap) (k : string) (f : FormState) :
  a !! k = Some f → get_property a k = Some (Snapshot f).
Proof. unfold get_property. by intros ->. Qed.

End ArchiveFacts.

(** C7. Neither archive operation lets an exception out or shows a
    message.  [readArchive] always returns, leaving the browser as it was,
    and it returns the empty map when the store cannot be accessed or holds
    text that does not parse.  [writeArchive] always returns, with the
    messages as they were, and leaves the whole browser state as it was
    when the store cannot be accessed or rejects the write. *)
Theorem archive_storage_never_throws (json : Json) (st : Browser)
    (a : JsArchive) :
  (∃ r, readArchive json st = (Returned r, st))
  ∧ (store_unavailable st ∨ payload_malformed json st →
     readArchive json st = (Returned (JsObject ∅), st))
  ∧ (∃ st', writeArchive json a st = (Returned (), st')
            ∧ alerts st' = alerts st)
  ∧ (store_unavailable st ∨ write_rejected json a st →
     writeArchive json a st = (Returned (), st)).
Proof.
  split_and!.
  - eexists. apply readArchive_eq.
  - rewrite readArchive_eq.
    intros [Hun | (text & e & Htext & Hparse)].
    + unfold store_unavailable in Hun. by rewrite Hun.
    + rewrite Htext, Hparse. by repeat case_match.
  - eexists. split; [apply writeArchive_eq|].
    cbv zeta. by case_match.
  - rewrite writeArchive_eq. cbv zeta.
    intros [Hun | Hrej].
    + unfold store_unavailable in Hun. by rewrite Hun.
    + unfold write_rejected in Hrej.
      apply Nat.leb_gt in Hrej. rewrite Hrej. by rewrite andb_false_r.
Qed.

(** The three failures of C7 on concrete browsers. *)
Lemma archive_storage_never_throws_witness :
  (store_unavailable blocked_browser
   ∧ readArchive sample_json blocked_browser
     = (Returned (JsObject ∅), blocked_browser)
   ∧ writeArchive sample_json (JsObject updated_archive) blocked_browser
     = (Returned (), blocked_browser))
  ∧ (payload_malformed sample_json corrupt_browser
     ∧ readArchive sample_json corrupt_browser
       = (Returned (JsObject ∅), corrupt_browser))
  ∧ (write_rejected sample_json (JsObject updated_archive) full_browser
     ∧ writeArchive sample_json (JsObject updated_archive) full_browser
       = (Returned (), full_browser)).
Proof.
  assert (Hun : store_unavailable blocked_browser) by reflexivity.
  assert (Hbad : payload_malformed sample_json corrupt_browser).
  { exists "{oops", SyntaxError. split; reflexivity. }
  assert (Hrej : write_rejected sample_json (JsObject updated_archive)
                   full_browser).
  { unfold write_rejected. vm_compute. lia. }
  split_and!.
  - exact Hun.
  - apply (archive_storage_never_throws sample_json blocked_browser
             (JsObject ∅)).
    by left.
  - apply (archive_storage_never_throws sample_json blocked_browser
             (JsObject updated_archive)). by left.
  - exact Hbad.
  - apply (archive_storage_never_throws sample_json corrupt_browser
             (JsObject ∅)).
    by right.
  - exact Hrej.
  - apply (archive_storage_never_throws sample_json full_browser
             (JsObject updated_archive)). by right.
Defined.

(** *** The sample serialiser obeys the law of the platform *)

Section SampleSerialiser.

Lemma pos_of_bits_of_pos (p : positive) : pos_of_bits (bits_of_pos p) = Some p.
Proof. induction p as [p IH|p IH|]; simpl; rewrite ?IH; done. Qed.

Lemma table_json_round_trip (table : list (string * JsArchive)) :
  NoDup table.*1 →
  Forall (λ p, listed_text p.1 = true) table →
  JSON_round_trip (table_json table).
Proof.
  intros Hnd Hok v. unfold table_json. cbn [JSON_stringify JSON_parse].
  rewrite Forall_lookup in Hok.
  destruct (list_find (λ p, p.2 = v) table) as [[i [t w]]|] eqn:Hfind.
  - apply list_find_Some in Hfind as (Hi & Hw & _). simpl in Hw. subst w.
    pose proof (Hok _ _ Hi) as Ht. simpl in Ht.
    split; [by intros -> |].
    destruct (list_find (λ p, p.1 = t) table) as [[j [t' w]]|] eqn:Hfind'.
    + apply list_find_Some in Hfind' as (Hj & Ht' & _). simpl in Ht'. subst t'.
      assert (i = j) as <-.
      { eapply NoDup_lookup; [exact Hnd | |].
        - by rewrite list_lookup_fmap, Hi.
        - by rewrite list_lookup_fmap, Hj. }
      rewrite Hi in Hj. by injection Hj as <-.
    + apply list_find_None in Hfind'. rewrite Forall_lookup in Hfind'.
      by destruct (Hfind' _ _ Hi).
  - split; [done|].
    destruct (list_find (λ p : string * JsArchive, p.1 = String "#" _) table)
      as [[j [t' w]]|] eqn:Hfind'.
    + apply list_find_Some in Hfind' as (Hj & Ht' & _). simpl in Ht'.
      pose proof (Hok _ _ Hj) as Ht. simpl in Ht. by rewrite Ht' in Ht.
    + rewrite pos_of_bits_of_pos. simpl. by rewrite decode_encode.
Qed.

Lemma sample_json_round_trip : JSON_round_trip sample_json.
Proof.
  apply table_json_round_trip.
  - decide_by_evaluation.
  - decide_by_evaluation.
Qed.

End SampleSerialiser.

(** C5 (as the code has it). When the archive slot holds a plain object
    (or nothing, or text that does not parse), the store is accessible and
    accepts the write, and the date of [s] is not [__proto__], saving [s]
    and then loading the date of [s] yields [s]; the archive then is the
    former one with the entry of that date set to [s], replacing a
    snapshot saved earlier under the same (possibly blank) date. *)
Theorem save_then_load_roundtrip (json : Json) (st : Browser) (s : FormState)
    (a : ArchiveMap) :
  let a' := <[date (header s) := s]> a in
  JSON_round_trip json →
  available st = true →
  archive_value json st = JsObject a →
  date (header s) ≠ "__proto__" →
  used (<[STORAGE_KEY_ARCHIVE := JSON_stringify json (JsObject a')]> (items st))
    ≤ quota st →
  ∃ st', save_then_load json s (date (header s)) st
         = (Returned (Some (Snapshot s)), st')
         ∧ archive_value json st' = JsObject a'.
Proof.
  intros a' Hlaw Hav Hobj Hdate Hq.
  unfold save_then_load, mbind, M_bind. rewrite onSave_eq, Hobj.
  cbn [js_set]. rewrite set_property_insert by done. fold a'.
  unfold alert. rewrite onLoad_eq. rewrite archive_value_alerts.
  rewrite archive_value_written by done.
  eexists. split.
  - cbn [js_get]. unfold a'.
    by rewrite (get_property_own _ _ s) by apply lookup_insert_eq.
  - rewrite archive_value_alerts. by apply archive_value_written.
Qed.

(** The round trip on a working store, for a date that is already
    archived. *)
Lemma save_then_load_roundtrip_witness :
  let s := sample_form "2024-05-01" "again" in
  let a' := <[date (header s) := s]> sample_archive in
  JSON_round_trip sample_json
  ∧ available sample_browser = true
  ∧ archive_value sample_json sample_browser = JsObject sample_archive
  ∧ date (header s) ≠ "__proto__"
  ∧ used (<[STORAGE_KEY_ARCHIVE := JSON_stringify sample_json (JsObject a')]>
            (items sample_browser)) ≤ quota sample_browser
  ∧ ∃ st', save_then_load sample_json s (date (header s)) sample_browser
           = (Returned (Some (Snapshot s)), st')
           ∧ archive_value sample_json st' = JsObject a'.
Proof.
  intros s a'.
  assert (Hav : available sample_browser = true) by reflexivity.
  assert (Hobj : archive_value sample_json sample_browser
                 = JsObject sample_archive) by decide_by_evaluation.
  assert (Hdate : date (header s) ≠ "__proto__") by done.
  assert (Hq : used (<[STORAGE_KEY_ARCHIVE :=
                         JSON_stringify sample_json (JsObject a')]>
                       (items sample_browser)) ≤ quota sample_browser).
  { vm_compute. lia. }
  split_and!;
    [exact sample_json_round_trip | exact Hav | exact Hobj | exact Hdate
     | exact Hq |].
  exact (save_then_load_roundtrip sample_json sample_browser s sample_archive
           sample_json_round_trip Hav Hobj Hdate Hq).
Defined.

(** C5, as stated, fails in three ways.  On a full store the write of
    [onSave] is dropped, and loading the date of the saved form yields the
    snapshot saved before, not the form.  When the archive slot holds
    [null], [onSave] throws on the assignment, before anything is written
    or shown.  And a form dated [__proto__] is not stored at all: the
    assignment sets the prototype of the object, and loading that date
    yields the prototype of the freshly parsed archive. *)
Lemma save_then_load_fails :
  (let s := sample_form "2024-05-01" "again" in
   fst (save_then_load sample_json s (date (header s)) full_browser)
   = Returned (Some (Snapshot (sample_form "2024-05-01" "")))
   ∧ sample_form "2024-05-01" "" ≠ s)
  ∧ (let s := sample_form "2024-05-01" "again" in
     save_then_load sample_json s (date (header s)) null_browser
     = (Thrown TypeError, null_browser))
  ∧ (let s := sample_form "__proto__" "" in
     fst (save_then_load sample_json s (date (header s)) sample_browser)
     = Returned (Some (Inherited "__proto__"))).
Proof.
  split_and!.
  - split; [decide_by_evaluation|].
    intros H. apply (f_equal extraNote) in H. discriminate H.
  - vm_compute. reflexivity.
  - decide_by_evaluation.
Qed.

(** ** Listing the archived dates *)

Section DateOrder.

Lemma StronglySorted_reverse {A} (R : relation A) (l : list A) :
  StronglySorted R l → StronglySorted (flip R) (reverse l).
Proof.
  induction 1 as [|x l Hl IH Hx]; [constructor|].
  rewrite reverse_cons. apply StronglySorted_app_2; [|done|].
  - intros y z Hy ->%list_elem_of_singleton. rewrite elem_of_reverse in Hy.
    unfold flip. rewrite Forall_forall in Hx. by apply Hx.
  - repeat constructor.
Qed.

Lemma StronglySorted_weaken {A} (R S : relation A) (l : list A) :
  (∀ x y, x ∈ l → y ∈ l → R x y → S x y) →
  StronglySorted R l → StronglySorted S l.
Proof.
  intros HRS Hl. induction Hl as [|x l Hl IH Hx]; [constructor|].
  constructor.
  - apply IH. intros y z Hy Hz. apply HRS; by right.
  - apply Forall_forall. intros y Hy.
    apply HRS; [by left | by right |].
    rewrite Forall_forall in Hx. by apply Hx.
Qed.

(** The comparison of code units is a total order on lists of units. *)
Lemma units_compare_eq (xs ys : list N) :
  units_compare xs ys = Eq → xs = ys.
Proof.
  revert ys. induction xs as [|x xs IH]; intros [|y ys]; simpl; try done.
  destruct (N.compare_spec x y) as [->|?|?]; try done.
  intros H. by rewrite (IH ys H).
Qed.

Lemma units_compare_antisym (xs ys : list N) :
  units_compare ys xs = CompOpp (units_compare xs ys).
Proof.
  revert ys. induction xs as [|x xs IH]; intros [|y ys]; simpl; try done.
  rewrite (N.compare_antisym x y).
  destruct (x ?= y)%N; simpl; [apply IH | done | done].
Qed.

Lemma units_compare_lt_trans (xs ys zs : list N) :
  units_compare xs ys = Lt → units_compare ys zs = Lt →
  units_compare xs zs = Lt.
Proof.
  revert ys zs. induction xs as [|x xs IH]; intros [|y ys] [|z zs];
    simpl; try done.
  destruct (N.compare_spec x y) as [->|Hxy|Hxy]; try done.
  - destruct (y ?= z)%N; [apply IH | done | done].
  - intros _. destruct (N.compare_spec y z) as [->|Hyz|Hyz]; try done.
    + intros _. by rewrite (proj2 (N.compare_lt_iff x z) Hxy).
    + intros _. by rewrite (proj2 (N.compare_lt_iff x z)) by lia.
Qed.

#[local] Instance js_le_total : Total js_le.
Proof.
  intros x y. unfold js_le, js_compare.
  rewrite (units_compare_antisym (code_units x) (code_units y)).
  destruct (units_compare (code_units x) (code_units y)); simpl;
    [by left | by left | by right].
Qed.

#[local] Instance js_le_transitive : Transitive js_le.
Proof.
  intros x y z. unfold js_le, js_compare. intros Hxy Hyz.
  destruct (units_compare (code_units x) (code_units y)) eqn:Exy; [| |done].
  - apply units_compare_eq in Exy. by rewrite Exy.
  - destruct (units_compare (code_units y) (code_units z)) eqn:Eyz; [| |done].
    + apply units_compare_eq in Eyz. by rewrite <- Eyz, Exy.
    + by rewrite (units_compare_lt_trans _ _ _ Exy Eyz).
Qed.

(** The result of [sort], reversed, is in descending order. *)
Lemma js_sort_descending (keys : list string) :
  StronglySorted (λ x y, js_le y x) (reverse (js_sort keys)).
Proof.
  apply (StronglySorted_reverse js_le), StronglySorted_merge_sort; apply _.
Qed.

(** On ASCII text the code units are the bytes, and [sort] compares the
    bytes. *)
Lemma js_compare_ascii (x y : string) :
  JsString.all (λ c, (N_of_ascii c <? 128)%N) x = true →
  JsString.all (λ c, (N_of_ascii c <? 128)%N) y = true →
  js_compare x y = String.compare x y.
Proof.
  unfold js_compare. revert y.
  induction x as [|c x IH]; intros [|d y]; simpl; try done.
  - intros _ [Hd _]%andb_true_iff. apply N.ltb_lt in Hd.
    by rewrite (proj2 (N.ltb_lt _ 192)) by lia.
  - intros [Hc _]%andb_true_iff _. apply N.ltb_lt in Hc.
    by rewrite (proj2 (N.ltb_lt _ 192)) by lia.
  - intros [Hc Hx]%andb_true_iff [Hd Hy]%andb_true_iff.
    apply N.ltb_lt in Hc, Hd.
    rewrite !(proj2 (N.ltb_lt _ 192)) by lia.
    cbn [units_compare]. unfold Ascii.compare.
    destruct (N_of_ascii c ?= N_of_ascii d)%N; [by apply IH | done | done].
Qed.

(** Code units of digits compare as the digits do. *)
Lemma digit_compare (c c' : ascii) (v v' : nat) :
  digit_value c = Some v → digit_value c' = Some v' →
  Ascii.compare c c' = Nat.compare v v' ∧ v < 10 ∧ v' < 10.
Proof.
  unfold digit_value, NumberField.is_digit, Ascii.compare.
  intros Hc Hc'.
  destruct (_ && _) eqn:E in Hc; [|done].
  destruct (_ && _) eqn:E' in Hc'; [|done].
  simplify_eq.
  apply andb_true_iff in E as [E1 E2], E' as [E1' E2'].
  apply Nat.leb_le in E1, E2, E1', E2'.
  unfold nat_of_ascii in *.
  rewrite N2Nat.inj_compare.
  split; [|lia].
  destruct (Nat.compare_spec (N.to_nat (N_of_ascii c))
                             (N.to_nat (N_of_ascii c'))) as [H|H|H];
    symmetry.
  - apply Nat.compare_eq_iff. lia.
  - apply Nat.compare_lt_iff. lia.
  - apply Nat.compare_gt_iff. lia.
Qed.

Lemma digit_ascii (c : ascii) (v : nat) :
  digit_value c = Some v → (N_of_ascii c <? 128)%N = true.
Proof.
  unfold digit_value, NumberField.is_digit, nat_of_ascii.
  destruct (_ && _) eqn:E; [|done]. intros _.
  apply andb_true_iff in E as [_ E]. apply Nat.leb_le in E.
  apply N.ltb_lt. lia.
Qed.

(** The digits of a date key. *)
Lemma parse_date_digits (x : string) (dx : nat * nat * nat) :
  parse_date x = Some dx →
  ∃ a1 a2 a3 a4 a5 a6 a7 a8 v1 v2 v3 v4 v5 v6 v7 v8,
    x = String a1 (String a2 (String a3 (String a4 (String "-"
          (String a5 (String a6 (String "-"
            (String a7 (String a8 EmptyString)))))))))
    ∧ dx = (10 * (10 * (10 * v1 + v2) + v3) + v4, 10 * v5 + v6, 10 * v7 + v8)
    ∧ digit_value a1 = Some v1 ∧ digit_value a2 = Some v2
    ∧ digit_value a3 = Some v3 ∧ digit_value a4 = Some v4
    ∧ digit_value a5 = Some v5 ∧ digit_value a6 = Some v6
    ∧ digit_value a7 = Some v7 ∧ digit_value a8 = Some v8.
Proof.
  intros Hx.
  destruct x as [|a1 [|a2 [|a3 [|a4 [|s1 [|a5 [|a6 [|s2 [|a7 [|a8 [|? ?]]]]]]]]]]];
    try discriminate Hx.
  unfold parse_date in Hx.
  destruct (Ascii.eqb s1 "-") eqn:E1; [|discriminate Hx].
  destruct (Ascii.eqb s2 "-") eqn:E2; [|discriminate Hx].
  apply Ascii.eqb_eq in E1 as ->, E2 as ->.
  cbn [andb digits_value] in Hx.
  destruct (digit_value a1) as [v1|] eqn:D1; [|discriminate Hx].
  destruct (digit_value a2) as [v2|] eqn:D2; [|discriminate Hx].
  destruct (digit_value a3) as [v3|] eqn:D3; [|discriminate Hx].
  destruct (digit_value a4) as [v4|] eqn:D4; [|discriminate Hx].
  destruct (digit_value a5) as [v5|] eqn:D5; [|discriminate Hx].
  destruct (digit_value a6) as [v6|] eqn:D6; [|discriminate Hx].
  destruct (digit_value a7) as [v7|] eqn:D7; [|discriminate Hx].
  destruct (digit_value a8) as [v8|] eqn:D8; [|discriminate Hx].
  cbn in Hx. injection Hx as <-.
  exists a1, a2, a3, a4, a5, a6, a7, a8, v1, v2, v3, v4, v5, v6, v7, v8.
  split_and!; try done.
Qed.

(** A date key is ASCII text. *)
Lemma parse_date_ascii (x : string) (dx : nat * nat * nat) :
  parse_date x = Some dx →
  JsString.all (λ c, (N_of_ascii c <? 128)%N) x = true.
Proof.
  intros (a1 & a2 & a3 & a4 & a5 & a6 & a7 & a8
          & v1 & v2 & v3 & v4 & v5 & v6 & v7 & v8
          & -> & _ & A1 & A2 & A3 & A4 & A5 & A6 & A7 & A8)%parse_date_digits.
  cbn [JsString.all].
  rewrite (digit_ascii _ _ A1), (digit_ascii _ _ A2), (digit_ascii _ _ A3),
    (digit_ascii _ _ A4), (digit_ascii _ _ A5), (digit_ascii _ _ A6),
    (digit_ascii _ _ A7), (digit_ascii _ _ A8).
  reflexivity.
Qed.

(** On keys written [YYYY-MM-DD] the order of the bytes is the order of
    the calendar. *)
Lemma date_keys_order (x y : string) (dx dy : nat * nat * nat) :
  parse_date x = Some dx → parse_date y = Some dy →
  str_lt x y ↔ earlier dx dy.
Proof.
  intros (a1 & a2 & a3 & a4 & a5 & a6 & a7 & a8
          & v1 & v2 & v3 & v4 & v5 & v6 & v7 & v8
          & -> & -> & A1 & A2 & A3 & A4 & A5 & A6 & A7 & A8)%parse_date_digits.
  intros (b1 & b2 & b3 & b4 & b5 & b6 & b7 & b8
          & w1 & w2 & w3 & w4 & w5 & w6 & w7 & w8
          & -> & -> & B1 & B2 & B3 & B4 & B5 & B6 & B7 & B8)%parse_date_digits.
  unfold str_lt, String.ltb. cbn [String.compare].
  destruct (digit_compare _ _ _ _ A1 B1) as (-> & ? & ?).
  destruct (digit_compare _ _ _ _ A2 B2) as (-> & ? & ?).
  destruct (digit_compare _ _ _ _ A3 B3) as (-> & ? & ?).
  destruct (digit_compare _ _ _ _ A4 B4) as (-> & ? & ?).
  destruct (digit_compare _ _ _ _ A5 B5) as (-> & ? & ?).
  destruct (digit_compare _ _ _ _ A6 B6) as (-> & ? & ?).
  destruct (digit_compare _ _ _ _ A7 B7) as (-> & ? & ?).
  destruct (digit_compare _ _ _ _ A8 B8) as (-> & ? & ?).
  change (Ascii.compare "-" "-") with Eq. cbv iota.
  unfold earlier.
  destruct (Nat.compare_spec v1 w1); [|split; [lia|done] | split; [done|lia]].
  destruct (Nat.compare_spec v2 w2); [|split; [lia|done] | split; [done|lia]].
  destruct (Nat.compare_spec v3 w3); [|split; [lia|done] | split; [done|lia]].
  destruct (Nat.compare_spec v4 w4); [|split; [lia|done] | split; [done|lia]].
  destruct (Nat.compare_spec v5 w5); [|split; [lia|done] | split; [done|lia]].
  destruct (Nat.compare_spec v6 w6); [|split; [lia|done] | split; [done|lia]].
  destruct (Nat.compare_spec v7 w7); [|split; [lia|done] | split; [done|lia]].
  destruct (Nat.compare_spec v8 w8); [|split; [lia|done] | split; [done|lia]].
  split; [done|lia].
Qed.

(** On such keys the order of [sort] is the order of the calendar. *)
Lemma date_keys_sort_order (x y : string) (dx dy : nat * nat * nat) :
  parse_date x = Some dx → parse_date y = Some dy →
  js_lt x y ↔ earlier dx dy.
Proof.
  intros Hx Hy. rewrite <- (date_keys_order x y dx dy Hx Hy).
  unfold js_lt, str_lt, String.ltb.
  rewrite (js_compare_ascii x y (parse_date_ascii _ _ Hx)
             (parse_date_ascii _ _ Hy)).
  by destruct (String.compare x y).
Qed.

(** Distinct date keys in the order of [sort] are in strict order. *)
Lemma date_keys_le_lt (x y : string) (dx dy : nat * nat * nat) :
  parse_date x = Some dx → parse_date y = Some dy →
  js_le x y → x ≠ y → js_lt x y.
Proof.
  intros Hx Hy. unfold js_le, js_lt.
  rewrite (js_compare_ascii x y (parse_date_ascii _ _ Hx)
             (parse_date_ascii _ _ Hy)).
  intros Hle Hne.
  destruct (String.compare x y) eqn:E; [|done|done].
  by apply String.compare_eq_iff in E.
Qed.

End DateOrder.

Section ListDates.

Variable json : Json.

Lemma listArchiveDates_eq (st : Browser) :
  listArchiveDates json st
  = match archive_value json st with
    | JsObject own => (Returned (reverse (js_sort (own_keys own))), st)
    | JsNull => (Thrown TypeError, st)
    end.
Proof.
  unfold listArchiveDates, mbind, M_bind, pure_call.
  rewrite archive_value_eq. by destruct (archive_value json st).
Qed.

Lemma own_keys_elem {V} (a : gmap string V) (d : string) :
  d ∈ own_keys a ↔ is_Some (a !! d).
Proof.
  unfold own_keys. rewrite list_elem_of_fmap. split.
  - intros [[k v] [-> Hkv]]. apply elem_of_map_to_list in Hkv. by eexists.
  - intros [v Hv]. exists (d, v). split; [done|].
    by apply elem_of_map_to_list.
Qed.

(** The dates listed are the own keys of the archive. *)
Lemma listed_keys (a : ArchiveMap) (d : string) :
  d ∈ reverse (js_sort (own_keys a)) ↔ is_Some (a !! d).
Proof.
  rewrite elem_of_reverse. unfold js_sort.
  rewrite merge_sort_Permutation. apply own_keys_elem.
Qed.

Lemma listed_keys_NoDup (a : ArchiveMap) :
  NoDup (reverse (js_sort (own_keys a))).
Proof.
  unfold js_sort. rewrite reverse_Permutation, merge_sort_Permutation.
  apply NoDup_fst_map_to_list.
Qed.

(** In a duplicate-free list in descending order, a later date comes
    first. *)
Lemma descending_dates (l : list string) :
  NoDup l → StronglySorted (λ x y, js_le y x) l →
  StronglySorted later_date l.
Proof.
  intros Hnd Hl. induction Hl as [|x l Hl IH Hx]; [constructor|].
  apply NoDup_cons in Hnd as [Hx' Hnd]. constructor; [by apply IH|].
  rewrite Forall_forall in Hx |- *. intros y Hy dx dy Hdx Hdy.
  apply (date_keys_sort_order y x dy dx Hdy Hdx).
  apply (date_keys_le_lt y x dy dx Hdy Hdx); [by apply Hx|].
  by intros ->.
Qed.

End ListDates.

(** C6. When the archive slot holds an archive (a plain object, or
    nothing, or text that does not parse), [listArchiveDates] returns
    exactly its keys, each once, in descending order of [sort]'s string
    comparison (UTF-16 code units compared from the left); two keys
    written [YYYY-MM-DD] compare as their dates do, so among such keys a
    later date always comes first. *)
Theorem listArchiveDates_descending (json : Json) (st : Browser)
    (a : ArchiveMap) :
  archive_value json st = JsObject a →
  ∃ dates,
    listArchiveDates json st = (Returned dates, st)
    ∧ (∀ d, d ∈ dates ↔ is_Some (a !! d))
    ∧ NoDup dates
    ∧ StronglySorted (λ x y, js_le y x) dates
    ∧ StronglySorted later_date dates
    ∧ (∀ x y dx dy, parse_date x = Some dx → parse_date y = Some dy →
                    js_lt x y ↔ earlier dx dy).
Proof.
  intros Hobj. rewrite listArchiveDates_eq, Hobj.
  eexists. split; [reflexivity|].
  split_and!.
  - apply listed_keys.
  - apply listed_keys_NoDup.
  - apply js_sort_descending.
  - apply descending_dates; [apply listed_keys_NoDup | apply js_sort_descending].
  - apply date_keys_sort_order.
Qed.

(** The keys of the sample archive, latest first. *)
Lemma listArchiveDates_descending_witness :
  archive_value sample_json sample_browser = JsObject sample_archive
  ∧ ∃ dates,
      listArchiveDates sample_json sample_browser
      = (Returned dates, sample_browser)
      ∧ dates = ["2024-05-01"; "2024-04-30"; "2023-12-31"]
      ∧ StronglySorted later_date dates.
Proof.
  assert (Hobj : archive_value sample_json sample_browser
                 = JsObject sample_archive) by decide_by_evaluation.
  split; [exact Hobj|].
  destruct (listArchiveDates_descending sample_json sample_browser
              sample_archive Hobj)
    as (dates & Hrun & _ & _ & _ & Hlater & _).
  exists dates. split_and!; [exact Hrun | | exact Hlater].
  assert (Heval : listArchiveDates sample_json sample_browser
                  = (Returned ["2024-05-01"; "2024-04-30"; "2023-12-31"],
                     sample_browser)) by (vm_compute; reflexivity).
  rewrite Heval in Hrun. by injection Hrun.
Defined.

(** Outside ASCII the order of [sort] is not the order of the bytes: a
    character beyond the basic plane sorts by its surrogates, before the
    fullwidth letters. *)
Example js_sort_code_units :
  js_sort ["Ａ"; "😀"; "a"] = ["a"; "😀"; "Ａ"]
  ∧ merge_sort String.le ["Ａ"; "😀"; "a"] = ["a"; "Ａ"; "😀"].
Proof. split; vm_compute; reflexivity. Qed.

(** ** The scenarios of the specification *)

Example fresh_state_first_rows :
  take 2 (toSheetRows (makeInitialState "2024-05-01"))
  = [ ["日付"; "2024-05-01"]; ["曜日"; ""] ].
Proof. vm_compute. reflexivity. Qed.

Example fresh_state_upper_bed :
  stage_rows_in aerobic_upper (toSheetRows (makeInitialState "2024-05-01"))
  = [ ["ポイント"; "臭気"; "色相"; "水温(℃)"; "透視度"; "pH"; "DO(mg/L)";
       "ろ抗高"];
      ["No.1-1"; ""; ""; ""; ""; ""; ""; ""];
      ["No.1-2"; ""; ""; ""; ""; ""; ""; ""];
      ["No.2-1"; ""; ""; ""; ""; ""; ""; ""];
      ["No.2-2"; ""; ""; ""; ""; ""; ""; ""] ].
Proof. vm_compute. reflexivity. Qed.

Example fresh_state_influent :
  stage_rows_in influent (toSheetRows (makeInitialState "2024-05-01"))
  = [ ["臭気"; ""]; ["色相"; ""]; ["水温(℃)"; ""]; ["透視度"; ""];
      ["pH"; ""]; ["DO(mg/L)"; ""] ].
Proof. vm_compute. reflexivity. Qed.

(** An input that hides odor of the upper bed and shows the comment of
    the influent. *)
Example patchedVisibility_sample :
  let vis : VisibilityMap :=
    {[ aerobic_upper := {[ odor := false; temp := false ]};
       influent := {[ comment := true ]} ]} in
  flag (patchedVisibility (Some vis)) aerobic_upper odor = Some true
  ∧ flag (patchedVisibility (Some vis)) aerobic_upper temp = Some false
  ∧ flag (patchedVisibility (Some vis)) influent comment = Some true
  ∧ flag (patchedVisibility (Some vis)) effluent comment = Some false.
Proof. vm_compute. by split_and!. Qed.

(** Saving under a blank date files the form under the empty key. *)
Example save_blank_date :
  fst (save_then_load sample_json (sample_form "" "undated") "" sample_browser)
  = Returned (Some (Snapshot (sample_form "" "undated"))).
Proof. decide_by_evaluation. Qed.

(** On a store that cannot be accessed the save is lost and still
    announced as done. *)
Example save_on_blocked_store :
  save_then_load sample_json (sample_form "2024-05-02" "new") "2024-05-02"
                 blocked_browser
  = (Returned None,
     {| available := false; items := ∅; quota := 5000;
        alerts := ["この日付の点検結果を保存しました"] |}).
Proof. vm_compute. reflexivity. Qed.

(** The round trip rests on the law of the serialiser: with a pair that
    loses what it is given, the form saved is not the value loaded. *)
Example save_then_load_lossy_json :
  let lossy := {| JSON_stringify _ := "{}";
                  JSON_parse _ := Returned (JsObject ∅) |} in
  fst (save_then_load lossy (sample_form "2024-05-01" "") "2024-05-01"
         empty_browser)
  = Returned None.
Proof. vm_compute. reflexivity. Qed.

(** Loading a name of [Object.prototype] that is not archived hands the
    inherited member to [setForm]. *)
Example load_inherited_name :
  onLoad sample_json "constructor" sample_browser
  = (Returned (Some (Inherited "constructor")), sample_browser).
Proof. vm_compute. reflexivity. Qed.


(* ===================================================================== *)
(** * Further properties of the source *)
(* ===================================================================== *)

(** ** The preview table *)

Section PreviewFacts.
Import JsString.

Lemma replace_all_char_append (c : ascii) (text s t : string) :
  replace_all_char c text (s +:+ t)
  = replace_all_char c text s +:+ replace_all_char c text t.
Proof.
  induction s as [|d s IH]; [done|].
  rewrite append_String. simpl. destruct (Ascii.eqb d c).
  - by rewrite IH, append_assoc_str.
  - by rewrite IH, append_String.
Qed.

(** The three passes of [esc] amount to one substitution per code unit:
    the ampersands the later passes write are never escaped again. *)
Lemma esc_esc_once (s : string) : esc s = esc_once s.
Proof.
  unfold esc. induction s as [|c s IH]; [done|].
  simpl. unfold esc_char.
  destruct (Ascii.eqb c "&") eqn:Ha.
  { rewrite !replace_all_char_append, IH. reflexivity. }
  simpl. destruct (Ascii.eqb c "<") eqn:Hl.
  { rewrite !replace_all_char_append, IH. reflexivity. }
  simpl. destruct (Ascii.eqb c ">") eqn:Hg.
  { by rewrite IH. }
  by rewrite IH.
Qed.

Lemma esc_char_no_angle (c : ascii) :
  count "<" (esc_char c) = 0 ∧ count ">" (esc_char c) = 0.
Proof.
  unfold esc_char.
  destruct (Ascii.eqb c "&"); [done|].
  destruct (Ascii.eqb c "<") eqn:Hl; [done|].
  destruct (Ascii.eqb c ">") eqn:Hg; [done|].
  simpl. by rewrite Hl, Hg.
Qed.

Lemma esc_once_no_angle (s : string) :
  count "<" (esc_once s) = 0 ∧ count ">" (esc_once s) = 0.
Proof.
  induction s as [|c s [IH1 IH2]]; [done|].
  simpl. rewrite !count_append, IH1, IH2.
  destruct (esc_char_no_angle c) as [-> ->]. done.
Qed.

Lemma unesc_plain (c : ascii) (s : string) :
  Ascii.eqb c "&" = false → unesc (String c s) = String c (unesc s).
Proof. intros Hc. by case_ascii c. Qed.

Lemma unesc_esc_once (s : string) : unesc (esc_once s) = s.
Proof.
  induction s as [|c s IH]; [done|].
  simpl. unfold esc_char.
  destruct (Ascii.eqb c "&") eqn:Ha.
  { apply Ascii.eqb_eq in Ha as ->.
    rewrite !append_String, append_empty_l. simpl. by rewrite IH. }
  destruct (Ascii.eqb c "<") eqn:Hl.
  { apply Ascii.eqb_eq in Hl as ->.
    rewrite !append_String, append_empty_l. simpl. by rewrite IH. }
  destruct (Ascii.eqb c ">") eqn:Hg.
  { apply Ascii.eqb_eq in Hg as ->.
    rewrite !append_String, append_empty_l. simpl. by rewrite IH. }
  rewrite append_String, append_empty_l, unesc_plain by done.
  by rewrite IH.
Qed.

End PreviewFacts.

(** X1. Escaping a cell is faithful and safe: the three replacements act
    as one substitution per character, the entities read back as the
    original text (so different texts give different markup), and the
    result holds no [<] and no [>]. *)
Theorem esc_faithful (s : string) :
  esc s = esc_once s
  ∧ unesc (esc s) = s
  ∧ JsString.count "<" (esc s) = 0
  ∧ JsString.count ">" (esc s) = 0
  ∧ (∀ t, esc s = esc t → s = t).
Proof.
  split_and!.
  - apply esc_esc_once.
  - by rewrite esc_esc_once, unesc_esc_once.
  - rewrite esc_esc_once. apply esc_once_no_angle.
  - rewrite esc_esc_once. apply esc_once_no_angle.
  - intros t Heq. apply (f_equal unesc) in Heq.
    by rewrite !esc_esc_once, !unesc_esc_once in Heq.
Qed.

Section TableFacts.
Import JsString.

Lemma count_join (c : ascii) (parts : list string) :
  count c (join parts) = foldr (λ p n, count c p + n) 0 parts.
Proof.
  induction parts as [|p parts IH]; [done|].
  unfold join in *. simpl. by rewrite count_append, IH.
Qed.

Lemma count_html_cell (i : nat) (c : string) :
  count "<" (html_cell i c) = 2 ∧ count ">" (html_cell i c) = 2.
Proof.
  unfold html_cell. rewrite !count_append.
  rewrite esc_esc_once.
  destruct (esc_once_no_angle c) as [-> ->].
  by destruct (Nat.eqb i 0).
Qed.

Lemma count_html_cells (h : nat → string → string) (r : Row) :
  (∀ i c, count "<" (h i c) = 2 ∧ count ">" (h i c) = 2) →
  foldr (λ p n, count "<" p + n) 0 (imap h r) = 2 * length r
  ∧ foldr (λ p n, count ">" p + n) 0 (imap h r) = 2 * length r.
Proof.
  revert h. induction r as [|c r IH]; intros h Hh; [done|].
  cbn [imap foldr length].
  destruct (Hh 0 c) as [-> ->].
  destruct (IH (h ∘ S)) as [-> ->]; [intros i d; apply Hh|]. lia.
Qed.

Lemma count_html_row (r : Row) :
  count "<" (html_row r) = 2 + 2 * length r
  ∧ count ">" (html_row r) = 2 + 2 * length r.
Proof.
  unfold html_row. rewrite !count_append, !count_join.
  destruct (count_html_cells html_cell r count_html_cell) as [-> ->].
  simpl. lia.
Qed.

Lemma count_html_rows (rows : list Row) :
  foldr (λ p n, count "<" p + n) 0 (map html_row rows)
  = 2 * length rows + 2 * cell_count rows
  ∧ foldr (λ p n, count ">" p + n) 0 (map html_row rows)
    = 2 * length rows + 2 * cell_count rows.
Proof.
  induction rows as [|r rows [IH1 IH2]]; [done|].
  cbn [map foldr length cell_count].
  destruct (count_html_row r) as [-> ->]. rewrite IH1, IH2.
  unfold cell_count. lia.
Qed.

End TableFacts.

(** X2. The preview markup holds exactly the tags of the table: one row
    element per sheet row and one cell element per cell, whatever the
    cells contain.  Counting [<] and [>] gives the four tags of the frame,
    two per row and two per cell, so no cell text opens or closes a
    tag. *)
Theorem rowsToHtmlTable_tags (rows : list Row) :
  JsString.count "<" (rowsToHtmlTable rows)
  = 4 + 2 * length rows + 2 * cell_count rows
  ∧ JsString.count ">" (rowsToHtmlTable rows)
    = 4 + 2 * length rows + 2 * cell_count rows.
Proof.
  unfold rowsToHtmlTable. rewrite !count_append, !count_join.
  destruct (count_html_rows rows) as [-> ->]. simpl. lia.
Qed.

(** ** The numeric filter and the pattern of the input element *)

Section PatternFacts.
Import JsString NumberField.

(** Texts of digits and points with at most one point are in the
    language of the unsigned pattern. *)
Lemma digits_dot_digits_intro (s : string) :
  all (λ c, is_digit c || is_dot c) s = true → count "." s ≤ 1 →
  digits_dot_digits s = true.
Proof.
  induction s as [|c s IH]; [done|].
  simpl. intros [Hc Hs]%andb_true_iff Hcount.
  destruct (is_digit c) eqn:Hd.
  - apply IH; [done|]. lia.
  - simpl in Hc. rewrite Hc. unfold is_dot in Hc.
    rewrite Hc in Hcount.
    assert (Hzero : count "." s = 0) by lia.
    clear IH Hcount. induction s as [|d s IH]; [done|].
    simpl in *. apply andb_true_iff in Hs as [Hd' Hs].
    destruct (Ascii.eqb d ".") eqn:Hdot; [lia|].
    unfold is_dot in Hd'. rewrite Hdot, orb_false_r in Hd'.
    rewrite Hd'. simpl. apply IH; [done|lia].
Qed.

(** The filter leaves a text of the unsigned language as it is. *)
Lemma digits_dot_digits_clean (s : string) :
  digits_dot_digits s = true →
  remove_all (λ c, negb (allowed c)) s = s
  ∧ remove_all is_minus s = s
  ∧ keep_first_dot s = s
  ∧ leading_minus s = false.
Proof.
  assert (Hdigit : ∀ c, is_digit c = true →
            allowed c = true ∧ is_minus c = false ∧ is_dot c = false).
  { intros c Hc. unfold allowed. rewrite Hc. split; [done|].
    unfold is_minus, is_dot, is_digit in *.
    split; apply Ascii.eqb_neq; intros ->; done. }
  assert (Hdot : ∀ c, is_dot c = true →
            allowed c = true ∧ is_minus c = false).
  { intros c Hc. unfold allowed. rewrite Hc, orb_true_r. split; [done|].
    unfold is_minus, is_dot in *. by apply Ascii.eqb_eq in Hc as ->. }
  assert (Hdigits : ∀ t, all is_digit t = true →
            remove_all (λ c, negb (allowed c)) t = t
            ∧ remove_all is_minus t = t
            ∧ remove_all is_dot t = t).
  { induction t as [|c t IH]; [done|].
    simpl. intros [Hc Ht]%andb_true_iff.
    destruct (IH Ht) as (-> & -> & ->).
    by destruct (Hdigit c Hc) as (-> & -> & ->). }
  induction s as [|c s IH]; [done|].
  simpl. destruct (is_digit c) eqn:Hd.
  - intros Hs. destruct (IH Hs) as (-> & -> & -> & _).
    by destruct (Hdigit c Hd) as (-> & -> & ->).
  - destruct (is_dot c) eqn:Hc; [|done].
    intros Hs. destruct (Hdigits s Hs) as (-> & -> & ->).
    by destruct (Hdot c Hc) as (-> & ->).
Qed.

(** What the filter returns is in the language of the pattern. *)
Lemma sanitize_matches (allowNegative : bool) (raw : string) :
  matches_pattern allowNegative (sanitize allowNegative raw) = true.
Proof.
  rewrite sanitize_refines. unfold sanitize_spec.
  set (kept := remove_all (λ c, negb (allowed c)) raw).
  set (body := keep_first_dot (remove_all is_minus kept)).
  assert (Hbody : digits_dot_digits body = true).
  { apply digits_dot_digits_intro; [|apply keep_first_dot_one].
    apply keep_first_dot_all.
    rewrite <- (all_remove_all is_minus kept).
    assert (Hk : all allowed kept = true) by apply allowed_after_filter.
    clearbody kept. clear body. induction kept as [|c kept IH]; [done|].
    simpl in *. apply andb_true_iff in Hk as [Hc Hk].
    destruct (is_minus c) eqn:Hm; simpl; [by apply IH|].
    rewrite Hm. simpl. rewrite (IH Hk).
    unfold allowed in Hc. rewrite Hm, orb_false_r in Hc.
    by rewrite Hc. }
  assert (Hlead : leading_minus body = false).
  { assert (Hm : count "-" body = 0) by apply sanitize_spec_no_inner_minus.
    destruct body as [|c body']; [done|]. simpl in *.
    unfold is_minus. destruct (Ascii.eqb c "-"); [lia|done]. }
  destruct (allowNegative && leading_minus kept) eqn:Hsign.
  - apply andb_true_iff in Hsign as [-> _].
    rewrite append_String, append_empty_l. exact Hbody.
  - rewrite append_empty_l. destruct body as [|c body']; [done|].
    simpl in Hlead. unfold matches_pattern. rewrite Hlead, andb_false_r.
    exact Hbody.
Qed.

(** A text of the language of the pattern passes the filter unchanged. *)
Lemma sanitize_fixes_matching (allowNegative : bool) (s : string) :
  matches_pattern allowNegative s = true → sanitize allowNegative s = s.
Proof.
  rewrite sanitize_refines. unfold sanitize_spec, matches_pattern.
  destruct s as [|c s]; [by destruct allowNegative|].
  destruct (allowNegative && is_minus c) eqn:Hsign.
  - apply andb_true_iff in Hsign as [-> Hm].
    unfold is_minus in Hm. apply Ascii.eqb_eq in Hm as ->.
    intros (Ha & Hm & Hk & _)%digits_dot_digits_clean.
    simpl. rewrite Ha. simpl. by rewrite Hm, Hk.
  - intros Hs. destruct (digits_dot_digits_clean _ Hs) as (-> & -> & -> & Hl).
    rewrite Hl, andb_false_r. done.
Qed.

End PatternFacts.

(** X3. The numeric filter and the pattern of its input element agree:
    what [sanitize] returns always matches the pattern given for the same
    [allowNegative], a text is left unchanged exactly when it matches the
    pattern, and filtering twice is filtering once. *)
Theorem sanitize_pattern (allowNegative : bool) (raw : string) :
  matches_pattern allowNegative (NumberField.sanitize allowNegative raw) = true
  ∧ (NumberField.sanitize allowNegative raw = raw
     ↔ matches_pattern allowNegative raw = true)
  ∧ NumberField.sanitize allowNegative (NumberField.sanitize allowNegative raw)
    = NumberField.sanitize allowNegative raw.
Proof.
  split_and!.
  - apply sanitize_matches.
  - split.
    + intros Heq. rewrite <- Heq. apply sanitize_matches.
    + apply sanitize_fixes_matching.
  - apply sanitize_fixes_matching, sanitize_matches.
Qed.


(** ** Displayed point labels *)

(** Either the label starts with ["NO."] and this prefix is rewritten, or
    the label is displayed as it is. *)
Lemma displayPointLabel_cases (lbl : string) :
  (∃ rest, lbl = "NO." +:+ rest ∧ displayPointLabel lbl = "No." +:+ rest)
  ∨ displayPointLabel lbl = lbl.
Proof.
  destruct lbl as [|a [|b [|c rest]]]; [by right|..].
  - right. by case_ascii a.
  - right. case_ascii a; try done. by case_ascii b.
  - case_ascii a; try (by right).
    case_ascii b; try (by right).
    case_ascii c; try (by right).
    left. by exists rest.
Qed.

(** X4. Displaying a label twice changes nothing more and keeps its
    length; two labels are displayed alike only when they are equal or
    differ in nothing but a leading ["NO."] against a leading ["No."]. *)
Theorem displayPointLabel_collisions (a b : string) :
  displayPointLabel (displayPointLabel a) = displayPointLabel a
  ∧ String.length (displayPointLabel a) = String.length a
  ∧ (displayPointLabel a = displayPointLabel b
     ↔ a = b
       ∨ (∃ rest, a = "NO." +:+ rest ∧ b = "No." +:+ rest)
       ∨ (∃ rest, a = "No." +:+ rest ∧ b = "NO." +:+ rest)).
Proof.
  assert (Hshown : ∀ rest, displayPointLabel ("No." +:+ rest) = "No." +:+ rest)
    by done.
  split_and!.
  - destruct (displayPointLabel_cases a) as [(rest & -> & ->) | Ha];
      [apply Hshown | by rewrite !Ha].
  - destruct (displayPointLabel_cases a) as [(rest & -> & ->) | Ha];
      [done | by rewrite Ha].
  - split.
    + destruct (displayPointLabel_cases a) as [(ra & -> & ->) | Ha],
        (displayPointLabel_cases b) as [(rb & -> & ->) | Hb];
        rewrite ?Ha, ?Hb.
      * intros ->%String.app_inj. by left.
      * intros <-. right. left. by exists ra.
      * intros ->. right. right. by exists rb.
      * intros ->. by left.
    + intros [-> | [(rest & -> & ->) | (rest & -> & ->)]]; done.
Qed.

(** ** The width of the first column *)

Section ExportFacts.

Lemma fold_max_spec {A} (g : A → nat) (l : list A) (a : nat) :
  let m := fold_left (λ acc x, Nat.max acc (g x)) l a in
  a ≤ m ∧ (∀ x, x ∈ l → g x ≤ m) ∧ (m = a ∨ ∃ x, x ∈ l ∧ m = g x).
Proof.
  revert a. induction l as [|y l IH]; intros a; simpl.
  - split_and!; [done | by intros x ?%elem_of_nil | by left].
  - destruct (IH (Nat.max a (g y))) as (Hge & Hall & Hatt).
    split_and!.
    + lia.
    + intros x [-> | Hx]%elem_of_cons; [lia | by apply Hall].
    + destruct Hatt as [Hm | (x & Hx & Hm)].
      * rewrite Hm.
        destruct (Nat.max_spec a (g y)) as [[_ Hmax] | [_ Hmax]];
          rewrite Hmax; [right; exists y; split; [by left|done] | by left].
      * right. exists x. split; [by right | done].
Qed.

(** The width is the largest of 8 and the lengths of the first cells. *)
Lemma col0_width_spec (rows : list Row) :
  8 ≤ col0_width rows
  ∧ (∀ r, r ∈ rows → first_cell_length r ≤ col0_width rows)
  ∧ (col0_width rows = 8
     ∨ ∃ r, r ∈ rows ∧ col0_width rows = first_cell_length r).
Proof. apply (fold_max_spec first_cell_length rows 8). Qed.

Lemma elem_of_concat {A} (x : A) (ls : list (list A)) :
  x ∈ concat ls ↔ ∃ l, x ∈ l ∧ l ∈ ls.
Proof.
  induction ls as [|l ls IH]; simpl.
  - split; [by intros ?%elem_of_nil | by intros (l & _ & ?%elem_of_nil)].
  - rewrite elem_of_app, IH. split.
    + intros [Hx | (l' & Hx & Hl')]; [exists l | exists l'];
        (split; [done|]); [by left | by right].
    + intros (l' & Hx & [-> | Hl']%elem_of_cons); [by left | right; eauto].
Qed.

(** The first cell of a content row is a field label, the word heading
    the point table, or a displayed point label. *)
Lemma stage_content_first_cells (f : FormState) (k : SectionKey) (r : Row) :
  r ∈ stage_content f k →
  first_cell_length r ≤ 14
  ∨ ∃ lbl, lbl ∈ points f ∧ head r = Some (displayPointLabel lbl).
Proof.
  unfold stage_content. destruct (bool_decide (k ∈ POINT_SECTIONS)).
  - unfold point_table. destruct (visible_columns f k) eqn:Hcols;
      [by intros ?%elem_of_nil|].
    intros [-> | Hr]%elem_of_cons.
    + left. unfold point_header, first_cell_length. simpl. vm_compute. lia.
    + apply list_elem_of_fmap in Hr as (lbl & -> & Hlbl).
      right. by exists lbl.
  - unfold field_rows. intros (c & -> & _)%list_elem_of_fmap.
    left. unfold first_cell_length. simpl. destruct c; vm_compute; lia.
Qed.

Lemma stage_block_first_cells (f : FormState) (def : SectionDef) (r : Row) :
  def ∈ SECTION_DEFS → r ∈ stage_block f def →
  first_cell_length r ≤ 14
  ∨ ∃ lbl, lbl ∈ points f ∧ head r = Some (displayPointLabel lbl).
Proof.
  intros Hdef. unfold stage_block.
  intros [-> | [Hr | Hr]%elem_of_app]%elem_of_cons.
  - left. unfold SECTION_DEFS in Hdef.
    repeat (apply elem_of_cons in Hdef as [-> | Hdef]);
      [vm_compute; lia.. | by apply elem_of_nil in Hdef].
  - by eapply stage_content_first_cells.
  - apply list_elem_of_singleton in Hr as ->. left. vm_compute. lia.
Qed.

Lemma sheet_first_cells (f : FormState) (r : Row) :
  r ∈ toSheetRows f →
  first_cell_length r ≤ 14
  ∨ ∃ lbl, lbl ∈ points f ∧ head r = Some (displayPointLabel lbl).
Proof.
  rewrite toSheetRows_blocks.
  intros [Hr | [Hr | [Hr | Hr]%elem_of_app]%elem_of_app]%elem_of_app.
  - left. unfold header_rows in Hr.
    repeat (apply elem_of_cons in Hr as [-> | Hr]);
      [vm_compute; lia.. | by apply elem_of_nil in Hr].
  - apply list_elem_of_singleton in Hr as ->. left. vm_compute. lia.
  - apply elem_of_concat in Hr as (block & Hr & Hblock).
    apply list_elem_of_fmap in Hblock as (def & -> & Hdef).
    by eapply stage_block_first_cells.
  - left. unfold note_block in Hr.
    repeat (apply elem_of_cons in Hr as [-> | Hr]);
      [vm_compute; lia.. | by apply elem_of_nil in Hr].
Qed.

Lemma sheet_has_lower_title (f : FormState) :
  ["【好気性ろ床 下部・処理水】"] ∈ toSheetRows f.
Proof.
  rewrite toSheetRows_blocks. unfold SECTION_DEFS. cbn [map concat].
  apply elem_of_app. right. apply elem_of_app. right.
  apply elem_of_app. left.
  do 2 (apply elem_of_app; right). apply elem_of_app. left.
  unfold stage_block. by left.
Qed.

End ExportFacts.

(** X5. In every exported workbook the first of the six column widths is
    at least 14 (the longest fixed label) and at least the length of the
    first cell of every row of the sheet; it exceeds 14 only by being the
    length of a displayed point label. *)
Theorem exportExcel_first_column (form : FormState) :
  ∃ col0,
    column_widths (exportExcel form) = [col0; 20; 14; 14; 14; 14]
    ∧ sheet_rows (exportExcel form) = toSheetRows form
    ∧ 14 ≤ col0
    ∧ (∀ r, r ∈ toSheetRows form → first_cell_length r ≤ col0)
    ∧ (col0 = 14
       ∨ ∃ lbl, lbl ∈ points form
                ∧ col0 = js_length (displayPointLabel lbl)).
Proof.
  exists (col0_width (toSheetRows form)).
  destruct (col0_width_spec (toSheetRows form)) as (Hfloor & Hall & Hatt).
  assert (Hlow : 14 ≤ col0_width (toSheetRows form)).
  { assert (Hlen : first_cell_length ["【好気性ろ床 下部・処理水】"] = 14)
      by (vm_compute; reflexivity).
    rewrite <- Hlen. apply Hall, sheet_has_lower_title. }
  split_and!.
  - reflexivity.
  - reflexivity.
  - exact Hlow.
  - exact Hall.
  - destruct Hatt as [H8 | (r & Hr & Hm)]; [lia|].
    destruct (sheet_first_cells form r Hr) as [Hle | (lbl & Hlbl & Hhead)].
    + left. lia.
    + right. exists lbl. split; [done|].
      rewrite Hm. unfold first_cell_length. by rewrite Hhead.
Qed.

(** ** Restoring and persisting the current form *)

Section CurrentSlotFacts.

Variable fj : FormJson.
Variable json : Json.

(** Normalising a normalised map changes nothing. *)
Lemma patchedVisibility_twice (vis : option VisibilityMap) :
  patchedVisibility (Some (patchedVisibility vis)) = patchedVisibility vis.
Proof.
  apply visibility_map_eq.
  - intros s. rewrite patchedVisibility_stage. eauto.
  - intros s. rewrite patchedVisibility_stage. eauto.
  - intros s k. rewrite (normalised_flag (Some _)).
    rewrite input_flag_Some by (rewrite patchedVisibility_stage; eauto).
    rewrite normalised_flag.
    by destruct (forced_visible s k).
Qed.

Lemma restore_normal (parsed : StoredForm) : normal_form (restore parsed).
Proof.
  split; simpl.
  - apply patchedVisibility_twice.
  - by destruct (stored_points parsed) as [[|p ps]|].
Qed.

Lemma makeInitialState_normal (today : string) :
  normal_form (makeInitialState today).
Proof. split; simpl; [apply patchedVisibility_twice | done]. Qed.

(** A normal form is read back as it was written. *)
Lemma restore_as_stored (f : FormState) :
  normal_form f → restore (as_stored f) = f.
Proof.
  intros [Hvis Hpts]. destruct f as [h s pts pd vis note].
  unfold restore. simpl in *. rewrite Hvis.
  by destruct pts.
Qed.

(** The initialiser as a function of the browser state. *)
Lemma initialForm_eq (today : string) (st : Browser) :
  initialForm fj today st
  = if available st then
      (Returned
         match items st !! STORAGE_KEY with
         | Some text =>
             if String.eqb text "" then makeInitialState today
             else match JSON_parse_form fj text with
                  | Returned parsed => restore parsed
                  | Thrown _ => makeInitialState today
                  end
         | None => makeInitialState today
         end, st)
    else (Thrown SecurityError, st).
Proof.
  unfold initialForm, mbind, M_bind, getItem, throw, try_catch, pure_call,
    mret, M_ret.
  destruct (available st); [|done].
  destruct (items st !! STORAGE_KEY) as [text|]; [|done].
  destruct (String.eqb text ""); [done|].
  by destruct (JSON_parse_form fj text).
Qed.

Lemma storage_keys_differ : STORAGE_KEY_ARCHIVE ≠ STORAGE_KEY.
Proof. done. Qed.

(** The effect as a function of the browser state. *)
Lemma persist_eq (f : FormState) (st : Browser) :
  persist fj json f st
  = let items1 := <[STORAGE_KEY := JSON_stringify_form fj f]> (items st) in
    if available st then
      if used items1 <=? quota st then
        let st1 := {| available := available st; items := items1;
                      quota := quota st; alerts := alerts st |} in
        match js_set (archive_value json st) (date (header f)) f with
        | Returned a => writeArchive json a st1
        | Thrown e => (Thrown e, st1)
        end
      else (Thrown QuotaExceededError, st)
    else (Thrown SecurityError, st).
Proof.
  unfold persist, mbind, M_bind, setItem, throw, pure_call. cbv zeta.
  destruct (available st) eqn:Hav; [|done]. cbn [negb].
  destruct (used _ <=? quota st); [|done].
  rewrite archive_value_eq.
  rewrite (archive_value_ext json st); cycle 1.
  - by cbn [available].
  - cbn [items]. by rewrite lookup_insert_ne by done.
  - by destruct (js_set (archive_value json st) (date (header f)) f).
Qed.

End CurrentSlotFacts.

(** X6. The initialiser of the form state throws exactly when the store
    cannot be accessed (its read is outside the [try]) and never changes
    the browser.  Otherwise it returns a form whose visibility is
    normalised and which lists at least one point: the fresh form when the
    slot is missing, empty or malformed, and what [restore] makes of the
    parsed text otherwise. *)
Theorem initialForm_result (fj : FormJson) (today : string) (st : Browser) :
  ∃ f,
    initialForm fj today st
    = ((if available st then Returned f else Thrown SecurityError), st)
    ∧ normal_form f
    ∧ (items st !! STORAGE_KEY = None
       ∨ items st !! STORAGE_KEY = Some ""
       ∨ (∃ text e, items st !! STORAGE_KEY = Some text
                    ∧ JSON_parse_form fj text = Thrown e) →
       f = makeInitialState today)
    ∧ (∀ text parsed,
         items st !! STORAGE_KEY = Some text → text ≠ "" →
         JSON_parse_form fj text = Returned parsed → f = restore parsed).
Proof.
  rewrite initialForm_eq.
  eexists. split_and!.
  - by destruct (available st).
  - destruct (items st !! STORAGE_KEY) as [text|];
      [|apply makeInitialState_normal].
    destruct (String.eqb text ""); [apply makeInitialState_normal|].
    destruct (JSON_parse_form fj text);
      [apply restore_normal | apply makeInitialState_normal].
  - intros [-> | [-> | (text & e & -> & Hbad)]]; [done | done |].
    rewrite Hbad. by destruct (String.eqb text "").
  - intros text parsed -> Hne ->.
    destruct (String.eqb text "") eqn:E; [|done].
    by apply String.eqb_eq in E.
Qed.

(** The initialiser on a blocked store, on an empty store and on a store
    holding text that does not parse. *)
Lemma initialForm_result_witness :
  initialForm sample_form_json "2024-05-01" blocked_browser
  = (Thrown SecurityError, blocked_browser)
  ∧ initialForm sample_form_json "2024-05-01" empty_browser
    = (Returned (makeInitialState "2024-05-01"), empty_browser)
  ∧ initialForm sample_form_json "2024-05-01"
      {| available := true; items := {[ STORAGE_KEY := "{oops" ]};
         quota := 5000; alerts := [] |}
    = (Returned (makeInitialState "2024-05-01"),
       {| available := true; items := {[ STORAGE_KEY := "{oops" ]};
          quota := 5000; alerts := [] |}).
Proof.
  split_and!.
  - destruct (initialForm_result sample_form_json "2024-05-01" blocked_browser)
      as (f & Hrun & _). exact Hrun.
  - destruct (initialForm_result sample_form_json "2024-05-01" empty_browser)
      as (f & Hrun & _ & Hfresh & _).
    rewrite Hrun, Hfresh; [done | by left].
  - destruct (initialForm_result sample_form_json "2024-05-01"
                {| available := true; items := {[ STORAGE_KEY := "{oops" ]};
                   quota := 5000; alerts := [] |})
      as (f & Hrun & _ & Hfresh & _).
    rewrite Hrun, Hfresh; [done|].
    right. right. by exists "{oops", SyntaxError.
Defined.

Section NormalFormSheet.

Lemma flag_visible (m : VisibilityMap) (s : SectionKey) (k : FieldKey) :
  flag m s k = Some true → isFieldVisible (default ∅ (m !! s)) k = true.
Proof.
  unfold flag, isFieldVisible. destruct (m !! s) as [e|]; [|done].
  simpl. by intros ->.
Qed.

Lemma normal_form_forced (f : FormState) (k : SectionKey) :
  normal_form f → k ∈ POINT_SECTIONS →
  isFieldVisible (stage_visibility f k) odor = true
  ∧ isFieldVisible (stage_visibility f k) color = true.
Proof.
  intros [Hvis _] Hk. unfold stage_visibility.
  split; apply flag_visible; rewrite <- Hvis, normalised_flag;
    unfold forced_visible; by rewrite bool_decide_eq_true_2.
Qed.

End NormalFormSheet.

(** X7. In the sheet of a form whose visibility is normalised and which
    lists a point (every form the initialiser returns is such a form), the
    block of each point stage is never empty: it is the point header,
    whose columns start with odor and color, followed by one row per
    point. *)
Theorem normal_form_point_tables (f : FormState) (k : SectionKey) :
  normal_form f → k ∈ POINT_SECTIONS →
  ∃ cols,
    visible_columns f k = odor :: color :: cols
    ∧ stage_rows_in k (toSheetRows f)
      = ("ポイント" :: "臭気" :: "色相" :: map FIELD_LABEL cols)
        :: map (point_row f k) (points f)
    ∧ 2 ≤ length (stage_rows_in k (toSheetRows f)).
Proof.
  intros Hnormal Hk.
  destruct (normal_form_forced f k Hnormal Hk) as [Hodor Hcolor].
  assert (Hcols : ∃ cols, visible_columns f k = odor :: color :: cols).
  { unfold visible_columns, POINT_FIELD_ORDER.
    rewrite filter_cons, decide_True by done.
    rewrite filter_cons, decide_True by done. eauto. }
  destruct Hcols as [cols Hcols]. exists cols.
  assert (Hrows : stage_rows_in k (toSheetRows f)
                  = ("ポイント" :: "臭気" :: "色相" :: map FIELD_LABEL cols)
                    :: map (point_row f k) (points f)).
  { rewrite stage_rows_in_content. unfold stage_content.
    rewrite bool_decide_eq_true_2 by done.
    unfold point_table, point_header. by rewrite Hcols. }
  split_and!; [done | done |].
  rewrite Hrows. simpl. rewrite length_map.
  destruct Hnormal as [_ Hpts]. destruct (points f); [done | simpl; lia].
Qed.

Lemma normal_form_point_tables_witness :
  normal_form (makeInitialState "2024-05-01")
  ∧ aerobic_lower ∈ POINT_SECTIONS
  ∧ ∃ cols,
      visible_columns (makeInitialState "2024-05-01") aerobic_lower
      = odor :: color :: cols
      ∧ 2 ≤ length (stage_rows_in aerobic_lower
                      (toSheetRows (makeInitialState "2024-05-01"))).
Proof.
  assert (Hn : normal_form (makeInitialState "2024-05-01"))
    by decide_by_evaluation.
  assert (Hk : aerobic_lower ∈ POINT_SECTIONS) by (right; by left).
  split_and!; [exact Hn | exact Hk |].
  destruct (normal_form_point_tables _ _ Hn Hk) as (cols & Hcols & _ & Hlen).
  exists cols. by split.
Defined.

Section PersistFacts.

Variable fj : FormJson.
Variable json : Json.

(** Writing the archive leaves the current slot and the access to the
    store as they are. *)
Lemma writeArchive_current_slot (a : JsArchive) (st : Browser) :
  items (snd (writeArchive json a st)) !! STORAGE_KEY = items st !! STORAGE_KEY
  ∧ available (snd (writeArchive json a st)) = available st
  ∧ alerts (snd (writeArchive json a st)) = alerts st
  ∧ fst (writeArchive json a st) = Returned ().
Proof.
  rewrite writeArchive_eq. cbv zeta. cbn [fst snd].
  destruct (available st && _); [|done].
  cbn [items available]. by rewrite lookup_insert_ne by apply storage_keys_differ.
Qed.

(** An assignment to a property of an object does not throw. *)
Lemma js_set_object (v : JsArchive) (a : ArchiveMap) (k : string)
    (f : FormState) :
  v = JsObject a → js_set v k f = Returned (JsObject (set_property a k f)).
Proof. by intros ->. Qed.

End PersistFacts.

(** X8. Persisting and restoring is a round trip.  When the store is
    accessible, the current slot takes the text of the form, this text
    reads back as the form and the archive slot holds an archive object
    (or nothing, or text that does not parse), the effect returns (whether
    or not the archive write went through) and the initialiser then
    returns the form with its visibility normalised and an empty point
    list replaced by the default points, which is the form itself when it
    is normal. *)
Theorem persist_then_initialForm (fj : FormJson) (json : Json)
    (today : string) (f : FormState) (st : Browser) (a : ArchiveMap) :
  available st = true →
  used (<[STORAGE_KEY := JSON_stringify_form fj f]> (items st)) ≤ quota st →
  form_reads_back fj f →
  archive_value json st = JsObject a →
  ∃ st',
    persist fj json f st = (Returned (), st')
    ∧ initialForm fj today st' = (Returned (restore (as_stored f)), st')
    ∧ points (restore (as_stored f))
      = (if decide (points f = []) then DEFAULT_POINTS else points f)
    ∧ visibility (restore (as_stored f))
      = patchedVisibility (Some (visibility f))
    ∧ (normal_form f → restore (as_stored f) = f).
Proof.
  intros Hav Hq [Hne Hparse] Hobj.
  rewrite persist_eq. cbv zeta. rewrite Hav, (proj2 (Nat.leb_le _ _) Hq).
  set (st1 := {| available := true; items := _; quota := _; alerts := _ |}).
  rewrite (js_set_object _ a (date (header f)) f Hobj).
  set (a' := set_property a (date (header f)) f).
  destruct (writeArchive_current_slot json (JsObject a') st1)
    as (Hslot & Havail & _ & Hret).
  exists (snd (writeArchive json (JsObject a') st1)). split_and!.
  - destruct (writeArchive json (JsObject a') st1) as [r st2]. simpl in *.
    by rewrite Hret.
  - rewrite initialForm_eq, Havail, Hslot. unfold st1. cbn [available items].
    rewrite lookup_insert_eq, Hparse.
    destruct (String.eqb _ "") eqn:E; [by apply String.eqb_eq in E | done].
  - simpl. by destruct (points f).
  - reflexivity.
  - apply restore_as_stored.
Qed.

Lemma persist_then_initialForm_witness :
  let f := sample_form "2024-05-01" "again" in
  available sample_browser = true
  ∧ used (<[STORAGE_KEY := JSON_stringify_form sample_form_json f]>
            (items sample_browser)) ≤ quota sample_browser
  ∧ form_reads_back sample_form_json f
  ∧ archive_value sample_json sample_browser = JsObject sample_archive
  ∧ normal_form f
  ∧ ∃ st',
      persist sample_form_json sample_json f sample_browser = (Returned (), st')
      ∧ initialForm sample_form_json "2024-06-01" st' = (Returned f, st').
Proof.
  intros f.
  assert (Hav : available sample_browser = true) by reflexivity.
  assert (Hq : used (<[STORAGE_KEY := JSON_stringify_form sample_form_json f]>
                       (items sample_browser)) ≤ quota sample_browser).
  { vm_compute. lia. }
  assert (Hback : form_reads_back sample_form_json f).
  { split; decide_by_evaluation. }
  assert (Hobj : archive_value sample_json sample_browser
                 = JsObject sample_archive) by decide_by_evaluation.
  assert (Hn : normal_form f) by decide_by_evaluation.
  split_and!; [exact Hav | exact Hq | exact Hback | exact Hobj | exact Hn |].
  destruct (persist_then_initialForm sample_form_json sample_json "2024-06-01"
              f sample_browser sample_archive Hav Hq Hback Hobj)
    as (st' & Hrun & Hload & _ & _ & Hsame).
  exists st'. split; [exact Hrun|]. by rewrite Hload, (Hsame Hn).
Defined.

(** X9. The persistence effect is not protected like [writeArchive].  When
    the store cannot be accessed or rejects the text of the form for the
    current slot, the exception escapes and nothing is written, the
    archive included.  When that first write goes through and the archive
    slot holds [null], the assignment to the archive throws: the exception
    escapes with the current slot written and the archive untouched.
    When the first write goes through and the archive slot holds an
    archive object (or nothing, or text that does not parse), the effect
    returns, the slot holds the text of the form and no message is
    shown. *)
Theorem persist_failure_escapes (fj : FormJson) (json : Json)
    (f : FormState) (st : Browser) (a : ArchiveMap) :
  (available st = false → persist fj json f st = (Thrown SecurityError, st))
  ∧ (available st = true →
     quota st < used (<[STORAGE_KEY := JSON_stringify_form fj f]> (items st)) →
     persist fj json f st = (Thrown QuotaExceededError, st))
  ∧ (available st = true →
     used (<[STORAGE_KEY := JSON_stringify_form fj f]> (items st)) ≤ quota st →
     archive_value json st = JsNull →
     persist fj json f st
     = (Thrown TypeError,
        {| available := true;
           items := <[STORAGE_KEY := JSON_stringify_form fj f]> (items st);
           quota := quota st; alerts := alerts st |}))
  ∧ (available st = true →
     used (<[STORAGE_KEY := JSON_stringify_form fj f]> (items st)) ≤ quota st →
     archive_value json st = JsObject a →
     ∃ st', persist fj json f st = (Returned (), st')
            ∧ items st' !! STORAGE_KEY = Some (JSON_stringify_form fj f)
            ∧ alerts st' = alerts st).
Proof.
  rewrite persist_eq. cbv zeta. split_and!.
  - by intros ->.
  - intros -> Hq. apply Nat.leb_gt in Hq. by rewrite Hq.
  - intros -> Hq ->. by rewrite (proj2 (Nat.leb_le _ _) Hq).
  - intros -> Hq Hobj. rewrite (proj2 (Nat.leb_le _ _) Hq).
    set (st1 := {| available := true; items := _; quota := _; alerts := _ |}).
    rewrite (js_set_object _ a (date (header f)) f Hobj).
    set (a' := set_property a (date (header f)) f).
    destruct (writeArchive_current_slot json (JsObject a') st1)
      as (Hslot & _ & Halerts & Hret).
    exists (snd (writeArchive json (JsObject a') st1)). split_and!.
    + destruct (writeArchive json (JsObject a') st1) as [r st2]. simpl in *.
      by rewrite Hret.
    + rewrite Hslot. unfold st1. cbn [items]. by rewrite lookup_insert_eq.
    + by rewrite Halerts.
Qed.

Lemma persist_failure_escapes_witness :
  let f := sample_form "2024-05-01" "again" in
  (available blocked_browser = false
   ∧ persist sample_form_json sample_json f blocked_browser
     = (Thrown SecurityError, blocked_browser))
  ∧ (available tiny_browser = true
     ∧ quota tiny_browser
       < used (<[STORAGE_KEY := JSON_stringify_form sample_form_json f]>
                 (items tiny_browser))
     ∧ persist sample_form_json sample_json f tiny_browser
       = (Thrown QuotaExceededError, tiny_browser))
  ∧ (available null_browser = true
     ∧ used (<[STORAGE_KEY := JSON_stringify_form sample_form_json f]>
               (items null_browser)) ≤ quota null_browser
     ∧ archive_value sample_json null_browser = JsNull
     ∧ fst (persist sample_form_json sample_json f null_browser)
       = Thrown TypeError)
  ∧ (available empty_browser = true
     ∧ used (<[STORAGE_KEY := JSON_stringify_form sample_form_json f]>
               (items empty_browser)) ≤ quota empty_browser
     ∧ archive_value sample_json empty_browser = JsObject ∅
     ∧ ∃ st', persist sample_form_json sample_json f empty_browser
              = (Returned (), st')).
Proof.
  intros f.
  assert (H1 : available blocked_browser = false) by reflexivity.
  assert (H2 : available tiny_browser = true) by reflexivity.
  assert (H3 : quota tiny_browser
               < used (<[STORAGE_KEY := JSON_stringify_form sample_form_json f]>
                         (items tiny_browser))).
  { vm_compute. lia. }
  assert (H4 : available empty_browser = true) by reflexivity.
  assert (H5 : used (<[STORAGE_KEY := JSON_stringify_form sample_form_json f]>
                       (items empty_browser)) ≤ quota empty_browser).
  { vm_compute. lia. }
  assert (H6 : archive_value sample_json empty_browser = JsObject ∅)
    by decide_by_evaluation.
  assert (H7 : available null_browser = true) by reflexivity.
  assert (H8 : used (<[STORAGE_KEY := JSON_stringify_form sample_form_json f]>
                       (items null_browser)) ≤ quota null_browser).
  { vm_compute. lia. }
  assert (H9 : archive_value sample_json null_browser = JsNull)
    by decide_by_evaluation.
  destruct (persist_failure_escapes sample_form_json sample_json f
              blocked_browser ∅) as (Ha & _ & _ & _).
  destruct (persist_failure_escapes sample_form_json sample_json f
              tiny_browser ∅) as (_ & Hb & _ & _).
  destruct (persist_failure_escapes sample_form_json sample_json f
              null_browser ∅) as (_ & _ & Hc & _).
  destruct (persist_failure_escapes sample_form_json sample_json f
              empty_browser ∅) as (_ & _ & _ & Hd).
  split_and!; [exact H1 | exact (Ha H1) | exact H2 | exact H3
               | exact (Hb H2 H3) | exact H7 | exact H8 | exact H9 |
               | exact H4 | exact H5 | exact H6 |].
  - by rewrite (Hc H7 H8 H9).
  - destruct (Hd H4 H5 H6) as (st' & Hrun & _). by exists st'.
Defined.

(** ** Deleting and listing archived dates *)

Section DeleteFacts.

Variable json : Json.

Lemma onDelete_eq (d : string) (st : Browser) :
  onDelete json d st
  = match archive_value json st with
    | JsObject a =>
        match get_property a d with
        | Some _ => writeArchive json (JsObject (delete d a)) st
        | None => (Returned (), st)
        end
    | JsNull => (Thrown TypeError, st)
    end.
Proof.
  unfold onDelete, mbind, M_bind, pure_call. rewrite archive_value_eq.
  destruct (archive_value json st) as [a|]; [|done]. cbn [js_get].
  by destruct (get_property a d).
Qed.

(** A key that is neither stored nor inherited is [undefined]. *)
Lemma get_property_None (a : ArchiveMap) (k : string) :
  get_property a k = None ↔ a !! k = None ∧ k ∉ Object_prototype.
Proof.
  unfold get_property. destruct (a !! k) as [f|].
  - split; [done | by intros [? _]].
  - destruct (bool_decide_reflect (k ∈ Object_prototype)) as [Hin|Hout].
    + split; [done | by intros [_ ?]].
    + by split.
Qed.

(** Only an archive read from an accessible store has a key. *)
Lemma archive_value_available (st : Browser) (a : ArchiveMap) (d : string) :
  archive_value json st = JsObject a → is_Some (a !! d) →
  available st = true.
Proof.
  unfold archive_value. rewrite readArchive_eq. cbn [fst].
  destruct (available st); [done|].
  intros [= <-] [x Hx]. by rewrite lookup_empty in Hx.
Qed.

End DeleteFacts.

(** X10. What [onDelete] does depends on what [a[d]] finds.  On an archive
    slot holding [null] it throws and changes nothing.  On an archive
    object, a date that is neither archived nor a name of
    [Object.prototype] is left alone: nothing is written.  A name of
    [Object.prototype] that is not archived passes the guard on the
    inherited member, and the archive is written back as it is.  An
    archived date, when the store accepts the write, is removed and no
    other: it is no longer listed, loading it finds at most the inherited
    member of that name, and every other date loads as before. *)
Theorem onDelete_effect (json : Json) (d : string) (st : Browser)
    (a : ArchiveMap) :
  (archive_value json st = JsNull →
   onDelete json d st = (Thrown TypeError, st))
  ∧ (archive_value json st = JsObject a →
     (a !! d = None → d ∉ Object_prototype →
      onDelete json d st = (Returned (), st))
     ∧ (a !! d = None → d ∈ Object_prototype →
        onDelete json d st = writeArchive json (JsObject a) st)
     ∧ (is_Some (a !! d) →
        JSON_round_trip json →
        used (<[STORAGE_KEY_ARCHIVE :=
                  JSON_stringify json (JsObject (delete d a))]>
                (items st)) ≤ quota st →
        ∃ st' dates,
          onDelete json d st = (Returned (), st')
          ∧ archive_value json st' = JsObject (delete d a)
          ∧ onLoad json d st'
            = (Returned (if bool_decide (d ∈ Object_prototype)
                         then Some (Inherited d) else None), st')
          ∧ (∀ d', d' ≠ d →
               onLoad json d' st' = (Returned (get_property a d'), st'))
          ∧ listArchiveDates json st' = (Returned dates, st')
          ∧ (∀ d', d' ∈ dates ↔ d' ≠ d ∧ is_Some (a !! d')))).
Proof.
  rewrite onDelete_eq. split; [by intros ->|].
  intros Hobj. rewrite Hobj. split_and!.
  - intros Hd Hproto.
    by rewrite (proj2 (get_property_None a d) (conj Hd Hproto)).
  - intros Hd Hproto. unfold get_property.
    rewrite Hd, (bool_decide_eq_true_2 _ Hproto).
    by rewrite delete_id.
  - intros [snap Hsnap] Hlaw Hq. rewrite (get_property_own _ _ _ Hsnap).
    assert (Hav : available st = true).
    { apply (archive_value_available json st a d Hobj). by exists snap. }
    pose proof (archive_value_written json _ st Hlaw Hav Hq) as Harch.
    destruct (writeArchive json (JsObject (delete d a)) st)
      as [r st'] eqn:Hw.
    assert (Hr : r = Returned ()).
    { rewrite writeArchive_eq in Hw. congruence. }
    subst r. cbn [snd] in Harch.
    exists st', (reverse (js_sort (own_keys (delete d a)))).
    split_and!.
    + done.
    + done.
    + rewrite onLoad_eq, Harch. cbn [js_get]. unfold get_property.
      by rewrite lookup_delete_eq.
    + intros d' Hne. rewrite onLoad_eq, Harch. cbn [js_get].
      unfold get_property. by rewrite lookup_delete_ne.
    + by rewrite listArchiveDates_eq, Harch.
    + intros d'. rewrite listed_keys.
      destruct (decide (d' = d)) as [->|Hne].
      * rewrite lookup_delete_eq. split.
        -- intros [x Hx]. discriminate Hx.
        -- intros [Hd _]. by destruct Hd.
      * rewrite lookup_delete_ne by done. split; [by intros ? | by intros [_ ?]].
Qed.

Lemma onDelete_effect_witness :
  (archive_value sample_json null_browser = JsNull
   ∧ onDelete sample_json "2024-05-01" null_browser
     = (Thrown TypeError, null_browser))
  ∧ (archive_value sample_json sample_browser = JsObject sample_archive
     ∧ sample_archive !! "2024-01-01" = None
     ∧ ("2024-01-01" ∉ Object_prototype)
     ∧ onDelete sample_json "2024-01-01" sample_browser
       = (Returned (), sample_browser))
  ∧ (archive_value sample_json empty_browser = JsObject ∅
     ∧ (∅ : ArchiveMap) !! "constructor" = None
     ∧ "constructor" ∈ Object_prototype
     ∧ onDelete sample_json "constructor" empty_browser
       = (Returned (),
          {| available := true; items := {[ STORAGE_KEY_ARCHIVE := "{}" ]};
             quota := 5000; alerts := [] |}))
  ∧ (is_Some ((<["2024-05-02" := sample_form "2024-05-02" "new"]>
                 sample_archive) !! "2024-05-02")
     ∧ ∃ st', onDelete sample_json "2024-05-02" updated_browser
              = (Returned (), st')
              ∧ listArchiveDates sample_json st'
                = (Returned ["2024-05-01"; "2024-04-30"; "2023-12-31"], st')).
Proof.
  set (a2 := <["2024-05-02" := sample_form "2024-05-02" "new"]> sample_archive).
  assert (N1 : archive_value sample_json null_browser = JsNull)
    by decide_by_evaluation.
  assert (S1 : archive_value sample_json sample_browser
               = JsObject sample_archive) by decide_by_evaluation.
  assert (S2 : sample_archive !! "2024-01-01" = None)
    by (vm_compute; reflexivity).
  assert (S3 : "2024-01-01" ∉ Object_prototype) by decide_by_evaluation.
  assert (E1 : archive_value sample_json empty_browser = JsObject ∅)
    by decide_by_evaluation.
  assert (E2 : (∅ : ArchiveMap) !! "constructor" = None) by reflexivity.
  assert (E3 : "constructor" ∈ Object_prototype) by decide_by_evaluation.
  assert (U1 : archive_value sample_json updated_browser = JsObject a2)
    by decide_by_evaluation.
  assert (U2 : is_Some (a2 !! "2024-05-02")).
  { apply (@bool_decide_unpack _ (is_Some_dec _)). vm_compute. exact I. }
  assert (U3 : used (<[STORAGE_KEY_ARCHIVE :=
                         JSON_stringify sample_json
                           (JsObject (delete "2024-05-02" a2))]>
                       (items updated_browser)) ≤ quota updated_browser).
  { vm_compute. lia. }
  destruct (onDelete_effect sample_json "2024-05-01" null_browser ∅)
    as (Hnull & _).
  destruct (onDelete_effect sample_json "2024-01-01" sample_browser
              sample_archive) as (_ & Hsample).
  destruct (Hsample S1) as (Habsent & _ & _).
  destruct (onDelete_effect sample_json "constructor" empty_browser ∅)
    as (_ & Hempty).
  destruct (Hempty E1) as (_ & Hinherited & _).
  destruct (onDelete_effect sample_json "2024-05-02" updated_browser a2)
    as (_ & Hupdated).
  destruct (Hupdated U1) as (_ & _ & Hpresent).
  split_and!; [exact N1 | exact (Hnull N1) | exact S1 | exact S2 | exact S3
               | exact (Habsent S2 S3) | exact E1 | exact E2 | exact E3
               | | exact U2 |].
  - rewrite (Hinherited E2 E3). vm_compute. reflexivity.
  - destruct (Hpresent U2 sample_json_round_trip U3)
      as (st' & dates & Hrun & _ & _ & _ & Hlist & _).
    exists st'. split; [exact Hrun|].
    assert (Hst : st' = snd (onDelete sample_json "2024-05-02" updated_browser))
      by (by rewrite Hrun).
    rewrite Hst. vm_compute. reflexivity.
Defined.

(** X11. On an archive slot holding [null], [onSave] throws on the
    assignment: nothing is written and no message is shown.  On an
    archive object it returns and shows the message that the result was
    saved, whether or not the write went through.  When the store accepts
    the write, the dates listed afterwards are the keys of the archive
    after the assignment: the dates archived before together with the date
    of the saved form, except that a form dated [__proto__] adds no date
    (unless that key is archived already).  Saving never drops a date. *)
Theorem onSave_lists_date (json : Json) (s : FormState) (st : Browser)
    (a : ArchiveMap) :
  (archive_value json st = JsNull →
   onSave json s st = (Thrown TypeError, st))
  ∧ (archive_value json st = JsObject a →
     (∃ st', onSave json s st = (Returned (), st')
             ∧ alerts st' = alerts st ++ ["この日付の点検結果を保存しました"])
     ∧ (JSON_round_trip json →
        available st = true →
        used (<[STORAGE_KEY_ARCHIVE :=
                  JSON_stringify json
                    (JsObject (set_property a (date (header s)) s))]>
                (items st)) ≤ quota st →
        ∃ st' dates,
          onSave json s st = (Returned (), st')
          ∧ listArchiveDates json st' = (Returned dates, st')
          ∧ (∀ d, d ∈ dates
                  ↔ is_Some (set_property a (date (header s)) s !! d))
          ∧ (date (header s) ≠ "__proto__" →
             ∀ d, d ∈ dates ↔ d = date (header s) ∨ is_Some (a !! d))
          ∧ (date (header s) = "__proto__" → a !! "__proto__" = None →
             ∀ d, d ∈ dates ↔ is_Some (a !! d)))).
Proof.
  split.
  { intros Hnull. by rewrite onSave_eq, Hnull. }
  intros Hobj. split.
  - rewrite onSave_eq, Hobj. cbn [js_set]. unfold alert.
    eexists. split; [reflexivity|]. cbn [alerts].
    rewrite writeArchive_eq. cbv zeta. cbn [snd].
    by destruct (available st && _).
  - intros Hlaw Hav Hq. rewrite onSave_eq, Hobj. cbn [js_set]. unfold alert.
    set (a' := set_property a (date (header s)) s) in *.
    eexists. exists (reverse (js_sort (own_keys a'))).
    split; [reflexivity|].
    assert (Harch : archive_value json
                      {| available := available
                                        (snd (writeArchive json (JsObject a') st));
                         items := items (snd (writeArchive json (JsObject a') st));
                         quota := quota (snd (writeArchive json (JsObject a') st));
                         alerts := alerts (snd (writeArchive json (JsObject a') st))
                                   ++ ["この日付の点検結果を保存しました"] |}
                    = JsObject a').
    { rewrite archive_value_alerts. by apply archive_value_written. }
    split_and!.
    + by rewrite listArchiveDates_eq, Harch.
    + intros d. apply listed_keys.
    + intros Hdate d. rewrite listed_keys. unfold a'.
      rewrite set_property_insert by done.
      destruct (decide (d = date (header s))) as [->|Hne].
      * rewrite lookup_insert_eq. split; [by left | eauto].
      * rewrite lookup_insert_ne by done.
        split; [by right | by intros [? | ?]].
    + intros Hdate Hfresh d. rewrite listed_keys. unfold a', set_property.
      rewrite Hdate, (bool_decide_eq_true_2 _ eq_refl).
      by rewrite (bool_decide_eq_true_2 _ Hfresh).
Qed.

Lemma onSave_lists_date_witness :
  let s := sample_form "2024-05-02" "new" in
  (archive_value sample_json null_browser = JsNull
   ∧ onSave sample_json s null_browser = (Thrown TypeError, null_browser))
  ∧ archive_value sample_json sample_browser = JsObject sample_archive
  ∧ JSON_round_trip sample_json
  ∧ available sample_browser = true
  ∧ used (<[STORAGE_KEY_ARCHIVE :=
              JSON_stringify sample_json
                (JsObject (set_property sample_archive (date (header s)) s))]>
            (items sample_browser)) ≤ quota sample_browser
  ∧ ∃ st',
      onSave sample_json s sample_browser = (Returned (), st')
      ∧ listArchiveDates sample_json st'
        = (Returned ["2024-05-02"; "2024-05-01"; "2024-04-30"; "2023-12-31"],
           st').
Proof.
  intros s.
  assert (N1 : archive_value sample_json null_browser = JsNull)
    by decide_by_evaluation.
  assert (Hobj : archive_value sample_json sample_browser
                 = JsObject sample_archive) by decide_by_evaluation.
  assert (Hav : available sample_browser = true) by reflexivity.
  assert (Hq : used (<[STORAGE_KEY_ARCHIVE :=
                         JSON_stringify sample_json
                           (JsObject (set_property sample_archive
                                        (date (header s)) s))]>
                       (items sample_browser)) ≤ quota sample_browser).
  { vm_compute. lia. }
  destruct (onSave_lists_date sample_json s null_browser ∅) as (Hnull & _).
  destruct (onSave_lists_date sample_json s sample_browser sample_archive)
    as (_ & Hsample).
  destruct (Hsample Hobj) as (_ & Hsaved).
  split_and!; [exact N1 | exact (Hnull N1) | exact Hobj
               | exact sample_json_round_trip | exact Hav | exact Hq |].
  destruct (Hsaved sample_json_round_trip Hav Hq)
    as (st' & dates & Hrun & _ & _).
  exists st'. split; [exact Hrun|].
  assert (Hst : st' = snd (onSave sample_json s sample_browser))
    by (by rewrite Hrun).
  rewrite Hst. vm_compute. reflexivity.
Defined.

(** X21. A slot holding the text [null] is not a malformed payload:
    [readArchive] returns [null] as it is parsed, nothing is caught, and
    the callers that touch a property of what it returns throw.  Listing
    the dates and loading a date both fail with a [TypeError], leaving the
    browser as it was. *)
Theorem null_payload_escapes (json : Json) (text d : string) (st : Browser) :
  available st = true →
  items st !! STORAGE_KEY_ARCHIVE = Some text →
  text ≠ "" →
  JSON_parse json text = Returned JsNull →
  readArchive json st = (Returned JsNull, st)
  ∧ listArchiveDates json st = (Thrown TypeError, st)
  ∧ onLoad json d st = (Thrown TypeError, st).
Proof.
  intros Hav Hslot Hne Hparse.
  assert (Hread : readArchive json st = (Returned JsNull, st)).
  { rewrite readArchive_eq, Hav, Hslot, Hparse.
    destruct (String.eqb text "") eqn:E; [by apply String.eqb_eq in E | done]. }
  assert (Hnull : archive_value json st = JsNull).
  { unfold archive_value. by rewrite Hread. }
  split_and!.
  - exact Hread.
  - by rewrite listArchiveDates_eq, Hnull.
  - by rewrite onLoad_eq, Hnull.
Qed.

Lemma null_payload_escapes_witness :
  available null_browser = true
  ∧ items null_browser !! STORAGE_KEY_ARCHIVE = Some "null"
  ∧ JSON_parse sample_json "null" = Returned JsNull
  ∧ listArchiveDates sample_json null_browser
    = (Thrown TypeError, null_browser)
  ∧ onLoad sample_json "2024-05-01" null_browser
    = (Thrown TypeError, null_browser).
Proof.
  assert (Hav : available null_browser = true) by reflexivity.
  assert (Hslot : items null_browser !! STORAGE_KEY_ARCHIVE = Some "null")
    by reflexivity.
  assert (Hne : "null" ≠ "") by done.
  assert (Hparse : JSON_parse sample_json "null" = Returned JsNull)
    by decide_by_evaluation.
  destruct (null_payload_escapes sample_json "null" "2024-05-01" null_browser
              Hav Hslot Hne Hparse) as (_ & Hlist & Hload).
  split_and!; [exact Hav | exact Hslot | exact Hparse | exact Hlist
               | exact Hload].
Defined.

(** ** What the sheet depends on *)

Section SheetDependence.

Lemma map_agree {A B} (g h : A → B) (l : list A) :
  (∀ x, x ∈ l → g x = h x) → map g l = map h l.
Proof.
  intros Hgh. apply map_ext_in. intros x Hx. by apply Hgh, list_elem_of_In.
Qed.

Lemma filter_agree {A} (P Q : A → Prop) `{∀ x, Decision (P x)}
    `{∀ x, Decision (Q x)} (l : list A) :
  (∀ x, P x ↔ Q x) → filter P l = filter Q l.
Proof.
  intros HPQ. induction l as [|x l IH]; [done|].
  rewrite !filter_cons, IH.
  destruct (decide (P x)) as [HP|HP], (decide (Q x)) as [HQ|HQ];
    try done; by apply HPQ in HP || by apply HPQ in HQ.
Qed.

(** Forms that agree on the header, the note, the point labels, the
    visibility of every field and the values of the visible fields have
    the same stage contents. *)
Lemma stage_content_agree (f f' : FormState) (k : SectionKey) :
  points f = points f' →
  (∀ c, isFieldVisible (stage_visibility f k) c
        = isFieldVisible (stage_visibility f' k) c) →
  (k ∉ POINT_SECTIONS → ∀ c,
     isFieldVisible (stage_visibility f k) c = true →
     JsString.or_empty (section_at (sections f) k !! c)
     = JsString.or_empty (section_at (sections f') k !! c)) →
  (k ∈ POINT_SECTIONS → ∀ lbl c,
     lbl ∈ points f → isFieldVisible (stage_visibility f k) c = true →
     default "" (point_record f k lbl !! c)
     = default "" (point_record f' k lbl !! c)) →
  stage_content f k = stage_content f' k.
Proof.
  intros Hpts Hvis Hsec Hpd. unfold stage_content.
  destruct (bool_decide (k ∈ POINT_SECTIONS)) eqn:Hk.
  - apply bool_decide_eq_true in Hk.
    assert (Hcols : visible_columns f' k = visible_columns f k).
    { unfold visible_columns. apply filter_agree. intros c. by rewrite Hvis. }
    unfold point_table, point_header. rewrite Hcols, <- Hpts.
    destruct (visible_columns f k) as [|c0 cols] eqn:E; [done|].
    f_equal. apply map_agree. intros lbl Hlbl.
    unfold point_row. rewrite Hcols, E. f_equal.
    apply map_agree. intros c Hc. apply Hpd; [done | done |].
    rewrite <- E in Hc. unfold visible_columns in Hc.
    by apply list_elem_of_filter in Hc as [Hc _].
  - apply bool_decide_eq_false in Hk. unfold field_rows.
    rewrite <- (filter_agree
                  (λ c, isFieldVisible (stage_visibility f k) c = true)
                  (λ c, isFieldVisible (stage_visibility f' k) c = true)
                  FIELD_ORDER) by (intros c; by rewrite Hvis).
    apply map_agree. intros c [Hc _]%list_elem_of_filter.
    by rewrite (Hsec Hk c Hc).
Qed.

Lemma toSheetRows_agree (f f' : FormState) :
  header f = header f' → extraNote f = extraNote f' →
  (∀ k, stage_content f k = stage_content f' k) →
  toSheetRows f = toSheetRows f'.
Proof.
  intros Hh Hn Hc. rewrite !toSheetRows_blocks.
  unfold note_block, SECTION_DEFS, stage_block. cbn [map concat key label].
  by rewrite Hh, Hn, !Hc.
Qed.

End SheetDependence.

(** X12. Hidden data never reaches the sheet.  Two forms with the same
    header, note and point labels, the same visibility of every field, the
    same values in the visible direct fields of the stages without points
    and the same values in the visible columns of the listed points have
    the same sheet, whatever else they hold: hidden fields, fields typed
    into a point stage itself, readings of points that are not listed, and
    the difference between a missing and an empty value. *)
Theorem hidden_data_not_exported (f f' : FormState) :
  header f = header f' → extraNote f = extraNote f' →
  points f = points f' →
  (∀ k c, isFieldVisible (stage_visibility f k) c
          = isFieldVisible (stage_visibility f' k) c) →
  (∀ k c, k ∉ POINT_SECTIONS →
     isFieldVisible (stage_visibility f k) c = true →
     JsString.or_empty (section_at (sections f) k !! c)
     = JsString.or_empty (section_at (sections f') k !! c)) →
  (∀ k lbl c, k ∈ POINT_SECTIONS → lbl ∈ points f →
     isFieldVisible (stage_visibility f k) c = true →
     default "" (point_record f k lbl !! c)
     = default "" (point_record f' k lbl !! c)) →
  toSheetRows f = toSheetRows f' ∧ rowsToHtmlTable (toSheetRows f)
                                  = rowsToHtmlTable (toSheetRows f').
Proof.
  intros Hh Hn Hpts Hvis Hsec Hpd.
  assert (Hsheet : toSheetRows f = toSheetRows f').
  { apply toSheetRows_agree; [done | done |].
    intros k. apply stage_content_agree; [done | done | |].
    - intros Hk c. by apply Hsec.
    - intros Hk lbl c. by apply Hpd. }
  split; [done | by rewrite Hsheet].
Qed.

Lemma hidden_data_not_exported_witness :
  let f := sample_form "2024-05-01" "" in
  let f' := hidden_variant "2024-05-01" "" in
  f ≠ f' ∧ toSheetRows f = toSheetRows f'.
Proof.
  intros f f'. split.
  - intros Heq. apply (f_equal (λ g, sec_influent (sections g) !! comment)) in Heq.
    vm_compute in Heq. discriminate Heq.
  - apply (hidden_data_not_exported f f').
    + reflexivity.
    + reflexivity.
    + reflexivity.
    + intros k c. reflexivity.
    + intros k c Hk Hshown.
      destruct k, c; try (vm_compute; reflexivity);
        try (vm_compute in Hshown; discriminate Hshown);
        exfalso; apply Hk; first [by left | right; by left].
    + intros k lbl c Hk Hlbl Hshown.
      unfold f, sample_form, DEFAULT_POINTS in Hlbl. cbn [points] in Hlbl.
      repeat (apply elem_of_cons in Hlbl as [-> | Hlbl]);
        [| | | | by apply elem_of_nil in Hlbl];
        destruct k, c; try (vm_compute; reflexivity);
        vm_compute in Hshown; discriminate Hshown.
Defined.

(** ** Editing a card and exporting *)

Section EditFacts.

(** The record of a point after an edit of a point card. *)
Lemma point_record_edit (f : FormState) (k : SectionKey) (lbl : string)
    (patch : gmap FieldKey string) (k' : SectionKey) (l : string) :
  point_record (edit_point f k lbl patch) k' l
  = if decide (k' = k ∧ l = lbl)
    then spread (point_record f k lbl) patch
    else point_record f k' l.
Proof.
  unfold point_record, edit_point, set_pointData, PointSubsections_set.
  cbn [pointData].
  destruct (decide (k' = k)) as [->|Hk].
  - rewrite lookup_insert_eq. cbn [from_option id].
    destruct (decide (l = lbl)) as [->|Hl].
    + rewrite lookup_insert_eq. by rewrite decide_True.
    + rewrite lookup_insert_ne by done. rewrite decide_False; [done | tauto].
  - rewrite lookup_insert_ne by done. rewrite decide_False; [done | tauto].
Qed.

Lemma section_at_with (s : Sections) (k k' : SectionKey) (v : SectionForm) :
  section_at (sections_with s k v) k'
  = if decide (k' = k) then v else section_at s k'.
Proof. by destruct k, k'. Qed.

(** An edit of a point card leaves the other stages as they are. *)
Lemma edit_point_other_stage (f : FormState) (k : SectionKey) (lbl : string)
    (patch : gmap FieldKey string) (k' : SectionKey) :
  k' ≠ k →
  stage_content (edit_point f k lbl patch) k' = stage_content f k'.
Proof.
  intros Hk. apply stage_content_agree; try done.
  intros _ l c _ _. rewrite point_record_edit.
  rewrite decide_False; [done | tauto].
Qed.

(** An edit of a section card leaves the other stages as they are, and a
    point stage as well. *)
Lemma edit_section_other_stage (f : FormState) (k : SectionKey)
    (patch : SectionForm) (k' : SectionKey) :
  k' ≠ k ∨ k ∈ POINT_SECTIONS →
  stage_content (edit_section f k patch) k' = stage_content f k'.
Proof.
  intros Hk. apply stage_content_agree; try done.
  intros Hk' c _. unfold edit_section. cbn [sections with_sections].
  rewrite section_at_with.
  destruct (decide (k' = k)) as [->|]; [|done].
  by destruct Hk.
Qed.

End EditFacts.

(** X13. What is typed into a point card is what the sheet shows for that
    point.  After the value [v] is set for field [c] in the card of point
    [lbl] of a point stage, the block of that stage has, in the rows of
    that label, [v] in the column of [c] (when the column is visible) and
    is otherwise as before; the blocks of the other stages are as
    before. *)
Theorem edit_point_sheet (f : FormState) (k : SectionKey) (lbl : string)
    (c : FieldKey) (v : string) :
  k ∈ POINT_SECTIONS →
  let f' := edit_point f k lbl {[ c := v ]} in
  stage_rows_in k (toSheetRows f')
  = match visible_columns f k with
    | [] => []
    | _ :: _ =>
        ("ポイント" :: map FIELD_LABEL (visible_columns f k))
        :: map (λ l,
                  displayPointLabel l
                  :: map (λ c', if decide (l = lbl ∧ c' = c) then v
                                else default "" (point_record f k l !! c'))
                         (visible_columns f k))
               (points f)
    end
  ∧ (∀ k', k' ≠ k →
       stage_rows_in k' (toSheetRows f') = stage_rows_in k' (toSheetRows f)).
Proof.
  intros Hk f'. split.
  - rewrite stage_rows_in_content. unfold stage_content.
    rewrite bool_decide_eq_true_2 by done.
    unfold point_table, point_header.
    change (visible_columns f' k) with (visible_columns f k).
    destruct (visible_columns f k) as [|c0 cols] eqn:E; [done|].
    f_equal. change (points f') with (points f).
    apply map_agree. intros l _. unfold point_row.
    change (visible_columns f' k) with (visible_columns f k). rewrite E.
    f_equal. apply map_agree. intros c' _.
    unfold f'. rewrite point_record_edit.
    destruct (decide (l = lbl)) as [->|Hl].
    + rewrite decide_True by done. unfold spread. rewrite lookup_union.
      destruct (decide (c' = c)) as [->|Hc].
      * rewrite lookup_singleton_eq, decide_True by done.
        by destruct (point_record f k lbl !! c).
      * rewrite lookup_singleton_ne by done.
        rewrite decide_False by tauto.
        by destruct (point_record f k lbl !! c').
    + rewrite decide_False by tauto. rewrite decide_False by tauto. done.
  - intros k' Hk'. rewrite !stage_rows_in_content.
    by apply edit_point_other_stage.
Qed.

(** The scenario of the source's comment: the odor of point NO.1-1 of the
    upper bed. *)
Lemma edit_point_sheet_witness :
  let f := makeInitialState "2024-05-01" in
  aerobic_upper ∈ POINT_SECTIONS
  ∧ take 2 (stage_rows_in aerobic_upper
              (toSheetRows (edit_point f aerobic_upper "NO.1-1"
                              {[ odor := "微 臭" ]})))
    = [ ["ポイント"; "臭気"; "色相"; "水温(℃)"; "透視度"; "pH"; "DO(mg/L)";
         "ろ抗高"];
        ["No.1-1"; "微 臭"; ""; ""; ""; ""; ""; ""] ].
Proof.
  intros f.
  assert (Hk : aerobic_upper ∈ POINT_SECTIONS) by (by left).
  split; [exact Hk|].
  destruct (edit_point_sheet f aerobic_upper "NO.1-1" odor "微 臭" Hk)
    as (Hrows & _).
  rewrite Hrows. vm_compute. reflexivity.
Defined.

(** X14. What is typed into the card of a stage without points is what
    the sheet shows: after the value [v] is set for field [c] of such a
    stage, its block has one row per visible field, with [v] for [c] and
    the former values elsewhere.  The blocks of the other stages are as
    before, and an edit of the section fields of a point stage changes
    nothing at all in the sheet. *)
Theorem edit_section_sheet (f : FormState) (k : SectionKey)
    (c : FieldKey) (v : string) :
  let f' := edit_section f k {[ c := v ]} in
  (k ∉ POINT_SECTIONS →
   stage_rows_in k (toSheetRows f')
   = map (λ c', [FIELD_LABEL c';
                 if decide (c' = c) then v
                 else JsString.or_empty (section_at (sections f) k !! c')])
         (filter (λ c', isFieldVisible (stage_visibility f k) c' = true)
                 FIELD_ORDER))
  ∧ (∀ k', k' ≠ k →
       stage_rows_in k' (toSheetRows f') = stage_rows_in k' (toSheetRows f))
  ∧ (k ∈ POINT_SECTIONS → toSheetRows f' = toSheetRows f).
Proof.
  intros f'. split_and!.
  - intros Hk. rewrite stage_rows_in_content. unfold stage_content.
    rewrite bool_decide_eq_false_2 by done. unfold field_rows.
    change (stage_visibility f' k) with (stage_visibility f k).
    apply map_agree. intros c' _. f_equal. f_equal.
    unfold f', edit_section. cbn [sections with_sections].
    rewrite section_at_with, decide_True by done.
    unfold spread. rewrite lookup_union.
    destruct (decide (c' = c)) as [->|Hc].
    + rewrite lookup_singleton_eq. by destruct (section_at (sections f) k !! c).
    + rewrite lookup_singleton_ne by done.
      by destruct (section_at (sections f) k !! c').
  - intros k' Hk'. rewrite !stage_rows_in_content.
    apply edit_section_other_stage. by left.
  - intros Hk. apply toSheetRows_agree; [done | done |].
    intros k'. apply edit_section_other_stage. by right.
Qed.

Lemma edit_section_sheet_witness :
  let f := makeInitialState "2024-05-01" in
  ((influent ∉ POINT_SECTIONS)
   ∧ stage_rows_in influent
       (toSheetRows (edit_section f influent {[ pH := "7.2" ]}))
     = [ ["臭気"; ""]; ["色相"; ""]; ["水温(℃)"; ""]; ["透視度"; ""];
         ["pH"; "7.2"]; ["DO(mg/L)"; ""] ])
  ∧ (aerobic_lower ∈ POINT_SECTIONS
     ∧ toSheetRows (edit_section f aerobic_lower {[ pH := "7.2" ]})
       = toSheetRows f).
Proof.
  intros f.
  assert (H1 : influent ∉ POINT_SECTIONS).
  { intros H. repeat (apply elem_of_cons in H as [H | H]; [discriminate H|]).
    by apply elem_of_nil in H. }
  assert (H2 : aerobic_lower ∈ POINT_SECTIONS) by (right; by left).
  destruct (edit_section_sheet f influent pH "7.2") as (Hrows & _ & _).
  destruct (edit_section_sheet f aerobic_lower pH "7.2") as (_ & _ & Hsame).
  split_and!; [exact H1 | | exact H2 | exact (Hsame H2)].
  rewrite (Hrows H1). vm_compute. reflexivity.
Defined.

(** ** The shape of the sheet *)

Section ShapeFacts.

Lemma visible_columns_length (f : FormState) (k : SectionKey) :
  length (visible_columns f k) ≤ 9.
Proof. unfold visible_columns. by rewrite length_filter. Qed.

Lemma stage_content_widths (f : FormState) (k : SectionKey) (r : Row) :
  r ∈ stage_content f k →
  length r = if bool_decide (k ∈ POINT_SECTIONS)
             then 1 + length (visible_columns f k) else 2.
Proof.
  unfold stage_content. destruct (bool_decide (k ∈ POINT_SECTIONS)).
  - unfold point_table.
    destruct (visible_columns f k) as [|c cols] eqn:E;
      [by intros ?%elem_of_nil|].
    intros [-> | (lbl & -> & _)%list_elem_of_fmap]%elem_of_cons.
    + unfold point_header. rewrite E. simpl. by rewrite length_map.
    + unfold point_row. rewrite E. simpl. by rewrite length_map.
  - unfold field_rows. by intros (c & -> & _)%list_elem_of_fmap.
Qed.

Lemma stage_content_length (f : FormState) (k : SectionKey) :
  length (stage_content f k)
  = if bool_decide (k ∈ POINT_SECTIONS) then
      match visible_columns f k with
      | [] => 0
      | _ :: _ => 1 + length (points f)
      end
    else length (filter (λ c, isFieldVisible (stage_visibility f k) c = true)
                        FIELD_ORDER).
Proof.
  unfold stage_content. destruct (bool_decide (k ∈ POINT_SECTIONS)).
  - unfold point_table. destruct (visible_columns f k); [done|].
    simpl. by rewrite length_map.
  - unfold field_rows. by rewrite length_map.
Qed.

End ShapeFacts.

(** X15. The shape of the sheet.  Every row has between one and ten cells.
    In the block of a point stage all rows, the header included, have the
    same number of cells (one more than the number of visible point
    columns); every content row of another stage has two.  The sheet has
    22 rows besides the content rows, a point block has no row or one more
    than there are points, and another block has at most ten. *)
Theorem sheet_shape (f : FormState) :
  (∀ r, r ∈ toSheetRows f → 1 ≤ length r ∧ length r ≤ 10)
  ∧ (∀ k r, r ∈ stage_rows_in k (toSheetRows f) →
       length r = if bool_decide (k ∈ POINT_SECTIONS)
                  then 1 + length (visible_columns f k) else 2)
  ∧ length (toSheetRows f)
    = 22 + length (stage_rows_in influent (toSheetRows f))
         + length (stage_rows_in aerobic_upper (toSheetRows f))
         + length (stage_rows_in aerobic_lower (toSheetRows f))
         + length (stage_rows_in effluent (toSheetRows f))
  ∧ (∀ k, length (stage_rows_in k (toSheetRows f))
          = if bool_decide (k ∈ POINT_SECTIONS) then
              match visible_columns f k with
              | [] => 0
              | _ :: _ => 1 + length (points f)
              end
            else length (filter (λ c, isFieldVisible (stage_visibility f k) c
                                      = true) FIELD_ORDER))
  ∧ (∀ k, k ∉ POINT_SECTIONS →
          length (stage_rows_in k (toSheetRows f)) ≤ 10).
Proof.
  split_and!.
  - rewrite toSheetRows_blocks.
    intros r [Hr | [Hr | [Hr | Hr]%elem_of_app]%elem_of_app]%elem_of_app.
    + unfold header_rows in Hr.
      repeat (apply elem_of_cons in Hr as [-> | Hr]);
        [simpl; lia.. | by apply elem_of_nil in Hr].
    + apply list_elem_of_singleton in Hr as ->. simpl. lia.
    + apply elem_of_concat in Hr as (block & Hr & Hblock).
      apply list_elem_of_fmap in Hblock as (def & -> & Hdef).
      unfold stage_block in Hr.
      apply elem_of_cons in Hr as [-> | [Hr | Hr]%elem_of_app].
      * simpl. lia.
      * apply stage_content_widths in Hr. rewrite Hr.
        pose proof (visible_columns_length f (key def)).
        destruct (bool_decide _); lia.
      * apply list_elem_of_singleton in Hr as ->. simpl. lia.
    + unfold note_block in Hr.
      repeat (apply elem_of_cons in Hr as [-> | Hr]);
        [simpl; lia.. | by apply elem_of_nil in Hr].
  - intros k r. rewrite stage_rows_in_content. apply stage_content_widths.
  - rewrite !stage_rows_in_content, toSheetRows_blocks.
    unfold SECTION_DEFS, stage_block, note_block, header_rows.
    cbn [map concat key]. rewrite !length_app. cbn [length].
    rewrite !length_app. cbn [length]. lia.
  - intros k. rewrite stage_rows_in_content. apply stage_content_length.
  - intros k Hk. rewrite stage_rows_in_content, stage_content_length.
    rewrite bool_decide_eq_false_2 by done.
    by rewrite length_filter.
Qed.

(** ** The start-up self tests *)

Section SelfTestFacts.

(** [findIndex] stops at the first row whose first cell is the text
    sought. *)
Lemma find_first_cell_at (t : string) (pre : list Row) (r : Row)
    (rest : list Row) :
  Forall (λ r', head r' ≠ Some t) pre → head r = Some t →
  find_first_cell t (pre ++ r :: rest) = Some (length pre).
Proof.
  intros Hpre Hr. unfold find_first_cell.
  induction Hpre as [|r' pre Hr' _ IH]; simpl.
  - by rewrite decide_True.
  - rewrite decide_False by done.
    destruct (list_find _ (pre ++ r :: rest)) as [[i x]|]; [|done].
    simpl in *. by injection IH as ->.
Qed.

(** No field label is the title of a block. *)
Lemma FIELD_LABEL_not_title (c : FieldKey) (lbl : string) :
  FIELD_LABEL c ≠ title lbl.
Proof. destruct c; discriminate. Qed.

(** The first cells of a block differ from a title that is not its own
    and, for a point stage, not a displayed point label. *)
Lemma stage_block_first_cell_ne (f : FormState) (def : SectionDef)
    (lbl : string) :
  title lbl ≠ title (label def) →
  (key def ∈ POINT_SECTIONS →
   ∀ l, l ∈ points f → displayPointLabel l ≠ title lbl) →
  Forall (λ r, head r ≠ Some (title lbl)) (stage_block f def).
Proof.
  intros Htitle Hpoints. unfold stage_block. constructor.
  { simpl. congruence. }
  apply Forall_app. split; [|by repeat constructor].
  unfold stage_content.
  destruct (bool_decide (key def ∈ POINT_SECTIONS)) eqn:Hk.
  - apply bool_decide_eq_true in Hk. unfold point_table.
    destruct (visible_columns f (key def)) as [|c0 cols]; [constructor|].
    constructor; [discriminate|].
    apply Forall_forall. intros r (l & -> & Hl)%list_elem_of_fmap.
    simpl. intros [= Heq]. by apply (Hpoints Hk l Hl).
  - unfold field_rows. apply Forall_forall.
    intros r (c & -> & _)%list_elem_of_fmap. simpl. intros [= Heq].
    by apply (FIELD_LABEL_not_title c lbl).
Qed.

Lemma header_rows_first_cell_ne (h : HeaderForm) (lbl : string) :
  Forall (λ r, head r ≠ Some (title lbl)) (header_rows h).
Proof. unfold header_rows. repeat constructor; discriminate. Qed.

(** What [hasOnlyPoints] computes when it finds the title row of a
    stage. *)
Lemma hasOnlyPoints_at (f : FormState) (def : SectionDef)
    (pre post : list Row) :
  Forall (λ r, head r ≠ Some (title (label def))) pre →
  key def ∈ POINT_SECTIONS →
  hasOnlyPoints (pre ++ stage_block f def ++ post) (label def) = true.
Proof.
  intros Hpre Hk. unfold hasOnlyPoints, stage_block. cbn [app].
  rewrite (find_first_cell_at _ pre) by done.
  rewrite <- (Nat.add_1_r (length pre)), <- drop_drop, drop_app_length.
  cbn [drop]. rewrite drop_0, <- app_assoc. cbn [app].
  rewrite (rows_until_separator_block _ post) by apply stage_content_wide.
  unfold stage_content. rewrite bool_decide_eq_true_2 by done.
  unfold point_table. by destruct (visible_columns f (key def)).
Qed.

End SelfTestFacts.

(** X16. The start-up test "Aerobic sections have only point tables in
    sheet rows" passes on the sheet of every form none of whose displayed
    point labels is the title of the lower bed (the test looks for a title
    in the first cell of any row, and a point row comes before that
    title). *)
Theorem test_aerobic_only_points_passes (f : FormState) :
  (∀ l, l ∈ points f → displayPointLabel l ≠ "【好気性ろ床 下部・処理水】") →
  test_aerobic_only_points (toSheetRows f) = true.
Proof.
  intros Hpoints. unfold test_aerobic_only_points.
  rewrite toSheetRows_blocks. unfold SECTION_DEFS. cbn [map concat].
  set (d1 := {| key := influent; label := "流入水" |}).
  set (d2 := {| key := aerobic_upper; label := "好気性ろ床 上部" |}).
  set (d3 := {| key := aerobic_lower; label := "好気性ろ床 下部・処理水" |}).
  set (d4 := {| key := effluent; label := "放流水" |}).
  apply andb_true_iff. split.
  - replace (header_rows (header f) ++ [separator]
             ++ (stage_block f d1 ++ stage_block f d2 ++ stage_block f d3
                 ++ stage_block f d4 ++ []) ++ note_block f)
      with ((header_rows (header f) ++ [separator] ++ stage_block f d1)
            ++ stage_block f d2
            ++ (stage_block f d3 ++ stage_block f d4 ++ note_block f))
      by (by rewrite app_nil_r, <- !app_assoc).
    apply (hasOnlyPoints_at f d2); [|by left].
    apply Forall_app. split; [apply header_rows_first_cell_ne|].
    apply Forall_app. split; [by repeat constructor|].
    apply stage_block_first_cell_ne; [discriminate|].
    intros Hk. exfalso.
    repeat (apply elem_of_cons in Hk as [Hk | Hk]; [discriminate Hk|]).
    by apply elem_of_nil in Hk.
  - replace (header_rows (header f) ++ [separator]
             ++ (stage_block f d1 ++ stage_block f d2 ++ stage_block f d3
                 ++ stage_block f d4 ++ []) ++ note_block f)
      with ((header_rows (header f) ++ [separator] ++ stage_block f d1
             ++ stage_block f d2)
            ++ stage_block f d3 ++ (stage_block f d4 ++ note_block f))
      by (by rewrite app_nil_r, <- !app_assoc).
    apply (hasOnlyPoints_at f d3); [|right; by left].
    apply Forall_app. split; [apply header_rows_first_cell_ne|].
    apply Forall_app. split; [by repeat constructor|].
    apply Forall_app. split.
    + apply stage_block_first_cell_ne; [discriminate|].
      intros Hk. exfalso.
      repeat (apply elem_of_cons in Hk as [Hk | Hk]; [discriminate Hk|]).
      by apply elem_of_nil in Hk.
    + apply stage_block_first_cell_ne; [discriminate|].
      intros _. exact Hpoints.
Qed.

Lemma test_aerobic_only_points_passes_witness :
  (∀ l, l ∈ points (sample_form "2024-05-01" "") →
        displayPointLabel l ≠ "【好気性ろ床 下部・処理水】")
  ∧ test_aerobic_only_points (toSheetRows (sample_form "2024-05-01" "")) = true.
Proof.
  assert (H : ∀ l, l ∈ points (sample_form "2024-05-01" "") →
                   displayPointLabel l ≠ "【好気性ろ床 下部・処理水】").
  { intros l Hl. cbn [points sample_form] in Hl. unfold DEFAULT_POINTS in Hl.
    repeat (apply elem_of_cons in Hl as [-> | Hl]);
      [discriminate.. | by apply elem_of_nil in Hl]. }
  split; [exact H|].
  exact (test_aerobic_only_points_passes _ H).
Defined.

(** X17. The start-up test "Free note appears in sheet rows" passes on the
    sheet of every form none of whose displayed point labels is the title
    of the free note. *)
Theorem test_free_note_passes (f : FormState) :
  (∀ l, l ∈ points f → displayPointLabel l ≠ "【自由記入 備考】") →
  test_free_note (toSheetRows f) = true.
Proof.
  intros Hpoints. unfold test_free_note.
  rewrite toSheetRows_blocks. unfold SECTION_DEFS, note_block.
  cbn [map concat].
  set (d1 := {| key := influent; label := "流入水" |}).
  set (d2 := {| key := aerobic_upper; label := "好気性ろ床 上部" |}).
  set (d3 := {| key := aerobic_lower; label := "好気性ろ床 下部・処理水" |}).
  set (d4 := {| key := effluent; label := "放流水" |}).
  set (pre := header_rows (header f) ++ [separator]
              ++ stage_block f d1 ++ stage_block f d2 ++ stage_block f d3
              ++ stage_block f d4).
  replace (header_rows (header f) ++ [separator]
           ++ (stage_block f d1 ++ stage_block f d2 ++ stage_block f d3
               ++ stage_block f d4 ++ [])
           ++ [[title "自由記入 備考"]; ["備考"; or_blank (extraNote f)];
               separator])
    with (pre ++ [title "自由記入 備考"]
              :: [["備考"; or_blank (extraNote f)]; separator])
    by (unfold pre; by rewrite app_nil_r, <- !app_assoc).
  assert (Hpre : Forall (λ r, head r ≠ Some (title "自由記入 備考")) pre).
  { unfold pre.
    apply Forall_app. split; [apply header_rows_first_cell_ne|].
    apply Forall_app. split; [by repeat constructor|].
    repeat (apply Forall_app; split);
      (apply stage_block_first_cell_ne; [discriminate | intros _; exact Hpoints]). }
  change "【自由記入 備考】" with (title "自由記入 備考").
  rewrite (find_first_cell_at _ pre) by done.
  rewrite (lookup_app_r pre) by lia.
  replace (S (length pre) - length pre) with 1 by lia.
  reflexivity.
Qed.

Lemma test_free_note_passes_witness :
  (∀ l, l ∈ points confusing_form → displayPointLabel l ≠ "【自由記入 備考】")
  ∧ test_free_note (toSheetRows confusing_form) = true.
Proof.
  assert (H : ∀ l, l ∈ points confusing_form →
                   displayPointLabel l ≠ "【自由記入 備考】").
  { intros l Hl. cbn [points confusing_form] in Hl.
    repeat (apply elem_of_cons in Hl as [-> | Hl]);
      [discriminate.. | by apply elem_of_nil in Hl]. }
  split; [exact H|].
  exact (test_free_note_passes _ H).
Defined.

(** The first test fails on a form with a point labelled like the title of
    the lower bed. *)
Example test_aerobic_only_points_fails :
  test_aerobic_only_points (toSheetRows confusing_form) = false.
Proof. vm_compute. reflexivity. Qed.

(** ** The cards and the sheet *)

Section CardFacts.

(** Both cards and the projector read a flag in the same way. *)
Lemma card_shows_isFieldVisible (m : VisibilityMap) (k : SectionKey)
    (c : FieldKey) :
  card_shows (m !! k) c = isFieldVisible (default ∅ (m !! k)) c
  ∧ card_shows (Some (default ∅ (m !! k))) c
    = isFieldVisible (default ∅ (m !! k)) c.
Proof.
  unfold card_shows, isFieldVisible.
  destruct (m !! k) as [e|]; simpl; [|done].
  by destruct (e !! c) as [[]|].
Qed.

Lemma existsb_false_filter {A} (p : A → bool) (l : list A) :
  existsb p l = false → filter (λ x, p x = true) l = [].
Proof.
  induction l as [|x l IH]; [done|]. simpl.
  intros [Hx Hl]%orb_false_iff. rewrite filter_cons, decide_False; [auto|].
  by rewrite Hx.
Qed.

End CardFacts.

(** X18. The cards ask for exactly what the sheet exports.  For a stage
    without points the section card renders an input for the fields that
    have a row in the block of the stage, in the same order; for a point
    stage the section card renders no input and every point card renders
    an input for the columns of the point table. *)
Theorem cards_match_sheet (f : FormState) (k : SectionKey) :
  (k ∉ POINT_SECTIONS →
   map (λ c, Some (FIELD_LABEL c)) (SectionCard_inputs k (visibility f !! k))
   = map head (stage_rows_in k (toSheetRows f)))
  ∧ (k ∈ POINT_SECTIONS →
     SectionCard_inputs k (visibility f !! k) = []
     ∧ PointSubsections_inputs (default ∅ (visibility f !! k))
       = visible_columns f k).
Proof.
  split.
  - intros Hk. rewrite stage_rows_in_content. unfold stage_content.
    rewrite bool_decide_eq_false_2 by done.
    unfold SectionCard_inputs. rewrite isAerobic_point_section.
    rewrite bool_decide_eq_false_2 by done. cbn [negb andb].
    unfold field_rows. rewrite map_map. cbn [head].
    assert (Hfilter :
      filter (λ c, card_shows (visibility f !! k) c = true)
        [odor; color; temp; turbidity; pH; DO; residualChlorine; headLoss;
         aeration; comment]
      = filter (λ c, isFieldVisible (stage_visibility f k) c = true)
          FIELD_ORDER).
    { apply filter_agree. intros c. unfold stage_visibility.
      by destruct (card_shows_isFieldVisible (visibility f) k c) as [-> _]. }
    destruct (existsb _ _) eqn:Hany.
    + by rewrite Hfilter.
    + apply existsb_false_filter in Hany. rewrite Hfilter in Hany.
      by rewrite Hany.
  - intros Hk. split.
    + unfold SectionCard_inputs. rewrite isAerobic_point_section.
      by rewrite bool_decide_eq_true_2.
    + unfold PointSubsections_inputs, visible_columns, stage_visibility.
      apply filter_agree. intros c.
      by destruct (card_shows_isFieldVisible (visibility f) k c) as [_ ->].
Qed.

Lemma cards_match_sheet_witness :
  let f := makeInitialState "2024-05-01" in
  ((effluent ∉ POINT_SECTIONS)
   ∧ SectionCard_inputs effluent (visibility f !! effluent)
     = [odor; color; temp; turbidity; pH; DO; residualChlorine]
   ∧ map head (stage_rows_in effluent (toSheetRows f))
     = map (λ c, Some (FIELD_LABEL c))
           [odor; color; temp; turbidity; pH; DO; residualChlorine])
  ∧ (aerobic_upper ∈ POINT_SECTIONS
     ∧ PointSubsections_inputs (default ∅ (visibility f !! aerobic_upper))
       = visible_columns f aerobic_upper).
Proof.
  intros f.
  assert (H1 : effluent ∉ POINT_SECTIONS).
  { intros H. repeat (apply elem_of_cons in H as [H | H]; [discriminate H|]).
    by apply elem_of_nil in H. }
  assert (H2 : aerobic_upper ∈ POINT_SECTIONS) by (by left).
  destruct (cards_match_sheet f effluent) as (Hcard & _).
  destruct (cards_match_sheet f aerobic_upper) as (_ & Hpoint).
  split_and!; [exact H1 | vm_compute; reflexivity | | exact H2
               | exact (proj2 (Hpoint H2))].
  rewrite <- (Hcard H1). vm_compute. reflexivity.
Defined.

(** ** The preview determines the sheet *)

Section TableInjective.
Import JsString.

(** A text without [<] ends where the next [<] stands. *)
Lemma split_at_angle (a a' y y' : string) :
  count "<" a = 0 → count "<" a' = 0 →
  a +:+ String "<" y = a' +:+ String "<" y' → a = a' ∧ y = y'.
Proof.
  revert a'. induction a as [|d a IH]; intros [|d' a'] Ha Ha'.
  - rewrite !append_empty_l. by intros [= ->].
  - rewrite append_empty_l, append_String. intros [= <- _].
    simpl in Ha'. lia.
  - rewrite append_empty_l, append_String. intros [= -> _].
    simpl in Ha. lia.
  - rewrite !append_String. intros [= -> Heq].
    simpl in Ha, Ha'. destruct (Ascii.eqb d' "<"); [lia|].
    destruct (IH a' Ha Ha' Heq) as [-> ->]. done.
Qed.

Lemma html_cell_open (i : nat) (c : string) :
  html_cell i c = cell_open i +:+ esc c +:+ "</td>".
Proof. unfold html_cell, cell_open. by rewrite !append_assoc_str. Qed.

Lemma cell_open_starts (i : nat) :
  ∃ rest, cell_open i = String "<" (String "t" rest).
Proof. unfold cell_open. destruct (Nat.eqb i 0); eauto. Qed.

Lemma cells_inj (r r' : Row) (g : nat → nat) (x x' : string) :
  join (imap (λ i, html_cell (g i)) r) +:+ "</tr>" +:+ x
  = join (imap (λ i, html_cell (g i)) r') +:+ "</tr>" +:+ x' →
  r = r' ∧ x = x'.
Proof.
  revert r' g. induction r as [|c r IH]; intros [|c' r'] g.
  - unfold join. cbn [imap foldr]. rewrite !append_empty_l.
    by intros ->%String.app_inj.
  - unfold join. cbn [imap foldr]. rewrite html_cell_open.
    destruct (cell_open_starts (g 0)) as [rest ->].
    rewrite append_empty_l. discriminate.
  - unfold join. cbn [imap foldr]. rewrite html_cell_open.
    destruct (cell_open_starts (g 0)) as [rest ->].
    rewrite append_empty_l. discriminate.
  - unfold join. cbn [imap foldr]. fold (join (imap ((λ i, html_cell (g i)) ∘ S) r)).
    fold (join (imap ((λ i, html_cell (g i)) ∘ S) r')).
    rewrite !html_cell_open, !append_assoc_str.
    intros Heq%String.app_inj.
    change "</td>" with (String "<" "/td>") in Heq.
    rewrite !append_String in Heq.
    apply split_at_angle in Heq as [Hesc Heq];
      [| rewrite esc_esc_once; apply esc_once_no_angle
       | rewrite esc_esc_once; apply esc_once_no_angle].
    apply (f_equal unesc) in Hesc.
    rewrite !esc_esc_once, !unesc_esc_once in Hesc. subst c'.
    injection Heq as Heq.
    destruct (IH r' (g ∘ S) Heq) as [-> ->]. done.
Qed.

Lemma html_row_inj (r r' : Row) (x x' : string) :
  html_row r +:+ x = html_row r' +:+ x' → r = r' ∧ x = x'.
Proof.
  unfold html_row. rewrite !append_assoc_str.
  intros Heq%String.app_inj. by apply (cells_inj r r' id).
Qed.

Lemma html_rows_inj (rows rows' : list Row) :
  join (map html_row rows) +:+ "</tbody></table>"
  = join (map html_row rows') +:+ "</tbody></table>" →
  rows = rows'.
Proof.
  revert rows'. induction rows as [|r rows IH]; intros [|r' rows']; [done|..].
  - unfold join. cbn [map foldr]. unfold html_row.
    rewrite ?append_empty_l, ?append_assoc_str. discriminate.
  - unfold join. cbn [map foldr]. unfold html_row.
    rewrite ?append_empty_l, ?append_assoc_str. discriminate.
  - unfold join. cbn [map foldr].
    fold (join (map html_row rows)). fold (join (map html_row rows')).
    rewrite !append_assoc_str.
    intros [-> Heq]%html_row_inj. by rewrite (IH rows' Heq).
Qed.

End TableInjective.

(** X19. The preview determines the sheet: two lists of rows with the same
    preview markup are the same list, cell by cell.  Nothing of a sheet is
    lost or merged in the preview. *)
Theorem rowsToHtmlTable_injective (rows rows' : list Row) :
  rowsToHtmlTable rows = rowsToHtmlTable rows' → rows = rows'.
Proof.
  unfold rowsToHtmlTable.
  intros Heq. do 5 apply String.app_inj in Heq.
  by apply html_rows_inj.
Qed.

Lemma rowsToHtmlTable_injective_witness :
  let rows := [["a<b"; "1"]; [""]] in
  let rows' := [["a<b"; "1"]] ++ [[""]] in
  rowsToHtmlTable rows = rowsToHtmlTable rows' ∧ rows = rows'.
Proof.
  intros rows rows'.
  assert (H : rowsToHtmlTable rows = rowsToHtmlTable rows') by reflexivity.
  split; [exact H|]. exact (rowsToHtmlTable_injective rows rows' H).
Defined.

(** ** Typing into a numeric field *)

Section KeystrokeFacts.
Import JsString NumberField.

Lemma digits_dot_digits_snoc (u : string) (c : ascii) :
  digits_dot_digits u = true →
  digits_dot_digits (u +:+ String c "")
  = is_digit c || (is_dot c && Nat.eqb (count "." u) 0).
Proof.
  induction u as [|d u IH]; rewrite ?append_String, ?append_empty_l; simpl.
  - intros _. destruct (is_digit c); [done|]. by destruct (is_dot c).
  - destruct (is_digit d) eqn:Hd.
    + intros Hu. rewrite (IH Hu).
      assert (Ascii.eqb d "." = false) as ->; [|done].
      apply Ascii.eqb_neq. intros ->. done.
    + destruct (is_dot d) eqn:Hdot; [|done]. intros Hu.
      unfold is_dot in Hdot. rewrite Hdot. simpl.
      rewrite andb_false_r, orb_false_r.
      clear IH. induction u as [|e u IH]; simpl in *.
      * by rewrite andb_true_r.
      * apply andb_true_iff in Hu as [-> Hu]. simpl. by apply IH.
Qed.

Lemma keep_first_dot_snoc_dot (u : string) :
  count "." u ≠ 0 → keep_first_dot (u +:+ ".") = keep_first_dot u.
Proof.
  induction u as [|d u IH]; [done|].
  rewrite append_String. simpl. unfold is_dot.
  destruct (Ascii.eqb d ".") eqn:Hd.
  - intros _. f_equal. rewrite remove_all_append. simpl.
    by rewrite append_empty_r.
  - intros Hu. f_equal. apply IH. lia.
Qed.

(** A character added to a text of the unsigned language is kept when
    the longer text is in the language and dropped otherwise. *)
Lemma keep_first_dot_keystroke (u : string) (c : ascii) :
  digits_dot_digits u = true →
  keep_first_dot (u +:+ kept_unsigned c)
  = if digits_dot_digits (u +:+ String c "") then u +:+ String c "" else u.
Proof.
  intros Hu. rewrite (digits_dot_digits_snoc u c Hu).
  destruct (digits_dot_digits_clean u Hu) as (_ & _ & Hk & _).
  unfold kept_unsigned, allowed. simpl.
  destruct (is_digit c) eqn:Hd.
  - simpl. assert (is_minus c = false) as ->.
    { unfold is_minus. apply Ascii.eqb_neq. intros ->. done. }
    assert (Hv : digits_dot_digits (u +:+ String c "") = true).
    { by rewrite (digits_dot_digits_snoc u c Hu), Hd. }
    by destruct (digits_dot_digits_clean _ Hv) as (_ & _ & -> & _).
  - destruct (is_dot c) eqn:Hdot.
    + simpl. assert (is_minus c = false) as ->.
      { unfold is_minus, is_dot in *. by apply Ascii.eqb_eq in Hdot as ->. }
      unfold is_dot in Hdot. apply Ascii.eqb_eq in Hdot as ->.
      destruct (Nat.eqb (count "." u) 0) eqn:Hcount.
      * assert (Hv : digits_dot_digits (u +:+ ".") = true).
        { by rewrite (digits_dot_digits_snoc u "." Hu), Hcount. }
        by destruct (digits_dot_digits_clean _ Hv) as (_ & _ & -> & _).
      * apply Nat.eqb_neq in Hcount.
        by rewrite keep_first_dot_snoc_dot, Hk.
    + simpl. destruct (is_minus c) eqn:Hm; simpl; rewrite ?Hm;
        by rewrite append_empty_r, Hk.
Qed.

Lemma leading_minus_append (u t : string) :
  leading_minus (u +:+ t)
  = match u with EmptyString => leading_minus t | String d _ => is_minus d end.
Proof. by destruct u. Qed.

End KeystrokeFacts.

(** X20. Typing at the end of a numeric field is all or nothing: when the
    value of the field matches the pattern and a character is added at its
    end, the filter returns the longer text if it matches the pattern and
    the former value otherwise. *)
Theorem sanitize_keystroke (allowNegative : bool) (s : string) (c : ascii) :
  matches_pattern allowNegative s = true →
  NumberField.sanitize allowNegative (s +:+ String c "")
  = if matches_pattern allowNegative (s +:+ String c "")
    then s +:+ String c "" else s.
Proof.
  intros Hs. rewrite sanitize_refines.
  unfold NumberField.sanitize_spec.
  rewrite !remove_all_append.
  fold (kept_unsigned c).
  destruct s as [|d u].
  - (* the field is empty *)
    rewrite !append_empty_l. unfold kept_unsigned.
    destruct (NumberField.is_minus c) eqn:Hm.
    { unfold NumberField.is_minus in Hm. apply Ascii.eqb_eq in Hm as ->.
      by destruct allowNegative. }
    destruct (NumberField.is_dot c) eqn:Hdot.
    { unfold NumberField.is_dot in Hdot. apply Ascii.eqb_eq in Hdot as ->.
      by destruct allowNegative. }
    simpl. unfold NumberField.allowed. rewrite Hm, Hdot, !orb_false_r.
    destruct (NumberField.is_digit c) eqn:Hd; simpl;
      rewrite ?Hm, ?Hdot, ?Hd, ?andb_false_r; simpl;
      rewrite ?Hm, ?Hdot, ?Hd; done.
  - unfold matches_pattern in Hs.
    rewrite append_String. cbn [matches_pattern].
    destruct (allowNegative && NumberField.is_minus d) eqn:Hsign.
    + (* a signed value *)
      apply andb_true_iff in Hsign as [-> Hm].
      unfold NumberField.is_minus in Hm. apply Ascii.eqb_eq in Hm as ->.
      destruct (digits_dot_digits_clean u Hs) as (Ha & Hmi & _ & _).
      simpl. rewrite Ha, Hmi. rewrite !append_String, append_empty_l. simpl.
      rewrite (keep_first_dot_keystroke u c Hs).
      by destruct (digits_dot_digits (u +:+ String c "")).
    + (* an unsigned value *)
      destruct (digits_dot_digits_clean _ Hs) as (Ha & Hmi & _ & Hl).
      rewrite Ha, Hmi. rewrite leading_minus_append. simpl in Hl.
      rewrite Hl, andb_false_r, append_empty_l.
      rewrite (keep_first_dot_keystroke _ c Hs).
      by rewrite append_String.
Qed.

Lemma sanitize_keystroke_witness :
  matches_pattern false "12.5" = true
  ∧ NumberField.sanitize false ("12.5" +:+ ".") = "12.5"
  ∧ NumberField.sanitize false ("12.5" +:+ "7") = "12.57".
Proof.
  assert (H : matches_pattern false "12.5" = true) by reflexivity.
  split_and!; [exact H | |].
  - exact (sanitize_keystroke false "12.5" "." H).
  - exact (sanitize_keystroke false "12.5" "7" H).
Defined.
